(** * Faculty CIS sheet generator: table and summary-value extraction

    A shallow embedding of the extraction functions of [app.py]
    ([extract_co_mapping], [extract_co_pso_mapping], [extract_po_attainment],
    [extract_po_evaluation_table], [extract_pso_evaluation_table],
    [read_excel], [extract_target_value] and the scans of
    [create_word_report]: attainment levels, score rows, faculty table, remark
    and the cells written to the mapping tables) together with the properties
    the specification states about them and further properties read off the
    code.

    Modelling conventions.
    - A sheet is the frame [pd.read_excel(..., header=None)] delivers: a list
      of rows of equal width, row labels being positions.
    - A cell is absent (pandas [NaN], openpyxl [None]), an integer, a float or
      a text.  Integers are unbounded, the overflow of [int64] is outside the
      model.  Floats are unbounded-precision decimals [mant * 10^-scale]:
      binary rounding error, infinities and exponent notation in [str] are
      outside the model, and so are the spellings of infinity and
      not-a-number that [float] accepts.  Rounding to 2 decimals is half-even
      on the decimal; a double that is not exactly its decimal may fall to the
      other side at a tie, so what is stated about a rounded value is the
      number of its decimals and its distance from the value rounded.
    - A column converted by [pd.to_numeric] is a column of integers when each
      of its values is an integer or the text of one, and a column of floats
      otherwise.
    - Text is ASCII: [lower], [upper] and [strip] act on the ASCII letters and
      the ASCII white space, other characters are left alone.
    - A raised exception is a value of [result]. *)

From Stdlib Require Import String Ascii ZArith Lia Bool Arith.
From Stdlib Require Import DecimalString DecimalN List ListDec.
Import ListNotations.
Open Scope string_scope.
Open Scope nat_scope.

(** ** Python text operations (ASCII) *)

Module PyStr.

Definition is_space (c : ascii) : bool :=
  let n := nat_of_ascii c in
  ((9 <=? n) && (n <=? 13)) || ((28 <=? n) && (n <=? 32)).

Definition is_upper (c : ascii) : bool :=
  let n := nat_of_ascii c in (65 <=? n) && (n <=? 90).

Definition is_lower (c : ascii) : bool :=
  let n := nat_of_ascii c in (97 <=? n) && (n <=? 122).

Definition is_digit (c : ascii) : bool :=
  let n := nat_of_ascii c in (48 <=? n) && (n <=? 57).

Definition lower_char (c : ascii) : ascii :=
  if is_upper c then ascii_of_nat (nat_of_ascii c + 32) else c.

Definition upper_char (c : ascii) : ascii :=
  if is_lower c then ascii_of_nat (nat_of_ascii c - 32) else c.

Fixpoint map_chars (f : ascii -> ascii) (s : string) : string :=
  match s with
  | EmptyString => EmptyString
  | String c s' => String (f c) (map_chars f s')
  end.

(** [s.lower()] and [s.upper()] *)
Definition lower : string -> string := map_chars lower_char.
Definition upper : string -> string := map_chars upper_char.

Fixpoint lstrip (s : string) : string :=
  match s with
  | EmptyString => EmptyString
  | String c s' => if is_space c then lstrip s' else s
  end.

Fixpoint rstrip (s : string) : string :=
  match s with
  | EmptyString => EmptyString
  | String c s' =>
      match rstrip s' with
      | EmptyString => if is_space c then EmptyString else String c EmptyString
      | t => String c t
      end
  end.

(** [s.strip()] *)
Definition strip (s : string) : string := rstrip (lstrip s).

(** [s.startswith(p)] *)
Definition startswith (p s : string) : bool := String.prefix p s.

(** [p in s] *)
Fixpoint contains (p s : string) : bool :=
  String.prefix p s ||
  match s with
  | EmptyString => false
  | String _ s' => contains p s'
  end.

(** No character of [s] is a lower-case letter: [s.upper() == s]. *)
Fixpoint no_lower (s : string) : bool :=
  match s with
  | EmptyString => true
  | String c s' => negb (is_lower c) && no_lower s'
  end.

End PyStr.

(** ** Numbers *)

Module Num.

Open Scope Z_scope.

(** A float: [mant * 10^-scale]. *)
Record dec : Type := Dec { mant : Z; scale : nat }.

(** [n / d] rounded to the nearest integer, ties to the even one ([d > 0]). *)
Definition round_half_even (n d : Z) : Z :=
  let q := n / d in
  let r := n mod d in
  if 2 * r <? d then q
  else if d <? 2 * r then q + 1
  else if Z.even q then q else q + 1.

(** [round(x, 2)]: the result always has scale 2. *)
Definition round2 (x : dec) : dec :=
  let k := scale x in
  if (k <=? 2)%nat
  then Dec (mant x * 10 ^ Z.of_nat (2 - k)) 2
  else Dec (round_half_even (mant x) (10 ^ Z.of_nat (k - 2))) 2.

(** [100 * x] is an integer. *)
Definition two_places (x : dec) : Prop :=
  (mant x * 100) mod 10 ^ Z.of_nat (scale x) = 0.

Definition of_int (z : Z) : dec := Dec z 0.

Definition neg (x : dec) : dec := Dec (- mant x) (scale x).

(** [|x - y| <= 0.005] *)
Definition within_half_cent (x y : dec) : Prop :=
  200 * Z.abs (mant x * 10 ^ Z.of_nat (scale y) - mant y * 10 ^ Z.of_nat (scale x))
  <= 10 ^ Z.of_nat (scale x + scale y).

Definition digit_char (z : Z) : ascii := ascii_of_nat (48 + Z.to_nat z).

(** The characters of a printed number. *)
Definition num_char (c : ascii) : bool :=
  PyStr.is_digit c || Ascii.eqb c "-" || Ascii.eqb c ".".

(** Decimal digits of a natural number, ["0"] for zero. *)
Definition digits (z : Z) : string :=
  NilZero.string_of_uint (N.to_uint (Z.to_N z)).

(** [str(z)] for a Python [int]. *)
Definition int_repr (z : Z) : string :=
  (if z <? 0 then "-" else "") ++ digits (Z.abs z).

Definition two_digits (f : Z) : string :=
  String (digit_char (f / 10)) (String (digit_char (f mod 10)) EmptyString).

(** [f"{x:.2f}"] *)
Definition fmt2 (x : dec) : string :=
  let h := Z.abs (mant (round2 x)) in
  (if mant x <? 0 then "-" else "") ++
  digits (h / 100) ++ "." ++ two_digits (h mod 100).

Fixpoint normalize (m : Z) (k : nat) : Z * nat :=
  match k with
  | O => (m, O)
  | S k' => if m mod 10 =? 0 then normalize (m / 10) k' else (m, k)
  end.

Fixpoint zeros (n : nat) : string :=
  match n with
  | O => EmptyString
  | S n' => String "0" (zeros n')
  end.

Definition pad_left (w : nat) (s : string) : string :=
  zeros (w - String.length s) ++ s.

(** [str(x)] for a float: the shortest decimal, with at least one digit after
    the point. *)
Definition float_repr (x : dec) : string :=
  let (m, k) := normalize (mant x) (scale x) in
  let a := Z.abs m in
  let p := 10 ^ Z.of_nat k in
  (if m <? 0 then "-" else "") ++ digits (a / p) ++ "." ++
  (if (k =? 0)%nat then "0" else pad_left k (digits (a mod p))).

Fixpoint span_digits (s : string) : string * string :=
  match s with
  | EmptyString => (EmptyString, EmptyString)
  | String c s' =>
      if PyStr.is_digit c
      then let (d, r) := span_digits s' in (String c d, r)
      else (EmptyString, s)
  end.

Fixpoint digits_val_from (acc : Z) (s : string) : Z :=
  match s with
  | EmptyString => acc
  | String c s' => digits_val_from (10 * acc + (Z.of_nat (nat_of_ascii c) - 48)) s'
  end.

Definition digits_val : string -> Z := digits_val_from 0.

(** [m * 10^-f * 10^(+-e)] *)
Definition shift (m : Z) (f : nat) (negative : bool) (e : nat) : dec :=
  if negative then Dec m (f + e)
  else if (f <=? e)%nat then Dec (m * 10 ^ Z.of_nat (e - f)) 0
  else Dec m (f - e).

Definition is_e (c : ascii) : bool :=
  Ascii.eqb c "e" || Ascii.eqb c "E".

(** An unsigned decimal literal: digits, an optional fraction, an optional
    exponent; at least one digit before the exponent. *)
Definition parse_unsigned (s : string) : option dec :=
  let (ip, r1) := span_digits s in
  let (fp, r2) :=
    match r1 with
    | String c r => if Ascii.eqb c "." then span_digits r else (EmptyString, r1)
    | EmptyString => (EmptyString, r1)
    end in
  if (String.length ip + String.length fp =? 0)%nat then None
  else
    let m := digits_val (ip ++ fp) in
    match r2 with
    | EmptyString => Some (Dec m (String.length fp))
    | String c r3 =>
        if is_e c then
          let (sg, r4) :=
            match r3 with
            | String c' r =>
                if Ascii.eqb c' "-" then (true, r)
                else if Ascii.eqb c' "+" then (false, r)
                else (false, r3)
            | EmptyString => (false, r3)
            end in
          let (ed, r5) := span_digits r4 in
          if (String.length ed =? 0)%nat then None
          else
            match r5 with
            | EmptyString =>
                Some (shift m (String.length fp) sg (Z.to_nat (digits_val ed)))
            | _ => None
            end
        else None
    end.

(** [float(s)]: [None] stands for the [ValueError].  The spellings of
    infinity and not-a-number and digit-group underscores are not modelled. *)
Definition float_of_string (s : string) : option dec :=
  let t := PyStr.strip s in
  match t with
  | String c r =>
      if Ascii.eqb c "-" then option_map neg (parse_unsigned r)
      else if Ascii.eqb c "+" then parse_unsigned r
      else parse_unsigned t
  | EmptyString => None
  end.

(** An unsigned integer literal: digits and nothing else. *)
Definition unsigned_int (s : string) : option Z :=
  match span_digits s with
  | (String c d, EmptyString) => Some (digits_val (String c d))
  | _ => None
  end.

(** The integer a text spells, if it spells one: an optional sign and digits,
    white space around them allowed.  This is the text pandas' parser reads
    as an integer rather than as a float (no point, no exponent). *)
Definition int_of_string (s : string) : option Z :=
  let t := PyStr.strip s in
  match t with
  | String c r =>
      if Ascii.eqb c "-" then option_map Z.opp (unsigned_int r)
      else if Ascii.eqb c "+" then unsigned_int r
      else unsigned_int t
  | EmptyString => None
  end.

End Num.

Import PyStr.

(** ** Cells, frames and results *)

Inductive cell : Type :=
| Absent
| Int (z : Z)
| Float (x : Num.dec)
| Text (s : string).

(** A row of a sheet. *)
Abbreviation row := (list cell).

(** A sheet as read with [header=None]: rows of equal width. *)
Abbreviation frame := (list (list cell)).

Inductive error : Type :=
| ValueError (msg : string)
| TypeError
| IndexError.

Inductive result (A : Type) : Type :=
| Ok (a : A)
| Raise (e : error).

Arguments Ok {A} a.
Arguments Raise {A} e.

(** [pd.notna(c)] *)
Definition notna (c : cell) : bool :=
  match c with
  | Absent => false
  | _ => true
  end.

(** [str(c)]; [na] is the text of the absent value: ["nan"] for the [NaN] of a
    frame, ["None"] for the [None] of an openpyxl row. *)
Definition py_str (na : string) (c : cell) : string :=
  match c with
  | Absent => na
  | Int z => Num.int_repr z
  | Float x => Num.float_repr x
  | Text s => s
  end.

Definition str_nan : cell -> string := py_str "nan".
Definition str_none : cell -> string := py_str "None".

(** [isinstance(c, (int, float))] on an openpyxl value *)
Definition is_number (c : cell) : bool :=
  match c with
  | Int _ | Float _ => true
  | _ => false
  end.

(** The mapping tables: [{"heading": ..., "data": DataFrame}] with the column
    labels and the rows of the data frame. *)
Record table : Type := Table {
  heading : string;
  columns : list string;
  rows : list row
}.

(** The PO-attainment table, whose column labels are raw cell values. *)
Record po_table : Type := PoTable {
  po_heading : string;
  po_columns : list cell;
  po_rows : list row
}.

(** ** Frame operations *)

Fixpoint find_index {A : Type} (p : A -> bool) (l : list A) : option nat :=
  match l with
  | [] => None
  | x :: l' => if p x then Some 0 else option_map S (find_index p l')
  end.

Fixpoint update_at {A : Type} (j : nat) (f : A -> A) (l : list A) : list A :=
  match l, j with
  | [], _ => []
  | x :: l', O => f x :: l'
  | x :: l', S j' => x :: update_at j' f l'
  end.

(** Column [j] holds a value in some row. *)
Definition column_kept (df : frame) (j : nat) : bool :=
  existsb (fun r => notna (nth j r Absent)) df.

Fixpoint select_columns (keep : nat -> bool) (j : nat) (r : row) : row :=
  match r with
  | [] => []
  | c :: r' =>
      if keep j then c :: select_columns keep (S j) r'
      else select_columns keep (S j) r'
  end.

(** [df.dropna(axis=1, how='all')] *)
Definition dropna_columns (df : frame) : frame :=
  map (select_columns (column_kept df) 0) df.

(** [df.dropna(how='all')] *)
Definition dropna_rows (df : frame) : frame :=
  filter (existsb notna) df.

(** [df.iloc[a:b]] *)
Definition iloc_slice (a b : nat) (df : frame) : frame :=
  firstn (b - a) (skipn a df).

(** [x.fillna("-")] on one value *)
Definition fillna (c : cell) : cell :=
  match c with
  | Absent => Text "-"
  | _ => c
  end.

(** What [pd.to_numeric(..., errors='coerce')] reads in one value of a
    column: an integer, a float, or [NaN] for what is absent or does not
    parse. *)
Inductive numeric : Type :=
| AnInt (z : Z)
| AFloat (x : Num.dec)
| NaN.

Definition to_numeric (c : cell) : numeric :=
  match c with
  | Absent => NaN
  | Int z => AnInt z
  | Float x => AFloat x
  | Text s =>
      match Num.int_of_string s, Num.float_of_string s with
      | Some z, _ => AnInt z
      | None, Some x => AFloat x
      | None, None => NaN
      end
  end.

Definition is_int (v : numeric) : bool :=
  match v with
  | AnInt _ => true
  | _ => false
  end.

(** The dtype of the converted column: [int64] when every value is an
    integer, [float64] as soon as one value is a float or [NaN]. *)
Definition is_int64 (values : list cell) : bool :=
  forallb (fun c => is_int (to_numeric c)) values.

(** [.round(2).fillna("-")] on one value of the converted column: an integer
    of an [int64] column stays what it is, in a [float64] column it is the
    float of the same value. *)
Definition round_fill (int64 : bool) (c : cell) : cell :=
  match to_numeric c with
  | AnInt z => if int64 then Int z else Float (Num.round2 (Num.of_int z))
  | AFloat x => Float (Num.round2 x)
  | NaN => Text "-"
  end.

(** [pd.to_numeric(values, errors='coerce').round(2).fillna("-")] on the
    values of one column. *)
Definition to_numeric_round (values : list cell) : list cell :=
  map (round_fill (is_int64 values)) values.

(** The values of the column at position [j], one per row. *)
Definition column (j : nat) (data : frame) : list cell :=
  map (fun r => nth j r Absent) data.

(** The column at position [j] replaced by [values], row by row. *)
Definition set_column (j : nat) (values : list cell) (data : frame) : frame :=
  map (fun p => update_at j (fun _ => snd p) (fst p)) (combine data values).

(** The positions of the columns labelled [lbl]. *)
Fixpoint positions_from (j : nat) (lbl : string) (cols : list string) : list nat :=
  match cols with
  | [] => []
  | c :: cols' =>
      if String.eqb c lbl then j :: positions_from (S j) lbl cols'
      else positions_from (S j) lbl cols'
  end.

Definition positions : string -> list string -> list nat := positions_from 0.

(** [data[col] = pd.to_numeric(data[col], errors='coerce').round(2).fillna("-")]:
    when the label [col] is carried by several columns [data[col]] is a frame
    and [pd.to_numeric] raises [TypeError]. *)
Definition assign_numeric (cols : list string) (col : string) (data : frame)
  : result frame :=
  match positions col cols with
  | [j] => Ok (set_column j (to_numeric_round (column j data)) data)
  | _ => Raise TypeError
  end.

(** [for col in todo: data[col] = ...] *)
Fixpoint round_numeric_columns (cols todo : list string) (data : frame)
  : result frame :=
  match todo with
  | [] => Ok data
  | col :: todo' =>
      match assign_numeric cols col data with
      | Ok data' => round_numeric_columns cols todo' data'
      | Raise e => Raise e
      end
  end.

(** ** extract_co_mapping *)

(** [[str(x).strip() for x in row if pd.notna(x)]] *)
Definition vals (r : row) : list string :=
  map (fun x => strip (str_nan x)) (filter notna r).

(** The test of the header loop of [extract_co_mapping]. *)
Definition is_co_header (prefix : string) (r : row) : bool :=
  match vals r with
  | v0 :: v1 :: _ =>
      (String.eqb (upper v0) "CO" || String.eqb (upper v0) (prefix ++ "1"))
      && startswith prefix (upper v1)
  | _ => false
  end.

(** [any(str(x).strip().lower() == "po attainment" for x in row if pd.notna(x))] *)
Definition is_po_attainment_row (r : row) : bool :=
  existsb (fun x => String.eqb (lower (strip (str_nan x))) "po attainment")
          (filter notna r).

(** The header of the mapping table: trimmed texts, the first renamed to
    ["CO"] when it is the anchor [prefix ++ "1"]. *)
Definition normalize_header (prefix : string) (raw_header : row) : list string :=
  let header := map (fun x => strip (str_nan x)) raw_header in
  match header with
  | h0 :: rest => if String.eqb (upper h0) (prefix ++ "1") then "CO" :: rest else header
  | [] => []
  end.

(** The loop [for i in range(header_idx + 1, len(df))] looking for the stop row. *)
Definition find_stop (df : frame) (header_idx : nat) : option nat :=
  option_map (fun k => header_idx + 1 + k)
             (find_index is_po_attainment_row (skipn (header_idx + 1) df)).

(** [data = df.iloc[header_idx + 1 : stop_idx]] if [stop_idx] is truthy,
    [df.iloc[header_idx + 1 :]] otherwise. *)
Definition data_region (df : frame) (header_idx : nat) (stop_idx : option nat) : frame :=
  match stop_idx with
  | Some (S s) => iloc_slice (header_idx + 1) (S s) df
  | _ => skipn (header_idx + 1) df
  end.

(** [~data.iloc[:, 0].astype(str).str.lower().str.startswith("overall co attainment")] *)
Definition not_overall (r : row) : bool :=
  negb (startswith "overall co attainment" (lower (str_nan (hd Absent r)))).

(** Lines 63 to 74: filter, align with the header, fill and round. *)
Definition build_co_table (prefix : string) (header : list string) (data : frame)
  : result table :=
  let data := dropna_rows (filter not_overall data) in
  let data := map (firstn (length header)) data in
  let data := map (map fillna) data in
  match round_numeric_columns header (tl header) data with
  | Ok data => Ok (Table ("Mapping of CO with " ++ prefix ++ "s:") header data)
  | Raise e => Raise e
  end.

Definition co_header_error (sheet_name prefix : string) : error :=
  ValueError ("Could not locate CO‑" ++ prefix ++ " header in '" ++ sheet_name ++ "' sheet.").

(** [extract_co_mapping(xls, sheet_name, prefix)], [df] being the frame
    [pd.read_excel(xls, sheet_name=sheet_name, header=None)]. *)
Definition extract_co_mapping (df : frame) (sheet_name prefix : string) : result table :=
  let df := dropna_columns df in
  match find_index (is_co_header prefix) df with
  | None => Raise (co_header_error sheet_name prefix)
  | Some header_idx =>
      let raw_header := nth header_idx df [] in
      let header := normalize_header prefix raw_header in
      let stop_idx := find_stop df header_idx in
      build_co_table prefix header (data_region df header_idx stop_idx)
  end.

(** ** extract_co_pso_mapping *)

(** The test of the header loop of [extract_co_pso_mapping]. *)
Definition is_co_pso_header (r : row) : bool :=
  match vals r with
  | v0 :: v1 :: rest =>
      startswith "course outcomes" (lower v0)
      && existsb (fun x => contains "ps" (lower x)) (v1 :: rest)
  | _ => false
  end.

(** [header[0] = "Course Outcomes"] *)
Definition pso_header (raw_header : row) : list string :=
  match map (fun x => strip (str_nan x)) raw_header with
  | _ :: rest => "Course Outcomes" :: rest
  | [] => []
  end.

(** [~data.iloc[:, 0].astype(str).str.strip().str.lower().eq("course")] *)
Definition not_course (r : row) : bool :=
  negb (String.eqb (lower (strip (str_nan (hd Absent r)))) "course").

Definition co_pso_header_error : error :=
  ValueError "Could not locate CO‑PSO header in 'PSO Attainment' sheet.".

(** [extract_co_pso_mapping(xls, sheet_name)], [df] being the frame read from
    the sheet [sheet_name]. *)
Definition extract_co_pso_mapping (df : frame) (sheet_name : string) : result table :=
  let df := dropna_columns df in
  match find_index is_co_pso_header df with
  | None => Raise co_pso_header_error
  | Some header_idx =>
      let raw_header := nth header_idx df [] in
      let header := pso_header raw_header in
      let data := skipn (header_idx + 1) df in
      let data := filter not_course data in
      let data := dropna_rows data in
      let data := map (firstn (length header)) data in
      let data := map (map fillna) data in
      match round_numeric_columns header (tl header) data with
      | Ok data => Ok (Table "Mapping of COs with PSOs:" header data)
      | Raise e => Raise e
      end
  end.

(** ** extract_po_attainment *)

(** One turn of the loop looking for the header below the marker: the row is
    skipped when it starts with "co program" and taken when its first cell is
    "CO" and a later one starts with "PO". *)
Definition is_po_header (r : row) : bool :=
  match map (fun x => strip (str_nan x)) r with
  | [] => false
  | r0 :: rest =>
      if startswith "co program" (lower r0) then false
      else String.eqb (upper r0) "CO"
           && existsb (fun c => startswith "PO" (upper c)) rest
  end.

(** [try: round(float(val), 2) except: val] *)
Definition round_or_keep (c : cell) : cell :=
  match c with
  | Absent => Absent
  | Int z => Float (Num.round2 (Num.of_int z))
  | Float x => Float (Num.round2 x)
  | Text s =>
      match Num.float_of_string s with
      | Some x => Float (Num.round2 x)
      | None => c
      end
  end.

(** [extract_po_attainment(xls, sheet_name)] on the frame read from the sheet;
    [Ok None] is the returned [None]. *)
Definition extract_po_attainment (df : frame) : result (option po_table) :=
  let df := dropna_columns df in
  match find_index is_po_attainment_row df with
  | None => Ok None
  | Some pa_idx =>
      match find_index is_po_header (skipn (pa_idx + 1) df) with
      | None => Ok None
      | Some k =>
          let header_idx := pa_idx + 1 + k in
          let header := filter notna (nth header_idx df []) in
          match nth_error df (header_idx + 1) with
          | None => Raise IndexError
          | Some r =>
              let data_row := map fillna r in
              let rounded_row := map round_or_keep (firstn (length header) data_row) in
              Ok (Some (PoTable "PO Attainment Table:" header [rounded_row]))
          end
      end
  end.

(** ** extract_po_evaluation_table *)

(** [val = str(cell).strip() if pd.notna(cell) else "-"], then [f"{float(val):.2f}"]
    when [float(val)] succeeds. *)
Definition render_value (c : cell) : string :=
  let val := if notna c then strip (str_nan c) else "-" in
  match Num.float_of_string val with
  | Some num => Num.fmt2 num
  | None => val
  end.

(** [[str(cell).strip() for cell in header_row[4:] if pd.notna(cell) and str(cell).strip()]] *)
Definition eval_header (header_row : row) : list string :=
  map (fun c => strip (str_nan c))
      (filter (fun c => notna c && negb (String.eqb (strip (str_nan c)) ""))
              (skipn 4 header_row)).

(** [any("PO Attainment" in cell for cell in row_str)] *)
Definition has_po_attainment_text (r : row) : bool :=
  existsb (fun c => contains "PO Attainment" (strip (str_nan c))) r.

(** The body of the loop at row [i]: [Some] is a [return], [None] lets the loop
    go on. *)
Definition po_eval_at (df : frame) (i : nat) : option (list string * list string) :=
  if has_po_attainment_text (nth i df []) then
    if i + 4 <? length df then
      let header_row := nth (i + 3) df [] in
      let data_row := nth (i + 4) df [] in
      let header := eval_header header_row in
      let data := map render_value (firstn (length header) (skipn 4 data_row)) in
      if (0 <? length header) && (0 <? length data)
      then Some (header, data)
      else None
    else None
  else None.

Fixpoint first_some {A B : Type} (f : A -> option B) (l : list A) : option B :=
  match l with
  | [] => None
  | x :: l' =>
      match f x with
      | Some y => Some y
      | None => first_some f l'
      end
  end.

(** [extract_po_evaluation_table(xls)] on the frame of the sheet
    "CO Attainment" (no column is dropped here). *)
Definition extract_po_evaluation_table (df : frame) : option (list string * list string) :=
  first_some (po_eval_at df) (seq 0 (length df)).

(** ** Summary values (openpyxl rows) *)

(** [extract_target_value(wb)] on the rows of "University TH Marks". *)
Fixpoint extract_target_value (sheet : frame) : string :=
  match sheet with
  | [] => "-"
  | r :: rest =>
      let row_str :=
        map (fun c => match c with Absent => "" | _ => strip (str_none c) end) r in
      if existsb (fun s => contains "number of students scoring >=" (lower s)) row_str
      then
        match find is_number r with
        | Some (Int z) => Num.int_repr z
        | Some (Float x) => Num.fmt2 x
        | _ => extract_target_value rest
        end
      else extract_target_value rest
  end.

(** [row and any(label in str(cell) for cell in row)] *)
Definition row_has_label (label : string) (r : row) : bool :=
  match r with
  | [] => false
  | _ => existsb (fun c => contains label (str_none c)) r
  end.

(** The three scans of [create_word_report] for "Attainment Level",
    "Target Level" and "Final attainment level": the first row with the label,
    its cells in reverse order, the first number; [None] when there is none. *)
Definition attainment_scan (label : string) (sheet : frame) : option cell :=
  match find (row_has_label label) sheet with
  | Some r => find is_number (rev r)
  | None => None
  end.

Definition external_attainment : frame -> option cell := attainment_scan "Attainment Level".
Definition internal_attainment : frame -> option cell := attainment_scan "Target Level".
Definition exit_survey_attainment : frame -> option cell := attainment_scan "Final attainment level".

(** ** The workbook and [read_excel] *)

(** An open spreadsheet file: its named sheets. *)
Definition workbook : Type := list (string * frame).

(** A computation over the spreadsheet handle. *)
Definition io (A : Type) : Type := workbook -> result A * workbook.

(** [pd.read_excel(xls, sheet_name=name, header=None)]: a fresh frame, the
    file is left as it is; a missing sheet raises [ValueError]. *)
Definition pd_read_excel (name : string) : io frame :=
  fun xls =>
    match find (fun p => String.eqb (fst p) name) xls with
    | Some p => (Ok (snd p), xls)
    | None => (Raise (ValueError ("Worksheet named '" ++ name ++ "' not found")), xls)
    end.

Definition io_bind {A B : Type} (m : io A) (f : A -> io B) : io B :=
  fun xls =>
    match m xls with
    | (Ok a, xls') => f a xls'
    | (Raise e, xls') => (Raise e, xls')
    end.

Definition io_lift {A : Type} (r : result A) : io A := fun xls => (r, xls).

Definition co_mapping_io (sheet_name prefix : string) : io table :=
  io_bind (pd_read_excel sheet_name)
          (fun df => io_lift (extract_co_mapping df sheet_name prefix)).

Definition co_pso_mapping_io (sheet_name : string) : io table :=
  io_bind (pd_read_excel sheet_name)
          (fun df => io_lift (extract_co_pso_mapping df sheet_name)).

Definition po_attainment_io (sheet_name : string) : io (option po_table) :=
  io_bind (pd_read_excel sheet_name)
          (fun df => io_lift (extract_po_attainment df)).

(** [read_excel(file_path)]: the three tables, no exception is caught. *)
Definition read_excel : io (table * option po_table * table) :=
  io_bind (co_mapping_io "CO Attainment" "PO") (fun co_po =>
  io_bind (po_attainment_io "CO Attainment") (fun po_att =>
  io_bind (co_mapping_io "PSO Attainment" "PSO") (fun co_pso =>
  io_lift (Ok (co_po, po_att, co_pso))))).

(** ** extract_pso_evaluation_table *)

(** The body of the loop at row [i]: the row has a cell whose trimmed text is
    "Course"; the header is the row from that cell on, absent cells reading
    "nan"; the data are the cells below, rendered as in
    [extract_po_evaluation_table].  [None] lets the loop go on. *)
Definition pso_eval_at (df : frame) (i : nat) : option (list string * list string) :=
  let row_str := map (fun c => strip (str_nan c)) (nth i df []) in
  match find_index (fun cell => String.eqb cell "Course") row_str with
  | Some header_index =>
      let header := skipn header_index row_str in
      if i + 1 <? length df then
        let data_row := nth (i + 1) df [] in
        Some (header,
              map render_value (firstn (length header) (skipn header_index data_row)))
      else None
  | None => None
  end.

(** [extract_pso_evaluation_table(xls)] on the frame of the sheet
    "PSO Attainment". *)
Definition extract_pso_evaluation_table (df : frame) : option (list string * list string) :=
  first_some (pso_eval_at df) (seq 0 (length df)).

(** ** The tables of the report

    A table of the document: its numbers of rows and columns as given to
    [doc.add_table], and the texts written with [table.cell(r, c)], in the
    order of the writes. *)

Record doc_table : Type := DocTable {
  n_rows : nat;
  n_cols : nat;
  cell_writes : list (nat * nat * string)
}.

(** [enumerate(l, start)] with a cell written for each element. *)
Fixpoint row_writes (r : nat) (start : nat) (texts : list string)
  : list (nat * nat * string) :=
  match texts with
  | [] => []
  | t :: texts' => (r, start, t) :: row_writes r (S start) texts'
  end.

(** [for i, row in df.iterrows(): for j, val in enumerate(row): t.cell(i + 2, j).text = str(val)] *)
Fixpoint data_writes (i : nat) (data : frame) : list (nat * nat * string) :=
  match data with
  | [] => []
  | r :: data' => (row_writes (i + 2) 0 (map str_nan r) ++ data_writes (S i) data')%list
  end.

(** The table of a mapping, lines 465 to 497 and 505 to 540: two header rows
    with the merged titles [corner] and [span], the labels of the columns
    after the first, then the data. *)
Definition mapping_doc_table (corner span : string) (t : table) : doc_table :=
  DocTable (length (rows t) + 2) (length (columns t))
           ((0, 0, corner) :: (0, 1, span)
            :: row_writes 1 1 (tl (columns t)) ++ data_writes 0 (rows t))%list.

(** The table of the PSO evaluation, lines 894 to 909: [None] when no table
    is added. *)
Definition pso_eval_doc_table (pso_eval : option (list string * list string))
  : option doc_table :=
  match pso_eval with
  | Some (header, data) =>
      if (0 <? length header) && (0 <? length data)
      then Some (DocTable 2 (length header)
                          (row_writes 0 0 header ++ row_writes 1 0 data)%list)
      else None
  | None => None
  end.

(** Every write addresses a cell of the table. *)
Definition in_bounds (t : doc_table) : Prop :=
  Forall (fun w => fst (fst w) < n_rows t /\ snd (fst w) < n_cols t) (cell_writes t).

(** ** The score rows of the report *)

Module Scores.

(** [scores[:6] + [d] * (6 - len(scores))] *)
Definition pad6 {A : Type} (d : A) (scores : list A) : list A :=
  (firstn 6 scores ++ repeat d (6 - length scores))%list.

(** [cell and isinstance(cell, str) and label in cell] for some cell of the
    row. *)
Definition has_text_label (label : string) (r : row) : bool :=
  existsb (fun c => match c with
                    | Text s => negb (String.eqb s "") && contains label s
                    | _ => false
                    end) r.

(** The scan of "Internal Assessment marks": the numbers of the first row
    that has the label in a text cell and holds a number. *)
Fixpoint internal_scan (sheet : frame) : list cell :=
  match sheet with
  | [] => []
  | r :: rest =>
      if has_text_label "CO Attainment" r then
        match filter is_number r with
        | [] => internal_scan rest
        | scores => scores
        end
      else internal_scan rest
  end.

Definition internal_scores (sheet : frame) : list cell :=
  pad6 (Float (Num.Dec 1 0)) (internal_scan sheet).

(** The scan of "Course Exit survey": the numbers of the first row with the
    label, whatever they are. *)
Definition exit_scan (sheet : frame) : list cell :=
  match find (row_has_label "Attainment level in percentage") sheet with
  | Some r => filter is_number r
  | None => []
  end.

Definition exit_scores (sheet : frame) : list cell :=
  pad6 (Float (Num.Dec 0 0)) (exit_scan sheet).

(** [raw <= 1] and [raw * 100] *)
Definition le_one (x : Num.dec) : bool :=
  (Num.mant x <=? 10 ^ Z.of_nat (Num.scale x))%Z.

Definition times100 (x : Num.dec) : Num.dec :=
  Num.Dec (Num.mant x * 100) (Num.scale x).

(** [raw * 100 if raw <= 1 else raw] *)
Definition percentage (raw : Num.dec) : Num.dec :=
  if le_one raw then times100 raw else raw.

(** The loop over [extracted_values]: the first value for which
    [float(str(val))] succeeds. *)
Fixpoint first_float (values : list cell) : option Num.dec :=
  match values with
  | [] => None
  | val :: values' =>
      match Num.float_of_string (str_none val) with
      | Some raw => Some raw
      | None => first_float values'
      end
  end.

(** The scan of "University TH Marks": six times the percentage read in the
    first labelled row that holds a value [float] accepts. *)
Fixpoint external_scan (sheet : frame) : list Num.dec :=
  match sheet with
  | [] => []
  | r :: rest =>
      if has_text_label "Percentage  of Students scoring >= Target Value" r then
        match first_float (filter notna r) with
        | Some raw => repeat (percentage raw) 6
        | None => external_scan rest
        end
      else external_scan rest
  end.

Definition external_scores (sheet : frame) : list Num.dec :=
  pad6 (Num.Dec 0 0) (external_scan sheet).

End Scores.

(** ** The faculty table of the report *)

Module Faculty.

Definition keywords : list string :=
  ["Faculty Name"; "A.Y"; "Subject Name"; "Sub.Code"; "Sem"; "Class"].

(** The dictionary [faculty_info]. *)
Definition dict : Type := string -> option string.

Definition empty : dict := fun _ => None.

(** [d[k] = v] *)
Definition dict_set (k v : string) (d : dict) : dict :=
  fun k' => if String.eqb k' k then Some v else d k'.

(** [d.setdefault(k, v)] *)
Definition setdefault (k v : string) (d : dict) : dict :=
  match d k with
  | Some _ => d
  | None => dict_set k v d
  end.

(** [[str(cell).strip() if cell is not None else "" for cell in row]] *)
Definition row_texts (r : row) : list string :=
  map (fun c => match c with
                | Absent => ""
                | _ => strip (str_none c)
                end) r.

(** [for i, cell in enumerate(row)]: a keyword with a cell to its right sets
    the entry of the keyword to the trimmed text of that cell. *)
Fixpoint scan_cells (texts : list string) (info : dict) : dict :=
  match texts with
  | [] => info
  | cell :: rest =>
      scan_cells rest
        (match rest with
         | next :: _ =>
             if existsb (String.eqb cell) keywords
             then dict_set cell (strip next) info
             else info
         | [] => info
         end)
  end.

Definition scan_sheet (sheet : frame) (info : dict) : dict :=
  fold_left (fun d r => scan_cells (row_texts r) d) sheet info.

(** Lines 241 to 255: all the sheets in order, then the defaults. *)
Definition faculty_info (wb : workbook) : dict :=
  fold_left (fun d key => setdefault key "" d) keywords
            (fold_left (fun d sh => scan_sheet (snd sh) d) wb empty).

(** The keywords met with a cell to their right, in the order of the row, each
    with the trimmed text of that cell. *)
Fixpoint row_hits (texts : list string) : list (string * string) :=
  match texts with
  | [] => []
  | cell :: rest =>
      match rest with
      | next :: _ =>
          if existsb (String.eqb cell) keywords
          then (cell, strip next) :: row_hits rest
          else row_hits rest
      | [] => []
      end
  end.

(** All of them, sheet after sheet and row after row. *)
Definition all_hits (wb : workbook) : list (string * string) :=
  flat_map (fun sh => flat_map (fun r => row_hits (row_texts r)) (snd sh)) wb.

(** The dictionary after the hits were written to it one after the other. *)
Definition apply_hits (hits : list (string * string)) (d : dict) : dict :=
  fold_left (fun d h => dict_set (fst h) (snd h) d) hits d.

(** The value of the last hit of a keyword, the empty text without one. *)
Definition last_hit (key : string) (hits : list (string * string)) : string :=
  match find (fun h => String.eqb (fst h) key) (rev hits) with
  | Some h => snd h
  | None => ""
  end.

End Faculty.

(** ** The target value from the workbook *)

(** [extract_target_value(wb)] with its [try]: a workbook without the sheet
    "University TH Marks" gives "-". *)
Definition target_value (wb : workbook) : string :=
  match find (fun p => String.eqb (fst p) "University TH Marks") wb with
  | Some p => extract_target_value (snd p)
  | None => "-"
  end.

(** ** The remark of the report *)

Module Remarks.

(** [x >= 3] *)
Definition at_least_three (x : Num.dec) : bool :=
  (3 * 10 ^ Z.of_nat (Num.scale x) <=? Num.mant x)%Z.

(** [try: float(exit_survey_attainment) except: 0]: the value is a number of
    the sheet or [None]. *)
Definition final_co_attainment (exit_survey_attainment : option cell) : Num.dec :=
  match exit_survey_attainment with
  | Some (Int z) => Num.of_int z
  | Some (Float x) => x
  | _ => Num.Dec 0 0
  end.

(** Lines 923 to 936. *)
Definition remark_text (exit_survey_attainment : option cell) : string :=
  if at_least_three (final_co_attainment exit_survey_attainment)
  then "Target is Achieved."
  else "Target is not Achieved.".

(** The remark for the sheet "Course Exit survey". *)
Definition remark_of_sheet (sheet : frame) : string :=
  remark_text (exit_survey_attainment sheet).

End Remarks.

(** ** Example sheets *)

(** The scenario of the specification: header at row 2, data rows 3 to 5,
    the stop marker at row 6. *)
Definition scenario : frame :=
  [ [Text "Course"; Absent; Absent];
    [Absent; Absent; Absent];
    [Text "CO"; Text "PO1"; Text "PO2"];
    [Text "CO1"; Float (Num.Dec 3333 3); Text "x"];
    [Text "CO2"; Text "-"; Float (Num.Dec 2667 3)];
    [Text "Overall CO Attainment: 3.0"; Absent; Absent];
    [Text "PO Attainment"; Absent; Absent] ].

(** A mapping table narrower than the summary table below it: the header row
    of the mapping has no value in the last two columns. *)
Definition narrow_header_sheet : frame :=
  [ [Text "CO"; Text "PO1"; Absent; Absent];
    [Text "CO1"; Int 3; Absent; Absent];
    [Text "PO Attainment"; Absent; Absent; Absent];
    [Text "CO"; Text "PO1"; Text "PO2"; Text "PO3"];
    [Text "CO1"; Float (Num.Dec 25 1); Float (Num.Dec 20 1); Float (Num.Dec 15 1)] ].

(** The same with a data region holding only rows that are filtered out. *)
Definition narrow_empty_sheet : frame :=
  [ [Text "CO"; Text "PO1"; Absent; Absent];
    [Text "Overall CO Attainment : 2.8"; Absent; Absent; Absent];
    [Absent; Absent; Absent; Absent];
    [Text "PO Attainment"; Absent; Absent; Absent];
    [Text "CO"; Text "PO1"; Text "PO2"; Text "PO3"] ].

(** A header followed only by rows that are filtered out. *)
Definition empty_region_sheet : frame :=
  [ [Text "CO"; Text "PO1"; Text "PO2"];
    [Text "Overall CO Attainment : 2.8"; Absent; Absent];
    [Absent; Absent; Absent];
    [Text "PO Attainment"; Absent; Absent] ].

(** The summary row with a blank before its text. *)
Definition padded_overall_sheet : frame :=
  [ [Text "CO"; Text "PO1"];
    [Text "CO1"; Int 3];
    [Text " Overall CO Attainment : 2.8"; Absent] ].

(** The PO-attainment header as the last row of the sheet. *)
Definition po_header_last_sheet : frame :=
  [ [Text "PO Attainment"; Absent];
    [Text "CO"; Text "PO1"] ].

(** A sheet of the PSO kind. *)
Definition pso_sheet : frame :=
  [ [Text "Course Outcomes"; Text "PSO1"; Text "PSO2"];
    [Text "CO1"; Int 3; Float (Num.Dec 2456 3)];
    [Text "Course"; Text "PSO1"; Text "PSO2"];
    [Text " course "; Int 1; Int 2];
    [Absent; Absent; Absent];
    [Text "CO2"; Text "n/a"; Absent] ].

(** The scenario of the PO evaluation table: the marker at row 10, the header
    at row 13 and the data at row 14. *)
Definition po_eval_sheet : frame :=
  (repeat [Absent; Absent; Absent; Absent; Absent; Absent] 10 ++
   [ [Text "PO Attainment"; Absent; Absent; Absent; Absent; Absent];
     [Absent; Absent; Absent; Absent; Absent; Absent];
     [Absent; Absent; Absent; Absent; Absent; Absent];
     [Text "CO"; Text ""; Text ""; Text ""; Text "PO1"; Text "PO2"];
     [Text "CO1"; Text ""; Text ""; Text ""; Float (Num.Dec 750 1); Float (Num.Dec 800 1)] ])%list.

(** A marker row whose header row, three rows below, has nothing from column
    4 on. *)
Definition po_eval_blank_sheet : frame :=
  [ [Text "PO Attainment"; Absent; Absent; Absent; Absent; Absent];
    [Absent; Absent; Absent; Absent; Absent; Absent];
    [Absent; Absent; Absent; Absent; Absent; Absent];
    [Text "CO"; Absent; Absent; Absent; Absent; Absent];
    [Text "CO1"; Absent; Absent; Absent; Float (Num.Dec 750 1); Float (Num.Dec 800 1)] ].

(** Two marker rows, each with a header and a data row in the sheet. *)
Definition po_eval_twice_sheet : frame :=
  [ [Text "PO Attainment"; Absent; Absent; Absent; Absent];
    [Text "Direct PO Attainment"; Absent; Absent; Absent; Absent];
    [Absent; Absent; Absent; Absent; Absent];
    [Text "CO"; Absent; Absent; Absent; Text "PO1"];
    [Text "CO1"; Absent; Absent; Absent; Text "PO2"];
    [Text "CO2"; Absent; Absent; Absent; Int 3] ].

(** The summary row of the specification's scenario, and a row with the label
    in lower case and two numbers. *)
Definition target_sheet : frame :=
  [ [Text "Number of students scoring >= Target Value"; Int 42; Text "ignored"] ].

Definition target_two_numbers_sheet : frame :=
  [ [Text "number of students scoring >= 40"; Int 1; Int 2] ].

(** A labelled row without a number above a labelled row with one. *)
Definition target_later_sheet : frame :=
  [ [Text "number of students scoring >= 40"; Text "n/a"];
    [Text "number of students scoring >= 40"; Int 5] ].

(** A labelled row whose last cell is a numeric text. *)
Definition text_number_sheet : frame :=
  [ [Text "Attainment Level"; Int 3; Text "2.5"] ].

Definition attainment_sheet : frame :=
  [ [Text "CO"; Int 1; Absent];
    [Text "Attainment Level"; Int 3; Float (Num.Dec 25 1); Text "ignored"; Absent];
    [Text "Attainment Level"; Int 7] ].

(** Score rows: a labelled row without a number above a labelled row with
    numbers. *)
Definition internal_sheet : frame :=
  [ [Text "CO Attainment"; Absent; Text "n/a"];
    [Text "Average CO Attainment"; Float (Num.Dec 8 1); Int 1; Text "x"];
    [Text "CO Attainment"; Int 7] ].

Definition exit_sheet : frame :=
  [ [Text "Question"; Int 5];
    [Text "Attainment level in percentage"; Absent];
    [Text "Attainment level in percentage"; Float (Num.Dec 80 0)] ].


(** A workbook for the faculty table: "Sem" is met twice and "Class" only in
    the last cell of a row. *)
Definition faculty_workbook : workbook :=
  [ ("Info", [ [Text "Faculty Name"; Text " A. Teacher "; Text "Sem"; Int 5];
               [Text "Class"; Absent];
               [Absent; Text "Class"] ]);
    ("Marks", [ [Text "Sem"; Text "VI"; Text "Faculty name"; Text "x"] ]) ].

(** An exit survey whose final level is 3.0, after a row that only looks
    like the labelled one. *)
Definition survey_sheet : frame :=
  [ [Text "final attainment level"; Int 1];
    [Text "Final attainment level"; Int 2; Float (Num.Dec 30 1); Text "of 3"] ].

(** A mapping with a column that holds integers only, beside a column with a
    float and a gap. *)
Definition integer_column_sheet : frame :=
  [ [Text "CO"; Text "PO1"; Text "PO2"];
    [Text "CO1"; Int 3; Float (Num.Dec 25 1)];
    [Text "CO2"; Int 1; Absent] ].

(** A header row that begins with a cell holding one blank. *)
Definition blank_first_sheet : frame :=
  [ [Text " "; Text "CO"; Text "PO1"];
    [Text "CO1"; Int 3; Float (Num.Dec 25 1)] ].

(** A workbook with the two sheets [read_excel] reads. *)
Definition report_workbook : workbook :=
  [ ("CO Attainment", scenario);
    ("PSO Attainment",
     [ [Text "CO"; Text "PSO1"; Text "PSO2"];
       [Text "CO1"; Int 3; Float (Num.Dec 2456 3)] ]) ].

(** ** The rows that are kept

    The row filters of the two mapping extractors, each as one predicate. *)

(** The rows [extract_co_mapping] keeps from the data region: the first cell,
    as text and in lower case, does not start with "overall co attainment", and
    some cell is not absent. *)
Definition kept_co_rows (data : frame) : frame :=
  filter (fun r => not_overall r && existsb notna r) data.

(** The rows [extract_co_pso_mapping] keeps: the first cell, trimmed and in
    lower case, is not "course", and some cell is not absent. *)
Definition kept_pso_rows (data : frame) : frame :=
  filter (fun r => not_course r && existsb notna r) data.

(** ** The fill-and-round loop as one function

    Lines 68 to 72 of [extract_co_mapping] (106 to 112 of
    [extract_co_pso_mapping]) when the labels are distinct: the first value of
    a row is filled, the value at a later position [j] is converted with the
    dtype of column [j]. *)

Fixpoint mapi_from {A B : Type} (f : nat -> A -> B) (j : nat) (l : list A) : list B :=
  match l with
  | [] => []
  | x :: l' => f j x :: mapi_from f (S j) l'
  end.

Definition mapi {A B : Type} (f : nat -> A -> B) : list A -> list B := mapi_from f 0.

Definition fill_round_row (int64 : nat -> bool) (r : row) : row :=
  mapi (fun j c => if j =? 0 then fillna c else round_fill (int64 j) c) r.

Definition fill_round (data : frame) : frame :=
  map (fill_round_row (fun j => is_int64 (column j data))) data.

(** ** The specification's words

    Definitions that follow the wording of the specification, to be compared
    with the functions above. *)

Module Spec.

(** The rows of [df] whose index lies strictly between [a] and [b]. *)
Definition rows_between (df : frame) (a b : nat) : frame :=
  map (fun i => nth i df []) (seq (a + 1) (b - a - 1)).

(** A row containing a cell equal, trimmed and case-insensitively, to
    "po attainment". *)
Definition stop_row (r : row) : bool :=
  existsb (fun c => String.eqb (lower (strip (str_nan c))) (lower "PO Attainment")) r.

(** Case-insensitive equality and prefix test. *)
Definition ci_eqb (a b : string) : bool := String.eqb (lower a) (lower b).
Definition ci_startswith (p s : string) : bool := startswith (lower p) (lower s).

(** The non-empty trimmed texts of the cells of a row. *)
Definition nonempty_trimmed (r : row) : list string :=
  filter (fun s => negb (String.eqb s ""))
         (map (fun c => strip (str_nan c)) (filter notna r)).

(** The first non-empty trimmed cell equals, case-insensitively, "CO" or the
    prefix followed by "1", and the second starts, case-insensitively, with the
    prefix. *)
Definition header_row (prefix : string) (r : row) : bool :=
  match nonempty_trimmed r with
  | v0 :: v1 :: _ =>
      (ci_eqb v0 "CO" || ci_eqb v0 (prefix ++ "1")) && ci_startswith prefix v1
  | _ => false
  end.

(** The same test on the first two cells that are not absent: a cell that
    holds white space only counts as a cell, with the empty text as its
    trimmed text. *)
Definition header_cells (prefix : string) (r : row) : bool :=
  match filter notna r with
  | c0 :: c1 :: _ =>
      (ci_eqb (strip (str_nan c0)) "CO" || ci_eqb (strip (str_nan c0)) (prefix ++ "1"))
      && ci_startswith prefix (strip (str_nan c1))
  | _ => false
  end.

(** A cell that is not absent and whose trimmed text is empty. *)
Definition blank (c : cell) : bool :=
  notna c && String.eqb (strip (str_nan c)) "".

Definition no_blank (r : row) : bool := forallb (fun c => negb (blank c)) r.

(** A cell parsed as a floating-point number; [None] when it is absent or not
    numeric. *)
Definition parse_cell (c : cell) : option Num.dec :=
  match c with
  | Absent => None
  | Int z => Some (Num.of_int z)
  | Float x => Some x
  | Text s => Num.float_of_string s
  end.

(** The value of a cell of a numeric column by the cell-by-cell rule of the
    claim: rounded to 2 decimal places when it parses, the sentinel "-"
    otherwise. *)
Definition coerce (c : cell) : cell :=
  match parse_cell c with
  | Some x => Float (Num.round2 x)
  | None => Text "-"
  end.

(** A value of a numeric column as the claim has it: the sentinel or a float
    rounded to 2 decimal places. *)
Definition rounded_or_dash (v : cell) : Prop :=
  v = Text "-" \/ exists x, v = Float (Num.round2 x).

(** [y] is [x] rounded to 2 decimal places: [100 * y] is an integer and [y] is
    at most 0.005 away from [x]. *)
Definition rounds_to (x y : Num.dec) : Prop :=
  Num.two_places y /\ Num.within_half_cent x y.

(** A value of a numeric column: the sentinel, an integer, or a float with
    2 decimal places. *)
Definition number_or_dash (v : cell) : Prop :=
  v = Text "-" \/ (exists z, v = Int z) \/ exists y, v = Float y /\ Num.two_places y.

(** The integer a cell holds: the cell is an integer or the text of one. *)
Definition integer_cell (c : cell) : option Z :=
  match c with
  | Int z => Some z
  | Text s => Num.int_of_string s
  | _ => None
  end.

(** A column all of whose cells hold integers. *)
Definition integer_column (cells : list cell) : bool :=
  forallb (fun c => match integer_cell c with Some _ => true | None => false end) cells.

(** [v] is the value of the cell [c] of a numeric column with the cells
    [cells]: in a column of integers the integer of the cell; in any other
    column the cell parsed as a floating-point number and rounded to 2 decimal
    places, the sentinel when it does not parse. *)
Definition coerced (cells : list cell) (c v : cell) : Prop :=
  if integer_column cells
  then exists z, integer_cell c = Some z /\ v = Int z
  else match parse_cell c with
       | Some x => exists y, v = Float y /\ rounds_to x y
       | None => v = Text "-"
       end.

Definition is_empty {A : Type} (l : list A) : bool :=
  match l with
  | [] => true
  | _ => false
  end.

(** Row [i] has a cell whose text contains "PO Attainment". *)
Definition marker_row (df : frame) (i : nat) : bool :=
  existsb (fun c => contains "PO Attainment" (strip (str_nan c))) (nth i df []).

(** Row [i] is a marker row, row [i + 4] is within the sheet and row [i + 3]
    has a non-empty trimmed cell from column 4 on. *)
Definition qualifies (df : frame) (i : nat) : bool :=
  marker_row df i && (i + 4 <? length df)
  && negb (is_empty (nonempty_trimmed (skipn 4 (nth (i + 3) df [])))).

Fixpoint all_chars (p : ascii -> bool) (s : string) : bool :=
  match s with
  | EmptyString => true
  | String c s' => p c && all_chars p s'
  end.

(** A text with exactly 2 decimal places: a sign and digits, the point, two
    digits. *)
Definition two_decimals (s : string) : Prop :=
  exists a d1 d2,
    s = (a ++ "." ++ String d1 (String d2 ""))%string /\
    a <> ""%string /\
    all_chars (fun c => is_digit c || Ascii.eqb c "-") a = true /\
    is_digit d1 = true /\ is_digit d2 = true.

(** The row has a cell whose text contains the label, case-sensitively. *)
Definition has_label (label : string) (r : row) : bool :=
  existsb (fun c => contains label (str_none c)) r.

(** The cell parses as a number: it is a number or a numeric text. *)
Definition parses (c : cell) : bool :=
  match parse_cell c with
  | Some _ => true
  | None => false
  end.

(** The labelled value as the specification words it: the first row with the
    label, its cells in reverse order, the first cell that is [numeric]. *)
Definition labeled_value (numeric : cell -> bool) (label : string) (sheet : frame)
  : option cell :=
  match find (has_label label) sheet with
  | Some r => find numeric (rev r)
  | None => None
  end.

(** [r] is the first row of the sheet that satisfies [p]. *)
Definition first_row_with (p : row -> bool) (sheet : frame) (r : row) : Prop :=
  exists pre post,
    sheet = (pre ++ r :: post)%list /\ p r = true /\ forall r', In r' pre -> p r' = false.

(** [v] is the last, respectively the first, number of the row. *)
Definition last_number (r : row) (v : cell) : Prop :=
  exists a b, r = (a ++ v :: b)%list /\ is_number v = true /\
              forall c, In c b -> is_number c = false.

Definition first_number (r : row) (v : cell) : Prop :=
  exists a b, r = (a ++ v :: b)%list /\ is_number v = true /\
              forall c, In c a -> is_number c = false.

Definition no_number (r : row) : Prop :=
  forall c, In c r -> is_number c = false.

(** The row has a cell whose trimmed text contains, in any letter case,
    "number of students scoring >=". *)
Definition has_target_label (r : row) : bool :=
  existsb (fun c => notna c
                    && contains "number of students scoring >=" (lower (strip (str_none c)))) r.

(** The text of the target value: an integer as it is, a float with 2
    decimal places. *)
Definition target_text (v : cell) : string :=
  match v with
  | Int z => Num.int_repr z
  | Float x => Num.fmt2 x
  | _ => "-"
  end.


(** A pandas frame is rectangular. *)
Definition rect (df : frame) : Prop :=
  exists w, Forall (fun r => length r = w) df.

End Spec.

(** * Properties *)

Open Scope list_scope.

(** ** Lists *)

Section Lists.

Context {A : Type}.
Variable p : A -> bool.
Variable d : A.

Lemma find_index_some (l : list A) (i : nat) :
  find_index p l = Some i ->
  i < length l /\ p (nth i l d) = true /\ forall j, j < i -> p (nth j l d) = false.
Proof.
  revert i; induction l as [|x l IH]; intros i H; simpl in H; [discriminate|].
  destruct (p x) eqn:Hx.
  - injection H as <-. simpl. repeat split; [lia|assumption|intros j Hj; lia].
  - destruct (find_index p l) as [k|] eqn:Hk; simpl in H; [|discriminate].
    injection H as <-. destruct (IH k eq_refl) as (Hlt & Hp & Hlo).
    simpl. repeat split; [lia|assumption|].
    intros [|j] Hj; [assumption|apply Hlo; lia].
Qed.

Lemma find_index_none (l : list A) :
  find_index p l = None -> forall x, In x l -> p x = false.
Proof.
  induction l as [|x l IH]; intros H y Hy; [destruct Hy|].
  simpl in H. destruct (p x) eqn:Hx; [discriminate|].
  destruct (find_index p l); [discriminate|].
  destruct Hy as [<-|Hy]; [assumption|now apply IH].
Qed.

Lemma find_index_first (l : list A) (i : nat) :
  i < length l -> p (nth i l d) = true ->
  (forall j, j < i -> p (nth j l d) = false) ->
  find_index p l = Some i.
Proof.
  revert i; induction l as [|x l IH]; intros i Hi Hp Hlo; simpl in Hi; [lia|].
  destruct i as [|i]; simpl in *.
  - now rewrite Hp.
  - pose proof (Hlo 0 ltac:(lia)) as H0. simpl in H0. rewrite H0.
    rewrite (IH i); [reflexivity|lia|assumption|].
    intros j Hj. apply (Hlo (S j)). lia.
Qed.

Lemma find_index_all_false (l : list A) :
  (forall j, j < length l -> p (nth j l d) = false) -> find_index p l = None.
Proof.
  induction l as [|x l IH]; intros H; [reflexivity|].
  pose proof (H 0 ltac:(simpl; lia)) as H0. simpl in H0. simpl. rewrite H0.
  rewrite IH; [reflexivity|]. intros j Hj. apply (H (S j)). simpl; lia.
Qed.

Lemma firstn_skipn_seq (l : list A) (a n : nat) :
  a + n <= length l ->
  firstn n (skipn a l) = map (fun i => nth i l d) (seq a n).
Proof.
  revert a l; induction n as [|n IH]; intros a l H; [reflexivity|].
  simpl seq. simpl map.
  destruct (skipn a l) as [|x t] eqn:E.
  - assert (length (skipn a l) = 0) by now rewrite E.
    rewrite length_skipn in H0. lia.
  - simpl. f_equal.
    + rewrite <- (firstn_skipn a l) at 1. rewrite E.
      rewrite app_nth2; rewrite length_firstn; [|lia].
      replace (a - Nat.min a (length l)) with 0 by lia. reflexivity.
    + rewrite <- IH by lia.
      f_equal. replace (S a) with (1 + a) by lia.
      rewrite <- skipn_skipn. now rewrite E.
Qed.

Lemma skipn_seq (l : list A) (a : nat) :
  skipn a l = map (fun i => nth i l d) (seq a (length l - a)).
Proof.
  destruct (Nat.le_gt_cases a (length l)) as [H|H].
  - rewrite <- firstn_skipn_seq by lia.
    rewrite firstn_all2; [reflexivity|]. rewrite length_skipn. lia.
  - replace (length l - a) with 0 by lia. simpl.
    apply skipn_all2. lia.
Qed.

Lemma nth_skipn (l : list A) (a i : nat) :
  nth i (skipn a l) d = nth (a + i) l d.
Proof.
  revert l; induction a as [|a IH]; intros l; [reflexivity|].
  destruct l as [|x l]; simpl; [now destruct i|apply IH].
Qed.

End Lists.

(** ** The data region of [extract_co_mapping] *)

Lemma stop_row_spec (r : row) :
  Spec.stop_row r = is_po_attainment_row r.
Proof.
  unfold Spec.stop_row, is_po_attainment_row.
  induction r as [|c r IH]; [reflexivity|].
  destruct c; simpl; rewrite IH; reflexivity.
Qed.

Lemma find_stop_some (df : frame) (h s : nat) :
  h < s < length df ->
  is_po_attainment_row (nth s df []) = true ->
  (forall j, h < j < s -> is_po_attainment_row (nth j df []) = false) ->
  find_stop df h = Some s.
Proof.
  intros Hs Hp Hlo. unfold find_stop.
  rewrite (find_index_first is_po_attainment_row ([] : row) _ (s - (h + 1))).
  - simpl. f_equal. lia.
  - rewrite length_skipn. lia.
  - rewrite nth_skipn. now replace (h + 1 + (s - (h + 1))) with s by lia.
  - intros j Hj. rewrite nth_skipn. apply Hlo. lia.
Qed.

Lemma find_stop_none (df : frame) (h : nat) :
  (forall j, h < j < length df -> is_po_attainment_row (nth j df []) = false) ->
  find_stop df h = None.
Proof.
  intros Hlo. unfold find_stop.
  rewrite (find_index_all_false is_po_attainment_row ([] : row)); [reflexivity|].
  intros j Hj. rewrite length_skipn in Hj. rewrite nth_skipn. apply Hlo. lia.
Qed.

(** The stop index is never the falsy [0]. *)
Lemma find_stop_positive (df : frame) (h s : nat) :
  find_stop df h = Some s -> h < s < length df.
Proof.
  unfold find_stop. intros H.
  destruct (find_index _ _) as [k|] eqn:E; [|discriminate].
  injection H as <-.
  apply (find_index_some _ ([] : row)) in E. destruct E as (Hk & _).
  rewrite length_skipn in Hk. lia.
Qed.

Lemma dropna_rows_blank (region blank : frame) :
  Forall (fun r => existsb notna r = false) blank ->
  dropna_rows (filter not_overall (region ++ blank))
  = dropna_rows (filter not_overall region).
Proof.
  intros Hblank. unfold dropna_rows. rewrite !filter_app.
  replace (filter (existsb notna) (filter not_overall blank)) with ([] : frame);
    [apply app_nil_r|].
  induction Hblank as [|r l Hr _ IH]; [reflexivity|].
  simpl. destruct (not_overall r); [simpl; rewrite Hr|]; exact IH.
Qed.

(** C2. When [extract_co_mapping] finds a header row [h], the data it builds
    the table from are the rows strictly between [h] and the first later row
    [s] that contains a cell equal, trimmed and case-insensitively, to
    "po attainment"; without such a row they are all the rows after [h] up to
    the end of the sheet, and since rows without any value are filtered out,
    the rows without value at the end of the region count for nothing: the
    table ends with the last row that has a value. *)
Theorem c2_data_region :
  forall (df : frame) (sheet_name prefix : string) (h : nat),
    let df' := dropna_columns df in
    let header := normalize_header prefix (nth h df' []) in
    find_index (is_co_header prefix) df' = Some h ->
    (forall s,
        h < s < length df' ->
        Spec.stop_row (nth s df' []) = true ->
        (forall j, h < j < s -> Spec.stop_row (nth j df' []) = false) ->
        extract_co_mapping df sheet_name prefix
        = build_co_table prefix header (Spec.rows_between df' h s))
    /\
    ((forall j, h < j < length df' -> Spec.stop_row (nth j df' []) = false) ->
        extract_co_mapping df sheet_name prefix
        = build_co_table prefix header (Spec.rows_between df' h (length df')))
    /\
    (forall region blank : frame,
        Forall (fun r => existsb notna r = false) blank ->
        build_co_table prefix header (region ++ blank)
        = build_co_table prefix header region).
Proof.
  intros df sheet_name prefix h df' header Hh. split; [|split].
  - intros s Hs Hstop Hlo.
    unfold extract_co_mapping. fold df'. rewrite Hh.
    rewrite (find_stop_some df' h s Hs).
    + fold header. f_equal. unfold data_region, Spec.rows_between.
      destruct s as [|s]; [lia|]. unfold iloc_slice.
      rewrite (firstn_skipn_seq ([] : row)) by lia.
      f_equal. f_equal. lia.
    + now rewrite <- stop_row_spec.
    + intros j Hj. rewrite <- stop_row_spec. now apply Hlo.
  - intros Hlo.
    unfold extract_co_mapping. fold df'. rewrite Hh.
    rewrite (find_stop_none df' h).
    + fold header. f_equal. unfold data_region, Spec.rows_between.
      rewrite (skipn_seq ([] : row)). f_equal. f_equal. lia.
    + intros j Hj. rewrite <- stop_row_spec. now apply Hlo.
  - intros region blank Hblank. unfold build_co_table.
    now rewrite dropna_rows_blank.
Qed.

(** ** Letter case *)

Ltac ascii_cases c := destruct c as [[] [] [] [] [] [] [] []].

Lemma lower_upper_char (c : ascii) : lower_char (upper_char c) = lower_char c.
Proof. ascii_cases c; reflexivity. Qed.

Lemma upper_lower_char (c : ascii) : upper_char (lower_char c) = upper_char c.
Proof. ascii_cases c; reflexivity. Qed.

Lemma upper_char_fixed (c : ascii) : is_lower c = false -> upper_char c = c.
Proof. unfold upper_char. now intros ->. Qed.

Lemma lower_upper (s : string) : lower (upper s) = lower s.
Proof.
  induction s as [|c s IH]; [reflexivity|].
  cbn. now rewrite lower_upper_char; f_equal.
Qed.

Lemma upper_lower (s : string) : upper (lower s) = upper s.
Proof.
  induction s as [|c s IH]; [reflexivity|].
  cbn. now rewrite upper_lower_char; f_equal.
Qed.

Lemma upper_fixed (s : string) : no_lower s = true -> upper s = s.
Proof.
  induction s as [|c s IH]; [reflexivity|].
  cbn. intros H. apply andb_prop in H as [Hc Hs].
  apply negb_true_iff in Hc.
  rewrite upper_char_fixed by assumption. f_equal. now apply IH.
Qed.

Lemma no_lower_app (a b : string) :
  no_lower (a ++ b)%string = no_lower a && no_lower b.
Proof.
  induction a as [|c a IH]; [reflexivity|].
  cbn. rewrite IH. now rewrite andb_assoc.
Qed.

(** Comparing the upper-cased text with a constant without lower-case letters
    is comparing case-insensitively. *)
Lemma eqb_upper_ci (v k : string) :
  no_lower k = true -> String.eqb (upper v) k = Spec.ci_eqb v k.
Proof.
  intros Hk. unfold Spec.ci_eqb.
  destruct (String.eqb_spec (upper v) k) as [E|E];
    destruct (String.eqb_spec (lower v) (lower k)) as [F|F]; try reflexivity.
  - exfalso. apply F. rewrite <- E. symmetry. apply lower_upper.
  - exfalso. apply E. rewrite <- (upper_fixed k Hk).
    rewrite <- (upper_lower v), <- (upper_lower k). now f_equal.
Qed.

Lemma char_upper_ci (a b : ascii) :
  is_lower a = false -> (a = upper_char b <-> lower_char a = lower_char b).
Proof.
  intros Ha. split.
  - intros ->. apply lower_upper_char.
  - intros H. apply (f_equal upper_char) in H.
    rewrite !upper_lower_char in H. now rewrite upper_char_fixed in H.
Qed.

Lemma startswith_upper_ci (p s : string) :
  no_lower p = true -> startswith p (upper s) = Spec.ci_startswith p s.
Proof.
  unfold Spec.ci_startswith, startswith.
  revert s; induction p as [|a p IH]; intros s Hp; [now destruct s|].
  cbn in Hp. apply andb_prop in Hp as [Ha Hp]. apply negb_true_iff in Ha.
  destruct s as [|b s]; [reflexivity|].
  cbn. pose proof (char_upper_ci a b Ha) as Hab.
  destruct (ascii_dec a (upper_char b)) as [E|E];
    destruct (ascii_dec (lower_char a) (lower_char b)) as [F|F].
  - now apply IH.
  - exfalso. apply F. now apply Hab.
  - exfalso. apply E. now apply Hab.
  - reflexivity.
Qed.

(** ** The header row of [extract_co_mapping] *)

Lemma is_co_header_cells (prefix : string) (r : row) :
  no_lower prefix = true -> is_co_header prefix r = Spec.header_cells prefix r.
Proof.
  intros Hp. unfold is_co_header, Spec.header_cells, vals.
  destruct (filter notna r) as [|c0 [|c1 rest]]; try reflexivity.
  cbn [map].
  rewrite (eqb_upper_ci (strip (str_nan c0)) "CO") by reflexivity.
  rewrite (eqb_upper_ci (strip (str_nan c0)) (prefix ++ "1")).
  - now rewrite startswith_upper_ci.
  - rewrite no_lower_app, Hp. reflexivity.
Qed.

(** In a row without a blank cell the trimmed texts of the cells that are not
    absent are all non-empty. *)
Lemma no_blank_trimmed (r : row) :
  Spec.no_blank r = true ->
  Spec.nonempty_trimmed r = map (fun c => strip (str_nan c)) (filter notna r).
Proof.
  unfold Spec.no_blank, Spec.nonempty_trimmed.
  induction r as [|c r IH]; intros H; [reflexivity|].
  cbn [forallb] in H. apply andb_prop in H as [Hc Hr].
  cbn [filter]. destruct (notna c) eqn:Ec; [|now apply IH].
  cbn [map filter]. unfold Spec.blank in Hc. rewrite Ec in Hc. cbn [andb] in Hc.
  rewrite Hc. f_equal. now apply IH.
Qed.

Lemma header_cells_row (prefix : string) (r : row) :
  Spec.no_blank r = true -> Spec.header_cells prefix r = Spec.header_row prefix r.
Proof.
  intros H. unfold Spec.header_cells, Spec.header_row.
  rewrite (no_blank_trimmed r H).
  now destruct (filter notna r) as [|c0 [|c1 rest]].
Qed.

(** C5, amended. For a prefix without lower-case letters (the callers pass
    "PO" and "PSO") the header row of [extract_co_mapping] is the first row,
    after the all-empty columns are dropped, in which the first cell that is
    not absent equals, trimmed and case-insensitively, "CO" or the prefix
    followed by "1" and the second cell that is not absent starts, trimmed and
    case-insensitively, with the prefix; a row that does not satisfy this is
    never chosen, and when no row satisfies it no header is chosen at all.  A
    cell holding white space only counts among these cells; in a row without
    such a cell they are the first and the second non-empty trimmed cell. *)
Theorem c5_header_row :
  forall (df : frame) (sheet_name prefix : string),
    no_lower prefix = true ->
    let df' := dropna_columns df in
    (forall h,
        h < length df' ->
        Spec.header_cells prefix (nth h df' []) = true ->
        (forall j, j < h -> Spec.header_cells prefix (nth j df' []) = false) ->
        find_index (is_co_header prefix) df' = Some h /\
        extract_co_mapping df sheet_name prefix
        = build_co_table prefix (normalize_header prefix (nth h df' []))
                         (data_region df' h (find_stop df' h)))
    /\
    (forall h,
        find_index (is_co_header prefix) df' = Some h ->
        Spec.header_cells prefix (nth h df' []) = true /\
        forall j, j < h -> Spec.header_cells prefix (nth j df' []) = false)
    /\
    ((forall j, j < length df' -> Spec.header_cells prefix (nth j df' []) = false) ->
        extract_co_mapping df sheet_name prefix
        = Raise (co_header_error sheet_name prefix))
    /\
    (forall r, Spec.no_blank r = true ->
               Spec.header_cells prefix r = Spec.header_row prefix r).
Proof.
  intros df sheet_name prefix Hp df'. split; [|split; [|split]].
  - intros h Hlt Hrow Hfirst.
    assert (find_index (is_co_header prefix) df' = Some h) as Hh.
    { apply (find_index_first _ ([] : row)); [assumption| |].
      - now rewrite is_co_header_cells.
      - intros j Hj. rewrite is_co_header_cells by assumption. now apply Hfirst. }
    split; [assumption|].
    unfold extract_co_mapping. fold df'. now rewrite Hh.
  - intros h Hh.
    apply (find_index_some _ ([] : row)) in Hh as (_ & Hrow & Hfirst). split.
    + now rewrite <- is_co_header_cells.
    + intros j Hj. rewrite <- is_co_header_cells by assumption. now apply Hfirst.
  - intros Hnone. unfold extract_co_mapping. fold df'.
    rewrite (find_index_all_false (is_co_header prefix) ([] : row)); [reflexivity|].
    intros j Hj. rewrite is_co_header_cells by assumption. now apply Hnone.
  - intros r. apply header_cells_row.
Qed.

(** ** The rounding loop over the labelled columns *)

Lemma positions_from_length (j : nat) (lbl : string) (cols : list string) :
  length (positions_from j lbl cols) = count_occ string_dec cols lbl.
Proof.
  revert j; induction cols as [|c cols IH]; intros j; [reflexivity|].
  simpl. destruct (String.eqb_spec c lbl) as [E|E];
    destruct (string_dec c lbl) as [F|F]; try contradiction; simpl; now rewrite IH.
Qed.

Lemma positions_from_absent (j : nat) (lbl : string) (cols : list string) :
  ~ In lbl cols -> positions_from j lbl cols = [].
Proof.
  intros H. apply length_zero_iff_nil.
  rewrite positions_from_length. now apply count_occ_not_In.
Qed.

Lemma positions_from_app (j : nat) (lbl : string) (a b : list string) :
  positions_from j lbl (a ++ b)
  = positions_from j lbl a ++ positions_from (j + length a) lbl b.
Proof.
  revert j; induction a as [|c a IH]; intros j; simpl.
  - now rewrite Nat.add_0_r.
  - rewrite IH. replace (S j + length a) with (j + S (length a)) by lia.
    now destruct (String.eqb c lbl).
Qed.

Lemma positions_unique (done todo : list string) (col : string) :
  NoDup (done ++ col :: todo) ->
  positions col (done ++ col :: todo) = [length done].
Proof.
  intros H. unfold positions. rewrite positions_from_app.
  pose proof (NoDup_remove_2 _ _ _ H) as Hnot.
  rewrite positions_from_absent by (intros Hin; apply Hnot, in_or_app; now left).
  simpl. rewrite String.eqb_refl.
  rewrite positions_from_absent by (intros Hin; apply Hnot, in_or_app; now right).
  reflexivity.
Qed.

(** Indexed maps *)

Lemma mapi_from_ext {A B : Type} (f g : nat -> A -> B) (s : nat) (l : list A) :
  (forall j x, s <= j < s + length l -> f j x = g j x) ->
  mapi_from f s l = mapi_from g s l.
Proof.
  revert s; induction l as [|x l IH]; intros s H; [reflexivity|].
  simpl. rewrite (H s x) by (simpl; lia). f_equal.
  apply IH. intros j y Hj. apply H. simpl. lia.
Qed.

Lemma mapi_from_id {A : Type} (s : nat) (l : list A) :
  mapi_from (fun _ x => x) s l = l.
Proof. revert s; induction l as [|x l IH]; intros s; simpl; [|rewrite IH]; reflexivity. Qed.

Lemma mapi_from_map {A B C : Type} (f : nat -> B -> C) (g : A -> B) (s : nat) (l : list A) :
  mapi_from f s (map g l) = mapi_from (fun j x => f j (g x)) s l.
Proof. revert s; induction l as [|x l IH]; intros s; simpl; [|rewrite IH]; reflexivity. Qed.

Lemma mapi_from_mapi_from {A B C : Type} (g : nat -> B -> C) (f : nat -> A -> B)
      (s : nat) (l : list A) :
  mapi_from g s (mapi_from f s l) = mapi_from (fun j x => g j (f j x)) s l.
Proof. revert s; induction l as [|x l IH]; intros s; simpl; [|rewrite IH]; reflexivity. Qed.

Lemma mapi_from_length {A B : Type} (f : nat -> A -> B) (s : nat) (l : list A) :
  length (mapi_from f s l) = length l.
Proof. revert s; induction l as [|x l IH]; intros s; simpl; [|rewrite IH]; reflexivity. Qed.

Lemma nth_mapi_from {A B : Type} (f : nat -> A -> B) (s j : nat) (l : list A) (d : B) (d' : A) :
  j < length l -> nth j (mapi_from f s l) d = f (s + j) (nth j l d').
Proof.
  revert s j; induction l as [|x l IH]; intros s j Hj; [simpl in Hj; lia|].
  destruct j as [|j]; simpl.
  - now rewrite Nat.add_0_r.
  - rewrite IH by (simpl in Hj; lia). f_equal. lia.
Qed.

Lemma nth_mapi_from_beyond {A B : Type} (f : nat -> A -> B) (s j : nat) (l : list A) (d : B) :
  length l <= j -> nth j (mapi_from f s l) d = d.
Proof. intros H. apply nth_overflow. now rewrite mapi_from_length. Qed.

Lemma Forall_mapi_from {A B : Type} (P : B -> Prop) (f : nat -> A -> B) (s : nat) (l : list A) :
  (forall j x, s <= j -> P (f j x)) -> Forall P (mapi_from f s l).
Proof.
  revert s; induction l as [|x l IH]; intros s H; simpl; constructor.
  - now apply H.
  - apply IH. intros j y Hj. apply H. lia.
Qed.

Lemma update_at_mapi_from {A : Type} (f : A -> A) (a s : nat) (r : list A) :
  update_at a f r = mapi_from (fun j x => if j =? s + a then f x else x) s r.
Proof.
  revert a s; induction r as [|x r IH]; intros a s; [now destruct a|].
  destruct a as [|a]; simpl.
  - rewrite Nat.add_0_r, Nat.eqb_refl. f_equal.
    rewrite <- (mapi_from_id (S s) r) at 1. apply mapi_from_ext.
    intros j y Hj. destruct (Nat.eqb_spec j s); [lia|reflexivity].
  - destruct (Nat.eqb_spec s (s + S a)); [lia|]. f_equal.
    rewrite (IH a (S s)). apply mapi_from_ext. intros j y _.
    replace (S s + a) with (s + S a) by lia. reflexivity.
Qed.

Lemma nth_update_at_other {A : Type} (f : A -> A) (a j : nat) (r : list A) (d : A) :
  j <> a -> nth j (update_at a f r) d = nth j r d.
Proof.
  revert a j; induction r as [|x r IH]; intros a j H; [now destruct a|].
  destruct a as [|a], j as [|j]; simpl; try reflexivity; try lia.
  apply IH. lia.
Qed.

Lemma update_at_const {A : Type} (f : A -> A) (a : nat) (r : list A) (d : A) :
  update_at a (fun _ => f (nth a r d)) r = update_at a f r.
Proof.
  revert a; induction r as [|x r IH]; intros a; [now destruct a|].
  destruct a as [|a]; simpl; [reflexivity|]. now rewrite IH.
Qed.

(** Assigning the converted column is a change of one position in each row. *)
Lemma set_column_map (f : cell -> cell) (j : nat) (data : frame) :
  set_column j (map f (column j data)) data = map (update_at j f) data.
Proof.
  unfold set_column, column. induction data as [|r data IH]; [reflexivity|].
  cbn [map combine fst snd]. rewrite IH. f_equal. apply update_at_const.
Qed.

Lemma column_update_other (f : cell -> cell) (a j : nat) (data : frame) :
  j <> a -> column j (map (update_at a f) data) = column j data.
Proof.
  intros H. unfold column. rewrite map_map. apply map_ext.
  intros r. now apply nth_update_at_other.
Qed.

(** With distinct labels, the loop over the labels [todo] that follow [done]
    converts the cells from position [length done] on, each with the dtype of
    its column, and leaves the others. *)
Lemma round_numeric_columns_nodup (done todo : list string) (data : frame) :
  NoDup (done ++ todo) ->
  Forall (fun r => length r <= length (done ++ todo)) data ->
  round_numeric_columns (done ++ todo) todo data
  = Ok (map (mapi (fun j c => if j <? length done then c
                              else round_fill (is_int64 (column j data)) c)) data).
Proof.
  revert done data; induction todo as [|col todo IH]; intros done data Hnd Hlen.
  - simpl. f_equal. rewrite <- (map_id data) at 1.
    apply map_ext_in. intros r Hr.
    rewrite Forall_forall in Hlen. specialize (Hlen r Hr).
    rewrite app_nil_r in Hlen. unfold mapi.
    rewrite <- (mapi_from_id 0 r) at 1. apply mapi_from_ext.
    intros j x Hj. destruct (Nat.ltb_spec j (length done)); [reflexivity|lia].
  - simpl. unfold assign_numeric. rewrite positions_unique by assumption.
    unfold to_numeric_round. rewrite set_column_map.
    replace (done ++ col :: todo) with ((done ++ [col]) ++ todo)
      by (now rewrite <- app_assoc).
    rewrite IH.
    + f_equal. rewrite map_map. apply map_ext. intros r.
      rewrite length_app. simpl. rewrite Nat.add_1_r. unfold mapi.
      rewrite (update_at_mapi_from _ (length done) 0 r), mapi_from_mapi_from.
      apply mapi_from_ext. intros j x _. cbn [Nat.add].
      destruct (Nat.eqb_spec j (length done)) as [->|Hne].
      * rewrite Nat.ltb_irrefl.
        destruct (Nat.ltb_spec (length done) (S (length done))); [reflexivity|lia].
      * destruct (Nat.ltb_spec j (S (length done))), (Nat.ltb_spec j (length done));
          try reflexivity; try lia.
        now rewrite column_update_other.
    + now rewrite <- app_assoc.
    + rewrite <- app_assoc. simpl. rewrite Forall_forall in *.
      intros r Hr. apply in_map_iff in Hr as (r0 & <- & Hr0).
      specialize (Hlen r0 Hr0).
      rewrite (update_at_mapi_from _ (length done) 0 r0), mapi_from_length. assumption.
Qed.

Lemma round_numeric_columns_raise (cols todo : list string) (data : frame) (e : error) :
  round_numeric_columns cols todo data = Raise e -> e = TypeError.
Proof.
  revert data; induction todo as [|col todo IH]; intros data H; simpl in H; [discriminate|].
  unfold assign_numeric in H.
  destruct (positions col cols) as [|j [|j' l]]; try (now injection H).
  now apply IH in H.
Qed.

Lemma round_numeric_columns_single (cols todo : list string) (data data' : frame) :
  round_numeric_columns cols todo data = Ok data' ->
  forall col, In col todo -> count_occ string_dec cols col = 1.
Proof.
  revert data; induction todo as [|c todo IH]; intros data H col Hin; [destruct Hin|].
  simpl in H. unfold assign_numeric in H.
  destruct (positions c cols) as [|j [|j' l]] eqn:E; try discriminate.
  destruct Hin as [<-|Hin].
  - unfold positions in E. rewrite <- positions_from_length with (j := 0). now rewrite E.
  - now apply (IH _ H).
Qed.

Lemma nodup_of_tail_single (cols : list string) :
  (forall col, In col (tl cols) -> count_occ string_dec cols col = 1) -> NoDup cols.
Proof.
  intros H. apply (NoDup_count_occ string_dec). intros x.
  destruct cols as [|c cols]; [simpl; lia|].
  destruct (in_dec string_dec x cols) as [Hin|Hnot].
  - rewrite (H x Hin). lia.
  - simpl. apply (count_occ_not_In string_dec) in Hnot. rewrite Hnot.
    destruct (string_dec c x); lia.
Qed.

Lemma round_numeric_columns_ok (cols : list string) (data : frame) :
  NoDup cols ->
  Forall (fun r => length r <= length cols) data ->
  round_numeric_columns cols (tl cols) data
  = Ok (map (mapi (fun j c => if j <? 1 then c
                              else round_fill (is_int64 (column j data)) c)) data).
Proof.
  intros Hnd Hlen. destruct cols as [|c cols].
  - simpl. f_equal. rewrite <- (map_id data) at 1.
    apply map_ext_in. intros r Hr.
    rewrite Forall_forall in Hlen. specialize (Hlen r Hr).
    destruct r; [reflexivity|simpl in Hlen; lia].
  - apply (round_numeric_columns_nodup [c] cols data); assumption.
Qed.

Lemma round_numeric_columns_dup (cols : list string) (data : frame) :
  ~ NoDup cols -> round_numeric_columns cols (tl cols) data = Raise TypeError.
Proof.
  intros Hdup.
  destruct (round_numeric_columns cols (tl cols) data) as [data'|e] eqn:E.
  - exfalso. apply Hdup, nodup_of_tail_single.
    now apply (round_numeric_columns_single _ _ _ _ E).
  - f_equal. now apply round_numeric_columns_raise in E.
Qed.

(** ** Rounding to two decimal places *)

Lemma round_half_even_bound (n d : Z) :
  (0 < d)%Z -> (2 * Z.abs (n - Num.round_half_even n d * d) <= d)%Z.
Proof.
  intros Hd. unfold Num.round_half_even.
  pose proof (Z.div_mod n d ltac:(lia)) as Hdm.
  pose proof (Z.mod_pos_bound n d Hd) as Hr.
  destruct (Z.ltb_spec (2 * (n mod d)) d);
    [|destruct (Z.ltb_spec d (2 * (n mod d))); [|destruct (Z.even (n / d))]]; nia.
Qed.

Lemma round2_two_places (x : Num.dec) : Num.two_places (Num.round2 x).
Proof.
  unfold Num.two_places, Num.round2.
  destruct (Num.scale x <=? 2); simpl; apply Z.mod_mul; lia.
Qed.

Lemma round2_within_half_cent (x : Num.dec) :
  Num.within_half_cent x (Num.round2 x).
Proof.
  unfold Num.within_half_cent, Num.round2.
  destruct x as [m k]. cbn [Num.mant Num.scale].
  destruct (Nat.leb_spec k 2) as [H|H]; cbn [Num.mant Num.scale].
  - replace (m * 10 ^ Z.of_nat (2 - k) * 10 ^ Z.of_nat k)%Z
      with (m * 10 ^ Z.of_nat 2)%Z.
    + rewrite Z.sub_diag. cbn [Z.abs]. rewrite Z.mul_0_r.
      apply Z.pow_nonneg. lia.
    + rewrite <- Z.mul_assoc, <- Z.pow_add_r by lia.
      do 2 f_equal. lia.
  - set (d := (10 ^ Z.of_nat (k - 2))%Z).
    assert (0 < d)%Z as Hd by (apply Z.pow_pos_nonneg; lia).
    assert (10 ^ Z.of_nat k = 100 * d)%Z as Hk.
    { unfold d. replace (Z.of_nat k) with (2 + Z.of_nat (k - 2))%Z by lia.
      rewrite Z.pow_add_r by lia. reflexivity. }
    replace (Z.of_nat (k + 2)) with (Z.of_nat k + 2)%Z by lia.
    rewrite Z.pow_add_r by lia. rewrite Hk.
    pose proof (round_half_even_bound m d Hd) as Hb.
    change (10 ^ 2)%Z with 100%Z. change (10 ^ Z.of_nat 2)%Z with 100%Z.
    lia.
Qed.

Lemma round2_rounds_to (x : Num.dec) : Spec.rounds_to x (Num.round2 x).
Proof. split; [apply round2_two_places|apply round2_within_half_cent]. Qed.

(** ** The conversion of a column *)

Lemma append_empty (s : string) : (s ++ "")%string = s.
Proof. induction s as [|c s IH]; [reflexivity|]. simpl. now rewrite IH. Qed.

Lemma unsigned_int_float (s : string) (z : Z) :
  Num.unsigned_int s = Some z -> Num.parse_unsigned s = Some (Num.of_int z).
Proof.
  unfold Num.unsigned_int, Num.parse_unsigned.
  destruct (Num.span_digits s) as [[|c d] [|c' r]]; try discriminate.
  intros [= <-]. cbv beta iota zeta. cbn [String.length Nat.add Nat.eqb].
  now rewrite append_empty.
Qed.

(** A text that spells an integer is read by [float] as the float of that
    integer. *)
Lemma int_of_string_float (s : string) (z : Z) :
  Num.int_of_string s = Some z -> Num.float_of_string s = Some (Num.of_int z).
Proof.
  unfold Num.int_of_string, Num.float_of_string.
  destruct (strip s) as [|c r] eqn:E; [discriminate|].
  destruct (Ascii.eqb c "-"); [|destruct (Ascii.eqb c "+")].
  - destruct (Num.unsigned_int r) as [u|] eqn:Eu; [|discriminate].
    intros [= <-]. now rewrite (unsigned_int_float r u Eu).
  - apply unsigned_int_float.
  - apply unsigned_int_float.
Qed.

Lemma to_numeric_integer_cell (c : cell) (z : Z) :
  to_numeric c = AnInt z <-> Spec.integer_cell c = Some z.
Proof.
  destruct c as [|z'|x|s]; simpl; try (split; congruence).
  destruct (Num.int_of_string s), (Num.float_of_string s); split; congruence.
Qed.

Lemma is_int_integer_cell (c : cell) :
  is_int (to_numeric c)
  = match Spec.integer_cell c with Some _ => true | None => false end.
Proof.
  destruct c as [|z|x|s]; simpl; try reflexivity.
  now destruct (Num.int_of_string s), (Num.float_of_string s).
Qed.

Lemma is_int64_integer_column (cells : list cell) :
  is_int64 cells = Spec.integer_column cells.
Proof.
  unfold is_int64, Spec.integer_column.
  induction cells as [|c cells IH]; [reflexivity|].
  simpl. now rewrite is_int_integer_cell, IH.
Qed.

(** What the conversion reads is what the cell parses to as a float. *)
Lemma to_numeric_parse_cell (c : cell) :
  match to_numeric c with
  | AnInt z => Spec.parse_cell c = Some (Num.of_int z)
  | AFloat x => Spec.parse_cell c = Some x
  | NaN => Spec.parse_cell c = None
  end.
Proof.
  destruct c as [|z|x|s]; simpl; try reflexivity.
  destruct (Num.int_of_string s) as [z|] eqn:Ei.
  - now apply int_of_string_float.
  - now destruct (Num.float_of_string s).
Qed.

Lemma to_numeric_fillna (c : cell) : to_numeric (fillna c) = to_numeric c.
Proof. now destruct c. Qed.

Lemma round_fill_fillna (int64 : bool) (c : cell) :
  round_fill int64 (fillna c) = round_fill int64 c.
Proof. unfold round_fill. now rewrite to_numeric_fillna. Qed.

Lemma round_fill_number_or_dash (int64 : bool) (c : cell) :
  Spec.number_or_dash (round_fill int64 c).
Proof.
  unfold round_fill, Spec.number_or_dash.
  destruct (to_numeric c) as [z|x|]; [destruct int64| |].
  - right. left. now exists z.
  - right. right. eexists. split; [reflexivity|apply round2_two_places].
  - right. right. eexists. split; [reflexivity|apply round2_two_places].
  - now left.
Qed.

(** The value the code gives a cell of a column is the value of the amended
    rule. *)
Lemma round_fill_coerced (cells : list cell) (c : cell) :
  In c cells -> Spec.coerced cells c (round_fill (is_int64 cells) c).
Proof.
  intros Hin. unfold Spec.coerced. rewrite <- is_int64_integer_column.
  unfold round_fill. pose proof (to_numeric_parse_cell c) as Hp.
  destruct (is_int64 cells) eqn:E.
  - unfold is_int64 in E. rewrite forallb_forall in E. specialize (E c Hin).
    destruct (to_numeric c) as [z|x|] eqn:Ec; try discriminate.
    exists z. split; [now apply to_numeric_integer_cell|reflexivity].
  - destruct (to_numeric c) as [z|x|]; rewrite Hp.
    + eexists. split; [reflexivity|apply round2_rounds_to].
    + eexists. split; [reflexivity|apply round2_rounds_to].
    + reflexivity.
Qed.

Lemma to_numeric_nth_fillna (j : nat) (r : row) :
  to_numeric (nth j (map fillna r) Absent) = to_numeric (nth j r Absent).
Proof.
  revert j; induction r as [|c r IH]; intros [|j]; try reflexivity.
  - apply to_numeric_fillna.
  - apply IH.
Qed.

Lemma is_int64_filled (j : nat) (data : frame) :
  is_int64 (column j (map (map fillna) data)) = is_int64 (column j data).
Proof.
  unfold is_int64, column. induction data as [|r data IH]; [reflexivity|].
  cbn [map forallb]. now rewrite to_numeric_nth_fillna, IH.
Qed.

(** ** Frames *)

Lemma select_columns_length (keep : nat -> bool) (j : nat) (r : row) :
  length (select_columns keep j r) = length (filter keep (seq j (length r))).
Proof.
  revert j; induction r as [|c r IH]; intros j; [reflexivity|].
  simpl. destruct (keep j); simpl; now rewrite IH.
Qed.

Lemma dropna_columns_rect (df : frame) :
  Spec.rect df -> Spec.rect (dropna_columns df).
Proof.
  intros [w Hw].
  exists (length (filter (column_kept df) (seq 0 w))).
  unfold dropna_columns. apply Forall_map.
  revert Hw. apply Forall_impl. intros r <-. apply select_columns_length.
Qed.

Lemma normalize_header_length (prefix : string) (r : row) :
  length (normalize_header prefix r) = length r.
Proof.
  unfold normalize_header. destruct r as [|c r]; [reflexivity|].
  simpl. destruct (String.eqb _ _); simpl; now rewrite length_map.
Qed.

Lemma pso_header_length (r : row) : length (pso_header r) = length r.
Proof.
  unfold pso_header. destruct r as [|c r]; [reflexivity|].
  simpl. now rewrite length_map.
Qed.

Lemma fill_round_row_length (int64 : nat -> bool) (r : row) :
  length (fill_round_row int64 r) = length r.
Proof. apply mapi_from_length. Qed.

(** Filling, then converting the columns after the first, is [fill_round]. *)
Lemma round_filled (header : list string) (data : frame) :
  NoDup header ->
  Forall (fun r => length r <= length header) data ->
  round_numeric_columns header (tl header) (map (map fillna) data)
  = Ok (fill_round data).
Proof.
  intros Hnd Hlen. rewrite round_numeric_columns_ok; [|assumption|].
  - apply (f_equal Ok). unfold fill_round. rewrite map_map. apply map_ext. intros r.
    unfold fill_round_row, mapi. rewrite mapi_from_map. apply mapi_from_ext.
    intros j c _. destruct j as [|j]; [reflexivity|].
    cbn [Nat.ltb Nat.leb Nat.eqb]. now rewrite round_fill_fillna, is_int64_filled.
  - rewrite Forall_map. revert Hlen. apply Forall_impl.
    intros r Hr. now rewrite length_map.
Qed.

Lemma firstn_bounded (n : nat) (data : frame) :
  Forall (fun r => length r <= n) (map (firstn n) data).
Proof.
  rewrite Forall_map. apply Forall_forall. intros r _. apply firstn_le_length.
Qed.

Lemma filter_filter {A : Type} (p q : A -> bool) (l : list A) :
  filter q (filter p l) = filter (fun x => p x && q x) l.
Proof.
  induction l as [|x l IH]; [reflexivity|].
  simpl. destruct (p x); simpl; [destruct (q x)|]; now rewrite IH.
Qed.

Lemma build_co_table_nodup (prefix : string) (header : list string) (data : frame) :
  NoDup header ->
  build_co_table prefix header data
  = Ok (Table ("Mapping of CO with " ++ prefix ++ "s:") header
              (fill_round (map (firstn (length header)) (kept_co_rows data)))).
Proof.
  intros Hnd. unfold build_co_table, dropna_rows, kept_co_rows.
  rewrite filter_filter. now rewrite round_filled by (assumption || apply firstn_bounded).
Qed.

Lemma build_co_table_dup (prefix : string) (header : list string) (data : frame) :
  ~ NoDup header -> build_co_table prefix header data = Raise TypeError.
Proof.
  intros Hdup. unfold build_co_table. now rewrite round_numeric_columns_dup.
Qed.

Lemma nodup_dec_string (l : list string) : {NoDup l} + {~ NoDup l}.
Proof. apply NoDup_dec, string_dec. Qed.

Lemma in_skipn_frame {A : Type} (n : nat) (l : list A) (x : A) :
  In x (skipn n l) -> In x l.
Proof.
  revert l; induction n as [|n IH]; intros [|y l] H; simpl in *; auto.
Qed.

Lemma in_firstn_frame {A : Type} (n : nat) (l : list A) (x : A) :
  In x (firstn n l) -> In x l.
Proof.
  revert l; induction n as [|n IH]; intros [|y l] H; simpl in *; try tauto.
  destruct H as [H|H]; auto.
Qed.

Lemma in_data_region (df : frame) (h : nat) (stop : option nat) (r : row) :
  In r (data_region df h stop) -> In r df.
Proof.
  unfold data_region, iloc_slice. destruct stop as [[|s]|]; intros H.
  - now apply in_skipn_frame in H.
  - now apply in_firstn_frame, in_skipn_frame in H.
  - now apply in_skipn_frame in H.
Qed.

(** ** When the mapping extractors return *)

Lemma extract_co_mapping_ok (df : frame) (sheet_name prefix : string) (t : table) :
  extract_co_mapping df sheet_name prefix = Ok t ->
  exists h,
    let df' := dropna_columns df in
    let header := normalize_header prefix (nth h df' []) in
    find_index (is_co_header prefix) df' = Some h /\
    NoDup header /\
    t = Table ("Mapping of CO with " ++ prefix ++ "s:") header
              (fill_round
                   (map (firstn (length header))
                        (kept_co_rows (data_region df' h (find_stop df' h))))).
Proof.
  unfold extract_co_mapping. intros H.
  destruct (find_index (is_co_header prefix) (dropna_columns df)) as [h|] eqn:Eh;
    [|discriminate].
  exists h. cbv zeta.
  destruct (nodup_dec_string (normalize_header prefix (nth h (dropna_columns df) [])))
    as [Hnd|Hdup].
  - rewrite build_co_table_nodup in H by assumption. injection H as <-. auto.
  - rewrite build_co_table_dup in H by assumption. discriminate.
Qed.

Lemma extract_co_pso_mapping_ok (df : frame) (sheet_name : string) (t : table) :
  extract_co_pso_mapping df sheet_name = Ok t ->
  exists h,
    let df' := dropna_columns df in
    let header := pso_header (nth h df' []) in
    find_index is_co_pso_header df' = Some h /\
    NoDup header /\
    t = Table "Mapping of COs with PSOs:" header
              (fill_round
                   (map (firstn (length header))
                        (kept_pso_rows (skipn (h + 1) df')))).
Proof.
  unfold extract_co_pso_mapping. intros H.
  destruct (find_index is_co_pso_header (dropna_columns df)) as [h|] eqn:Eh;
    [|discriminate].
  exists h. cbv zeta.
  unfold dropna_rows in H. rewrite filter_filter in H. fold (kept_pso_rows (skipn (h + 1) (dropna_columns df))) in H.
  destruct (nodup_dec_string (pso_header (nth h (dropna_columns df) [])))
    as [Hnd|Hdup].
  - rewrite round_filled in H by (assumption || apply firstn_bounded).
    injection H as <-. auto.
  - rewrite round_numeric_columns_dup in H by assumption. discriminate.
Qed.

Lemma firstn_full (n : nat) (kept : frame) :
  Forall (fun r => length r = n) kept -> map (firstn n) kept = kept.
Proof.
  intros H. rewrite <- (map_id kept) at 2. apply map_ext_in.
  intros r Hr. rewrite Forall_forall in H. apply firstn_all2. rewrite (H r Hr). lia.
Qed.

Lemma in_column (j i : nat) (data : frame) :
  i < length data -> In (nth j (nth i data []) Absent) (column j data).
Proof.
  intros Hi. unfold column. apply in_map_iff.
  exists (nth i data []). split; [reflexivity|now apply nth_In].
Qed.

(** The value at row [i] and position [j] of the filled and converted rows. *)
Lemma fill_round_nth (data : frame) (i j : nat) :
  i < length data -> j < length (nth i data []) ->
  nth j (nth i (fill_round data) []) Absent
  = if j =? 0 then fillna (nth j (nth i data []) Absent)
    else round_fill (is_int64 (column j data)) (nth j (nth i data []) Absent).
Proof.
  intros Hi Hj. unfold fill_round.
  set (F := fill_round_row (fun j => is_int64 (column j data))).
  assert (nth i (map F data) [] = F (nth i data [])) as ->
    by apply (map_nth F data [] i).
  unfold F, fill_round_row, mapi.
  now rewrite (nth_mapi_from _ 0 j _ Absent Absent Hj).
Qed.

(** The common shape of the two results. *)
Lemma table_invariant (df' : frame) (w : nat) (header : list string) (kept : frame) :
  Forall (fun r => length r = w) df' ->
  length header = w ->
  (forall r, In r kept -> In r df') ->
  let rows := fill_round (map (firstn (length header)) kept) in
  Forall (fun r => length r = length header) rows /\
  Forall (fun r => Forall Spec.number_or_dash (tl r)) rows /\
  length rows = length kept /\
  (forall i j, i < length kept -> j < length header ->
     let c := nth j (nth i kept []) Absent in
     let v := nth j (nth i rows []) Absent in
     if j =? 0 then v = fillna c else Spec.coerced (column j kept) c v).
Proof.
  intros Hw Hh Hin rows. rewrite Forall_forall in Hw.
  assert (Forall (fun r => length r = length header) kept) as Hkept.
  { apply Forall_forall. intros r Hr. rewrite Hh. auto. }
  unfold rows. rewrite (firstn_full _ _ Hkept). rewrite Forall_forall in Hkept.
  split; [|split; [|split]].
  - unfold fill_round. rewrite Forall_map. apply Forall_forall. intros r Hr.
    rewrite fill_round_row_length. auto.
  - unfold fill_round. rewrite Forall_map. apply Forall_forall. intros r _.
    unfold fill_round_row, mapi. destruct r as [|c r]; [constructor|].
    cbn [mapi_from tl]. apply Forall_mapi_from. intros j x Hj.
    destruct j as [|j]; [lia|]. apply round_fill_number_or_dash.
  - unfold fill_round. apply length_map.
  - intros i j Hi Hj. cbv zeta.
    rewrite fill_round_nth; [|assumption|].
    + destruct (j =? 0); [reflexivity|].
      apply round_fill_coerced. now apply in_column.
    + rewrite (Hkept (nth i kept [])); [assumption|now apply nth_In].
Qed.

(** C1, amended. In every table returned by [extract_co_mapping] or
    [extract_co_pso_mapping] each row has exactly [len(columns)] values and
    each value outside the first column is the sentinel "-" or a number
    rounded to 2 decimal places.  The rows come from rows of the sheet, in
    which the first cell is kept (the sentinel when absent) and the cell of a
    later column depends on the column: in a column all of whose cells hold
    integers the integers are kept; in any other column the cell is parsed as
    a floating-point number, rounded to 2 decimals on success and replaced by
    "-" on failure or absence.  So 3.14159 becomes 3.14 and "abc" becomes "-",
    and 3 stays 3 beside 4 and becomes 3.0 beside 2.5. *)
Theorem c1_table_invariant :
  forall (df : frame) (sheet_name prefix : string) (t : table),
    Spec.rect df ->
    extract_co_mapping df sheet_name prefix = Ok t \/
    extract_co_pso_mapping df sheet_name = Ok t ->
    Forall (fun r => length r = length (columns t)) (rows t) /\
    Forall (fun r => Forall Spec.number_or_dash (tl r)) (rows t) /\
    (exists kept,
        (forall r, In r kept -> In r (dropna_columns df)) /\
        length (rows t) = length kept /\
        forall i j, i < length kept -> j < length (columns t) ->
          let c := nth j (nth i kept []) Absent in
          let v := nth j (nth i (rows t) []) Absent in
          if j =? 0 then v = fillna c else Spec.coerced (column j kept) c v) /\
    to_numeric_round [Float (Num.Dec 314159 5); Text "abc"; Absent]
    = [Float (Num.Dec 314 2); Text "-"; Text "-"] /\
    to_numeric_round [Int 3; Text "4"] = [Int 3; Int 4] /\
    to_numeric_round [Int 3; Float (Num.Dec 25 1)]
    = [Float (Num.Dec 300 2); Float (Num.Dec 250 2)].
Proof.
  intros df sheet_name prefix t Hrect Hok.
  apply dropna_columns_rect in Hrect. destruct Hrect as [w Hw].
  assert (forall h, h < length (dropna_columns df) ->
                    length (nth h (dropna_columns df) []) = w) as Hrow.
  { intros h Hh. rewrite Forall_forall in Hw. apply Hw, nth_In, Hh. }
  assert (exists header kept,
             columns t = header /\
             rows t = fill_round (map (firstn (length header)) kept) /\
             length header = w /\
             forall r, In r kept -> In r (dropna_columns df))
    as (header & kept & Hc & Hr & Hlen & Hin).
  { destruct Hok as [Hok|Hok].
    - apply extract_co_mapping_ok in Hok as (h & Hh & _ & ->). cbn [rows columns].
      apply (find_index_some _ ([] : row)) in Hh as (Hh & _).
      eexists _, _. split; [reflexivity|]. split; [reflexivity|]. split.
      + rewrite normalize_header_length. now apply Hrow.
      + intros r Hr. unfold kept_co_rows in Hr. apply filter_In in Hr as (Hr & _).
        now apply in_data_region in Hr.
    - apply extract_co_pso_mapping_ok in Hok as (h & Hh & _ & ->). cbn [rows columns].
      apply (find_index_some _ ([] : row)) in Hh as (Hh & _).
      eexists _, _. split; [reflexivity|]. split; [reflexivity|]. split.
      + rewrite pso_header_length. now apply Hrow.
      + intros r Hr. unfold kept_pso_rows in Hr. apply filter_In in Hr as (Hr & _).
        now apply in_skipn_frame in Hr. }
  destruct (table_invariant _ w header kept Hw Hlen Hin) as (H1 & H2 & H3 & H4).
  rewrite Hc, Hr.
  split; [exact H1|]. split; [exact H2|]. split.
  - exists kept. split; [exact Hin|]. split; [exact H3|exact H4].
  - repeat split.
Qed.

(** ** Failure to find the header *)





Lemma extract_co_mapping_found (df : frame) (sheet_name prefix : string) (h : nat) :
  let df' := dropna_columns df in
  let header := normalize_header prefix (nth h df' []) in
  find_index (is_co_header prefix) df' = Some h ->
  extract_co_mapping df sheet_name prefix
  = if nodup_dec_string header
    then Ok (Table ("Mapping of CO with " ++ prefix ++ "s:") header
                   (fill_round
                        (map (firstn (length header))
                             (kept_co_rows (data_region df' h (find_stop df' h))))))
    else Raise TypeError.
Proof.
  intros df' header Hh. unfold extract_co_mapping. fold df'. rewrite Hh. fold header.
  destruct (nodup_dec_string header) as [Hnd|Hdup].
  - now apply build_co_table_nodup.
  - now apply build_co_table_dup.
Qed.


Lemma find_index_none_iff {A : Type} (p : A -> bool) (l : list A) :
  find_index p l = None <-> forall x, In x l -> p x = false.
Proof.
  split; [apply find_index_none|].
  induction l as [|x l IH]; intros H; [reflexivity|].
  simpl. rewrite (H x) by now left. rewrite IH; [reflexivity|].
  intros y Hy. apply H. now right.
Qed.






(** ** An empty table *)

(** C8, amended. When the header row is located, the labels of the normalized
    header are pairwise distinct and every row of the data region is filtered
    out (no value at all, or a summary row), [extract_co_mapping] returns the
    table with the normalized header as columns and no row. *)
Theorem c8_empty_table :
  forall (df : frame) (sheet_name prefix : string) (h : nat),
    let df' := dropna_columns df in
    let header := normalize_header prefix (nth h df' []) in
    find_index (is_co_header prefix) df' = Some h ->
    NoDup header ->
    (forall r, In r (data_region df' h (find_stop df' h)) ->
               existsb notna r = false \/ not_overall r = false) ->
    extract_co_mapping df sheet_name prefix
    = Ok (Table ("Mapping of CO with " ++ prefix ++ "s:") header []).
Proof.
  intros df sheet_name prefix h df' header Hh Hnd Hout.
  rewrite (extract_co_mapping_found df sheet_name prefix h Hh).
  fold df'. fold header. destruct (nodup_dec_string header); [|contradiction].
  do 2 f_equal.
  assert (kept_co_rows (data_region df' h (find_stop df' h)) = []) as ->; [|reflexivity].
  unfold kept_co_rows.
  induction (data_region df' h (find_stop df' h)) as [|r l IH]; [reflexivity|].
  simpl. destruct (Hout r (or_introl eq_refl)) as [E|E]; rewrite E;
    rewrite ?andb_false_r; simpl; apply IH; intros r' Hr'; apply Hout; now right.
Qed.

Lemma c8_empty_table_witness :
  extract_co_mapping empty_region_sheet "CO Attainment" "PO"
  = Ok (Table "Mapping of CO with POs:" ["CO"; "PO1"; "PO2"] []).
Proof.
  apply (c8_empty_table empty_region_sheet "CO Attainment" "PO" 0).
  - reflexivity.
  - vm_compute. repeat constructor; simpl; intuition discriminate.
  - intros r Hr. vm_compute in Hr.
    destruct Hr as [<-|[<-|[]]]; [now right|now left].
Defined.

(** C8 as stated fails: the header of [narrow_empty_sheet] is located, every
    row of its data region is filtered out, and the extraction raises. *)
Lemma c8_counterexample :
  find_index (is_co_header "PO") (dropna_columns narrow_empty_sheet) = Some 0 /\
  kept_co_rows (data_region (dropna_columns narrow_empty_sheet) 0
                            (find_stop (dropna_columns narrow_empty_sheet) 0)) = [] /\
  normalize_header "PO" (nth 0 (dropna_columns narrow_empty_sheet) [])
  = ["CO"; "PO1"; "nan"; "nan"] /\
  extract_co_mapping narrow_empty_sheet "CO Attainment" "PO" = Raise TypeError.
Proof. repeat split. Qed.

(** ** Witnesses on the specification's scenario *)

Lemma c2_data_region_witness :
  find_index (is_co_header "PO") (dropna_columns scenario) = Some 2 /\
  extract_co_mapping scenario "CO Attainment" "PO"
  = build_co_table "PO" ["CO"; "PO1"; "PO2"]
      [ [Text "CO1"; Float (Num.Dec 3333 3); Text "x"];
        [Text "CO2"; Text "-"; Float (Num.Dec 2667 3)];
        [Text "Overall CO Attainment: 3.0"; Absent; Absent] ].
Proof.
  split; [reflexivity|].
  apply (proj1 (c2_data_region scenario "CO Attainment" "PO" 2 eq_refl) 6).
  - vm_compute. split; repeat constructor.
  - reflexivity.
  - intros j Hj.
    destruct j as [|[|[|[|[|[|j]]]]]]; try reflexivity; lia.
Defined.

Lemma c5_header_row_witness :
  find_index (is_co_header "PO") (dropna_columns scenario) = Some 2 /\
  extract_co_mapping scenario "CO Attainment" "PO"
  = build_co_table "PO" ["CO"; "PO1"; "PO2"]
      (data_region (dropna_columns scenario) 2 (Some 6)).
Proof.
  apply (proj1 (c5_header_row scenario "CO Attainment" "PO" eq_refl) 2).
  - vm_compute. repeat constructor.
  - reflexivity.
  - intros j Hj. destruct j as [|[|j]]; try reflexivity; lia.
Defined.

(** C5 as stated fails in two ways.  For a prefix in lower case the row
    ["CO"; "PO1"] satisfies the case-insensitive test for the prefix "po" and
    is not chosen.  And a cell holding white space only is not passed over: in
    [blank_first_sheet] the first non-empty trimmed cell of the first row is
    "CO" and the second is "PO1", yet the row is not chosen.  In both cases no
    header is found. *)
Lemma c5_counterexample :
  (Spec.header_row "po" (nth 0 (dropna_columns [[Text "CO"; Text "PO1"]]) []) = true /\
   find_index (is_co_header "po") (dropna_columns [[Text "CO"; Text "PO1"]]) = None /\
   extract_co_mapping [[Text "CO"; Text "PO1"]] "CO Attainment" "po"
   = Raise (co_header_error "CO Attainment" "po")) /\
  (Spec.nonempty_trimmed (nth 0 (dropna_columns blank_first_sheet) [])
   = ["CO"; "PO1"]%string /\
   Spec.header_row "PO" (nth 0 (dropna_columns blank_first_sheet) []) = true /\
   find_index (is_co_header "PO") (dropna_columns blank_first_sheet) = None /\
   extract_co_mapping blank_first_sheet "CO Attainment" "PO"
   = Raise (co_header_error "CO Attainment" "PO")).
Proof. repeat split. Qed.

Lemma c1_table_invariant_witness :
  Forall (fun r => length r = 3)
         [ [Text "CO1"; Float (Num.Dec 333 2); Text "-"];
           [Text "CO2"; Text "-"; Float (Num.Dec 267 2)] ] /\
  Forall (fun r => Forall Spec.number_or_dash (tl r))
         [ [Text "CO1"; Float (Num.Dec 333 2); Text "-"];
           [Text "CO2"; Text "-"; Float (Num.Dec 267 2)] ].
Proof.
  pose proof (c1_table_invariant scenario "CO Attainment" "PO"
    (Table "Mapping of CO with POs:" ["CO"; "PO1"; "PO2"]
       [ [Text "CO1"; Float (Num.Dec 333 2); Text "-"];
         [Text "CO2"; Text "-"; Float (Num.Dec 267 2)] ])) as H.
  destruct H as (H1 & H2 & _).
  - exists 3. repeat constructor.
  - left. reflexivity.
  - split; assumption.
Defined.

(** C1 as stated fails: the column "PO1" of [integer_column_sheet] holds
    integers only and its values come out as the integers 3 and 1, which are
    neither floats nor the sentinel and are not what parsing the cell as a
    floating-point number and rounding it gives; the report prints them as
    "3" and "1", where the float would be printed as "3.0". *)
Lemma c1_counterexample :
  extract_co_mapping integer_column_sheet "CO Attainment" "PO"
  = Ok (Table "Mapping of CO with POs:" ["CO"; "PO1"; "PO2"]
          [ [Text "CO1"; Int 3; Float (Num.Dec 250 2)];
            [Text "CO2"; Int 1; Text "-"] ]) /\
  ~ Forall (fun r => Forall Spec.rounded_or_dash (tl r))
           [ [Text "CO1"; Int 3; Float (Num.Dec 250 2)];
             [Text "CO2"; Int 1; Text "-"] ] /\
  Spec.coerce (Int 3) = Float (Num.Dec 300 2) /\
  str_nan (Int 3) = "3"%string /\
  str_nan (Spec.coerce (Int 3)) = "3.0"%string.
Proof.
  split; [reflexivity|]. split; [|repeat split].
  intros H. apply Forall_inv, Forall_inv in H.
  destruct H as [H|[x H]]; discriminate.
Qed.

(** ** Row filtering *)

(** C6, the code at the failing input. A summary row whose first cell has a
    blank before "Overall CO Attainment" is not dropped by
    [extract_co_mapping]: the test is made on the untrimmed text.  The same row
    without the blank is dropped, and [extract_co_pso_mapping] does trim before
    it compares with "course". *)
Theorem c6_untrimmed_overall_row_kept :
  extract_co_mapping padded_overall_sheet "CO Attainment" "PO"
  = Ok (Table "Mapping of CO with POs:" ["CO"; "PO1"]
          [ [Text "CO1"; Float (Num.Dec 300 2)];
            [Text " Overall CO Attainment : 2.8"; Text "-"] ]) /\
  not_overall [Text " Overall CO Attainment : 2.8"; Absent] = true /\
  not_overall [Text "Overall CO Attainment : 2.8"; Absent] = false /\
  not_course [Text " course "; Int 1; Int 2] = false /\
  extract_co_pso_mapping pso_sheet "PSO Attainment"
  = Ok (Table "Mapping of COs with PSOs:" ["Course Outcomes"; "PSO1"; "PSO2"]
          [ [Text "CO1"; Float (Num.Dec 300 2); Float (Num.Dec 246 2)];
            [Text "CO2"; Text "-"; Text "-"] ]).
Proof. repeat split. Qed.

(** What the two extractors keep, in the order of the sheet: the rows of the
    data region that pass the marker test and hold a value. *)
Lemma kept_rows_in_order (df : frame) (sheet_name prefix : string) (t : table) :
  Spec.rect df ->
  extract_co_mapping df sheet_name prefix = Ok t ->
  exists h,
    let df' := dropna_columns df in
    find_index (is_co_header prefix) df' = Some h /\
    rows t = fill_round (kept_co_rows (data_region df' h (find_stop df' h))).
Proof.
  intros Hrect Hok.
  apply dropna_columns_rect in Hrect as [w Hw]. rewrite Forall_forall in Hw.
  apply extract_co_mapping_ok in Hok as (h & Hh & _ & ->).
  exists h. split; [assumption|]. cbn [rows]. f_equal.
  rewrite <- (map_id (kept_co_rows _)) at 2. apply map_ext_in.
  intros r Hr. apply firstn_all2.
  apply filter_In in Hr as (Hr & _). apply in_data_region in Hr.
  rewrite normalize_header_length.
  apply (find_index_some _ ([] : row)) in Hh as (Hh & _).
  rewrite (Hw r Hr), (Hw (nth h (dropna_columns df) [])); [lia|now apply nth_In].
Qed.

(** ** extract_po_attainment *)

Lemma is_po_attainment_row_spec (r : row) :
  is_po_attainment_row r
  = existsb (fun c => String.eqb (lower (strip (str_nan c))) "po attainment") r.
Proof. apply eq_sym, stop_row_spec. Qed.

(** The cases in which [None] is returned. *)
Lemma extract_po_attainment_none (df : frame) :
  let df' := dropna_columns df in
  ((forall r, In r df' -> is_po_attainment_row r = false) ->
     extract_po_attainment df = Ok None) /\
  (forall pa,
      find_index is_po_attainment_row df' = Some pa ->
      (forall r, In r (skipn (pa + 1) df') -> is_po_header r = false) ->
      extract_po_attainment df = Ok None).
Proof.
  intros df'. split.
  - intros H. apply find_index_none_iff in H.
    unfold extract_po_attainment. fold df'. now rewrite H.
  - intros pa Hpa H. apply find_index_none_iff in H.
    unfold extract_po_attainment. fold df'. now rewrite Hpa, H.
Qed.

(** A table is returned when the header is found and a row follows it. *)
Lemma extract_po_attainment_some (df : frame) (pa k : nat) (r : row) :
  let df' := dropna_columns df in
  find_index is_po_attainment_row df' = Some pa ->
  find_index is_po_header (skipn (pa + 1) df') = Some k ->
  nth_error df' (pa + 1 + k + 1) = Some r ->
  exists t, extract_po_attainment df = Ok (Some t) /\ length (po_rows t) = 1.
Proof.
  intros df' Hpa Hk Hr. unfold extract_po_attainment. fold df'.
  rewrite Hpa, Hk, Hr. eexists. split; reflexivity.
Qed.

(** C10, the code at the failing input. The marker row and the header row are
    both there, the header row is the last row of the sheet, and
    [extract_po_attainment] raises [IndexError] at [df.iloc[header_idx + 1]]
    where the claim has it return a table. *)
Theorem c10_header_in_last_row_raises :
  find_index is_po_attainment_row (dropna_columns po_header_last_sheet) = Some 0 /\
  find_index is_po_header (skipn 1 (dropna_columns po_header_last_sheet)) = Some 0 /\
  extract_po_attainment po_header_last_sheet = Raise IndexError.
Proof. repeat split. Qed.

(** ** Two decimal places *)

Lemma string_of_uint_digits (d : Decimal.uint) :
  Spec.all_chars is_digit (NilEmpty.string_of_uint d) = true.
Proof. induction d; simpl; auto. Qed.

Lemma digits_all_digit (z : Z) : Spec.all_chars is_digit (Num.digits z) = true.
Proof.
  unfold Num.digits, NilZero.string_of_uint.
  destruct (N.to_uint (Z.to_N z)); try reflexivity; apply string_of_uint_digits.
Qed.

Lemma digits_nonempty (z : Z) : Num.digits z <> ""%string.
Proof.
  unfold Num.digits, NilZero.string_of_uint.
  destruct (N.to_uint (Z.to_N z)); simpl; discriminate.
Qed.

Lemma all_chars_weaken (p q : ascii -> bool) (s : string) :
  (forall c, p c = true -> q c = true) ->
  Spec.all_chars p s = true -> Spec.all_chars q s = true.
Proof.
  intros Hpq. induction s as [|c s IH]; [reflexivity|].
  simpl. intros H. apply andb_prop in H as [Hc Hs].
  now rewrite (Hpq c Hc), IH.
Qed.

Lemma digit_char_is_digit (z : Z) :
  (0 <= z < 10)%Z -> is_digit (Num.digit_char z) = true.
Proof.
  intros Hz. unfold Num.digit_char.
  assert (Z.to_nat z < 10) as Hn by lia.
  destruct (Z.to_nat z) as [|[|[|[|[|[|[|[|[|[|n]]]]]]]]]]; try reflexivity; lia.
Qed.

Lemma fmt2_two_decimals (x : Num.dec) : Spec.two_decimals (Num.fmt2 x).
Proof.
  unfold Spec.two_decimals, Num.fmt2.
  set (h := Z.abs (Num.mant (Num.round2 x))).
  assert (0 <= h mod 100 < 100)%Z as Hf by (apply Z.mod_pos_bound; lia).
  exists ((if (Num.mant x <? 0)%Z then "-" else "") ++ Num.digits (h / 100))%string,
         (Num.digit_char (h mod 100 / 10)), (Num.digit_char ((h mod 100) mod 10)).
  repeat split.
  - destruct (Num.mant x <? 0)%Z; reflexivity.
  - destruct (Num.mant x <? 0)%Z; [discriminate|apply digits_nonempty].
  - assert (Spec.all_chars (fun c => is_digit c || Ascii.eqb c "-") (Num.digits (h / 100)) = true) as Hd.
    { apply (all_chars_weaken is_digit); [|apply digits_all_digit].
      intros c ->. reflexivity. }
    destruct (Num.mant x <? 0)%Z; simpl; assumption.
  - apply digit_char_is_digit. split; [apply Z.div_pos; lia|].
    apply Z.div_lt_upper_bound; lia.
  - apply digit_char_is_digit. apply Z.mod_pos_bound. lia.
Qed.

(** ** Reading back what [str] prints *)

Lemma all_chars_app (p : ascii -> bool) (a b : string) :
  Spec.all_chars p (a ++ b)%string = Spec.all_chars p a && Spec.all_chars p b.
Proof.
  induction a as [|c a IH]; [reflexivity|].
  simpl. rewrite IH. now rewrite andb_assoc.
Qed.

Lemma rstrip_no_space (s : string) :
  Spec.all_chars (fun c => negb (is_space c)) s = true -> rstrip s = s.
Proof.
  induction s as [|c s IH]; [reflexivity|].
  simpl. intros H. apply andb_prop in H as [Hc Hs].
  rewrite (IH Hs). apply negb_true_iff in Hc. rewrite Hc. now destruct s.
Qed.

Lemma strip_no_space (s : string) :
  Spec.all_chars (fun c => negb (is_space c)) s = true -> strip s = s.
Proof.
  intros H. unfold strip.
  assert (lstrip s = s) as ->; [|now apply rstrip_no_space].
  destruct s as [|c s]; [reflexivity|].
  simpl in *. apply andb_prop in H as [Hc _].
  apply negb_true_iff in Hc. now rewrite Hc.
Qed.

Lemma num_char_no_space (c : ascii) : Num.num_char c = true -> negb (is_space c) = true.
Proof. ascii_cases c; vm_compute; congruence. Qed.

Lemma digit_not_sign (c : ascii) :
  is_digit c = true ->
  Ascii.eqb c "-" = false /\ Ascii.eqb c "+" = false /\ Ascii.eqb c "." = false
  /\ Num.is_e c = false.
Proof. ascii_cases c; vm_compute; intros H; try discriminate H; auto. Qed.

Lemma span_digits_all (a b : string) :
  Spec.all_chars is_digit a = true ->
  match b with
  | EmptyString => True
  | String c _ => is_digit c = false
  end ->
  Num.span_digits (a ++ b)%string = (a, b).
Proof.
  intros Ha Hb. induction a as [|c a IH].
  - simpl. destruct b as [|c b]; [reflexivity|]. simpl. now rewrite Hb.
  - simpl in *. apply andb_prop in Ha as [Hc Ha].
    rewrite Hc, (IH Ha). reflexivity.
Qed.

Lemma digits_val_from_app (acc : Z) (a b : string) :
  Num.digits_val_from acc (a ++ b)%string
  = Num.digits_val_from (Num.digits_val_from acc a) b.
Proof.
  revert acc; induction a as [|c a IH]; intros acc; [reflexivity|].
  simpl. apply IH.
Qed.

Lemma digits_val_from_shift (acc : Z) (s : string) :
  Num.digits_val_from acc s
  = (acc * 10 ^ Z.of_nat (String.length s) + Num.digits_val s)%Z.
Proof.
  unfold Num.digits_val.
  revert acc; induction s as [|c s IH]; intros acc.
  - simpl. lia.
  - cbn [Num.digits_val_from String.length].
    rewrite IH. rewrite (IH (10 * 0 + _)%Z).
    rewrite Nat2Z.inj_succ, Z.pow_succ_r by lia. lia.
Qed.

Lemma of_uint_acc_val (d : Decimal.uint) (acc : positive) :
  Z.pos (Pos.of_uint_acc d acc)
  = Num.digits_val_from (Z.pos acc) (NilEmpty.string_of_uint d).
Proof.
  revert acc; induction d; intros acc; cbn [Pos.of_uint_acc NilEmpty.string_of_uint Num.digits_val_from];
    try reflexivity; rewrite IHd; f_equal; vm_compute (Z.of_nat (nat_of_ascii _) - 48)%Z; lia.
Qed.

Lemma of_uint_val (d : Decimal.uint) :
  Z.of_N (N.of_uint d) = Num.digits_val (NilEmpty.string_of_uint d).
Proof.
  unfold Num.digits_val, N.of_uint.
  induction d; cbn [Pos.of_uint NilEmpty.string_of_uint Num.digits_val_from];
    try reflexivity; try exact IHd;
    cbn [Z.of_N]; rewrite of_uint_acc_val; f_equal.
Qed.

Lemma digits_val_digits (z : Z) : (0 <= z)%Z -> Num.digits_val (Num.digits z) = z.
Proof.
  intros Hz. unfold Num.digits.
  assert (NilZero.string_of_uint (N.to_uint (Z.to_N z))
          = NilEmpty.string_of_uint (N.to_uint (Z.to_N z))) as ->.
  { unfold NilZero.string_of_uint. destruct (N.to_uint (Z.to_N z)) eqn:E; try reflexivity.
    exfalso. destruct (Z.to_N z); [discriminate|].
    simpl in E. now apply (DecimalPos.Unsigned.to_uint_nonnil p). }
  rewrite <- of_uint_val, DecimalN.Unsigned.of_to. lia.
Qed.

Lemma span_digits_digits (a : string) :
  Spec.all_chars is_digit a = true -> Num.span_digits a = (a, ""%string).
Proof.
  intros Ha. rewrite <- (append_empty a) at 1. now apply span_digits_all.
Qed.

Lemma length_positive (s : string) (n : nat) :
  s <> ""%string -> (String.length s + n =? 0) = false.
Proof. destruct s; [contradiction|reflexivity]. Qed.

Lemma parse_integer_text (ip : string) :
  Spec.all_chars is_digit ip = true -> ip <> ""%string ->
  Num.parse_unsigned ip = Some (Num.Dec (Num.digits_val ip) 0).
Proof.
  intros Hd Hne. unfold Num.parse_unsigned.
  rewrite (span_digits_digits ip Hd), (length_positive ip _ Hne).
  now rewrite append_empty.
Qed.

Lemma parse_decimal_text (ip fp : string) :
  Spec.all_chars is_digit ip = true -> ip <> ""%string ->
  Spec.all_chars is_digit fp = true ->
  Num.parse_unsigned (ip ++ String "." fp)
  = Some (Num.Dec (Num.digits_val (ip ++ fp)) (String.length fp)).
Proof.
  intros Hi Hne Hf. unfold Num.parse_unsigned.
  rewrite (span_digits_all ip (String "." fp) Hi) by reflexivity.
  cbn [Ascii.eqb Bool.eqb]. rewrite (span_digits_digits fp Hf).
  now rewrite (length_positive ip _ Hne).
Qed.

Lemma float_of_string_signed (negative : bool) (body : string) (x : Num.dec) :
  Spec.all_chars Num.num_char body = true ->
  match body with
  | EmptyString => False
  | String c _ => is_digit c = true
  end ->
  Num.parse_unsigned body = Some x ->
  Num.float_of_string ((if negative then "-" else "") ++ body)
  = Some (if negative then Num.neg x else x).
Proof.
  intros Hc Hd Hp. unfold Num.float_of_string.
  rewrite strip_no_space.
  - destruct negative; simpl.
    + now rewrite Hp.
    + destruct body as [|c b]; [contradiction|].
      destruct (digit_not_sign c Hd) as (-> & -> & _). exact Hp.
  - apply (all_chars_weaken Num.num_char); [apply num_char_no_space|].
    destruct negative; simpl; [|assumption]. exact Hc.
Qed.

Lemma digits_head (z : Z) :
  match Num.digits z with
  | EmptyString => False
  | String c _ => is_digit c = true
  end.
Proof.
  pose proof (digits_all_digit z) as H. pose proof (digits_nonempty z) as Hne.
  destruct (Num.digits z) as [|c s]; [contradiction|].
  simpl in H. now apply andb_prop in H as [Hc _].
Qed.

Lemma digits_num_char (s : string) :
  Spec.all_chars is_digit s = true -> Spec.all_chars Num.num_char s = true.
Proof.
  apply all_chars_weaken. intros c Hc. unfold Num.num_char. now rewrite Hc.
Qed.

(** A Python [int] prints as a text that [float] reads back. *)
Lemma float_of_int_repr (z : Z) :
  Num.float_of_string (strip (Num.int_repr z)) = Some (Num.of_int z).
Proof.
  assert (Num.float_of_string (Num.int_repr z) = Some (Num.of_int z)) as H.
  { unfold Num.int_repr.
    rewrite (float_of_string_signed _ _ (Num.Dec (Z.abs z) 0)).
    - f_equal. unfold Num.of_int, Num.neg. simpl.
      destruct (Z.ltb_spec z 0); simpl; f_equal; lia.
    - apply digits_num_char, digits_all_digit.
    - apply digits_head.
    - rewrite parse_integer_text;
        [|apply digits_all_digit|apply digits_nonempty].
      rewrite digits_val_digits by lia. reflexivity. }
  rewrite strip_no_space; [assumption|].
  apply (all_chars_weaken Num.num_char); [apply num_char_no_space|].
  unfold Num.int_repr. rewrite all_chars_app.
  rewrite (digits_num_char _ (digits_all_digit _)).
  now destruct (z <? 0)%Z.
Qed.

Lemma round_half_even_scale (c n d : Z) :
  (0 < c)%Z -> (0 < d)%Z ->
  Num.round_half_even (c * n) (c * d) = Num.round_half_even n d.
Proof.
  intros Hc Hd. unfold Num.round_half_even.
  rewrite Z.div_mul_cancel_l, Z.mul_mod_distr_l by lia.
  destruct (Z.ltb_spec (2 * (n mod d)) d); destruct (Z.ltb_spec (2 * (c * (n mod d))) (c * d));
    try nia; try reflexivity.
  destruct (Z.ltb_spec d (2 * (n mod d))); destruct (Z.ltb_spec (c * d) (2 * (c * (n mod d))));
    try nia; reflexivity.
Qed.

Lemma round_half_even_exact (n d : Z) :
  (0 < d)%Z -> Num.round_half_even (n * d) d = n.
Proof.
  intros Hd. unfold Num.round_half_even.
  rewrite Z.div_mul, Z.mod_mul by lia.
  destruct (Z.ltb_spec (2 * 0) d); [reflexivity|lia].
Qed.

Lemma round2_scale_up (m : Z) (k : nat) :
  Num.round2 (Num.Dec (10 * m) (S k)) = Num.round2 (Num.Dec m k).
Proof.
  unfold Num.round2. cbn [Num.mant Num.scale].
  destruct (Nat.leb_spec (S k) 2) as [H|H]; destruct (Nat.leb_spec k 2) as [H'|H']; try lia; f_equal.
  - replace (2 - k) with (S (2 - S k)) by lia.
    rewrite Nat2Z.inj_succ, Z.pow_succ_r by lia. lia.
  - assert (k = 2) as -> by lia. cbn [Nat.sub Z.of_nat].
    change (10 ^ Z.pos (Pos.of_succ_nat 0))%Z with 10%Z. change (10 ^ 0)%Z with 1%Z.
    rewrite (Z.mul_comm 10 m), round_half_even_exact; lia.
  - replace (S k - 2) with (S (k - 2)) by lia.
    rewrite Nat2Z.inj_succ, Z.pow_succ_r by lia.
    apply round_half_even_scale; [lia|]. apply Z.pow_pos_nonneg; lia.
Qed.

Lemma fmt2_scale_up (m : Z) (k : nat) :
  Num.fmt2 (Num.Dec (10 * m) (S k)) = Num.fmt2 (Num.Dec m k).
Proof.
  unfold Num.fmt2. rewrite round2_scale_up. cbn [Num.mant].
  replace (10 * m <? 0)%Z with (m <? 0)%Z; [reflexivity|].
  destruct (Z.ltb_spec m 0); destruct (Z.ltb_spec (10 * m) 0); lia || reflexivity.
Qed.

Lemma fmt2_normalize (m : Z) (k : nat) :
  Num.fmt2 (Num.Dec (fst (Num.normalize m k)) (snd (Num.normalize m k)))
  = Num.fmt2 (Num.Dec m k).
Proof.
  revert m; induction k as [|k IH]; intros m; [reflexivity|].
  cbn [Num.normalize]. destruct (Z.eqb_spec (m mod 10) 0) as [E|E]; [|reflexivity].
  rewrite IH. rewrite <- fmt2_scale_up. do 2 f_equal.
  pose proof (Z.div_mod m 10 ltac:(lia)). lia.
Qed.

Lemma digits_nilempty (z : Z) :
  Num.digits z = NilEmpty.string_of_uint (N.to_uint (Z.to_N z)).
Proof.
  unfold Num.digits, NilZero.string_of_uint.
  destruct (N.to_uint (Z.to_N z)) eqn:E; try reflexivity.
  exfalso. destruct (Z.to_N z); [discriminate|].
  simpl in E. now apply (DecimalPos.Unsigned.to_uint_nonnil p).
Qed.

Lemma nzhead_not_D0 (u v : Decimal.uint) : Decimal.nzhead u <> Decimal.D0 v.
Proof. induction u; simpl; try discriminate. exact IHu. Qed.

Lemma to_uint_head (p : positive) :
  match Pos.to_uint p with
  | Decimal.Nil | Decimal.D0 _ => False
  | _ => True
  end.
Proof.
  pose proof (DecimalPos.Unsigned.to_of (Pos.to_uint p)) as H.
  rewrite DecimalPos.Unsigned.of_to in H. simpl in H.
  pose proof (DecimalPos.Unsigned.to_uint_nonzero p) as Hz.
  destruct (Pos.to_uint p) as [|d| | | | | | | | | ] eqn:E; try exact I.
  - now apply (DecimalPos.Unsigned.to_uint_nonnil p).
  - rewrite DecimalFacts.unorm_D0 in H. unfold Decimal.unorm in H.
    destruct (Decimal.nzhead d) eqn:En; try discriminate H.
    + injection H as ->. now apply Hz.
    + now apply nzhead_not_D0 in En.
Qed.

Lemma digits_val_nonneg (d : Decimal.uint) :
  (0 <= Num.digits_val (NilEmpty.string_of_uint d))%Z.
Proof. rewrite <- of_uint_val. lia. Qed.

Lemma string_of_uint_lower (d : Decimal.uint) :
  match d with
  | Decimal.Nil | Decimal.D0 _ => False
  | _ => True
  end ->
  (10 ^ (Z.of_nat (String.length (NilEmpty.string_of_uint d)) - 1)
   <= Num.digits_val (NilEmpty.string_of_uint d))%Z.
Proof.
  destruct d as [|d|d|d|d|d|d|d|d|d|d]; try contradiction; intros _;
    cbn [NilEmpty.string_of_uint String.length];
    unfold Num.digits_val; cbn [Num.digits_val_from];
    rewrite digits_val_from_shift;
    pose proof (digits_val_nonneg d);
    rewrite Nat2Z.inj_succ;
    replace (Z.succ (Z.of_nat (String.length (NilEmpty.string_of_uint d))) - 1)%Z
      with (Z.of_nat (String.length (NilEmpty.string_of_uint d))) by lia;
    match goal with
    | |- (?p <= ?c * ?p + _)%Z =>
        assert (0 < p)%Z by (apply Z.pow_pos_nonneg; lia);
        assert (1 <= c)%Z by (vm_compute; discriminate); nia
    end.
Qed.

Lemma digits_length_bound (f : Z) (k : nat) :
  (0 <= f < 10 ^ Z.of_nat k)%Z -> 1 <= k -> String.length (Num.digits f) <= k.
Proof.
  intros Hf Hk. rewrite digits_nilempty.
  destruct (Z.to_N f) as [|p] eqn:E; [simpl; lia|].
  cbn [N.to_uint].
  pose proof (string_of_uint_lower (Pos.to_uint p) (to_uint_head p)) as Hlow.
  assert (Num.digits_val (NilEmpty.string_of_uint (Pos.to_uint p)) = f) as Hval.
  { rewrite <- (digits_val_digits f) by lia. now rewrite digits_nilempty, E. }
  rewrite Hval in Hlow.
  destruct (Nat.le_gt_cases (String.length (NilEmpty.string_of_uint (Pos.to_uint p))) k)
    as [Hle|Hgt]; [assumption|exfalso].
  assert (10 ^ Z.of_nat k <= 10 ^ (Z.of_nat (String.length (NilEmpty.string_of_uint (Pos.to_uint p))) - 1))%Z
    by (apply Z.pow_le_mono_r; lia).
  lia.
Qed.

Lemma zeros_digits (n : nat) : Spec.all_chars is_digit (Num.zeros n) = true.
Proof. induction n; simpl; auto. Qed.

Lemma zeros_length (n : nat) : String.length (Num.zeros n) = n.
Proof. induction n; simpl; auto. Qed.

Lemma zeros_val (n : nat) (s : string) :
  Num.digits_val (Num.zeros n ++ s) = Num.digits_val s.
Proof. induction n as [|n IH]; [reflexivity|]. exact IH. Qed.

Lemma string_length_app (a b : string) :
  String.length (a ++ b) = String.length a + String.length b.
Proof. induction a as [|c a IH]; [reflexivity|]. simpl. now rewrite IH. Qed.

Lemma digits_val_app (a b : string) :
  Num.digits_val (a ++ b)
  = (Num.digits_val a * 10 ^ Z.of_nat (String.length b) + Num.digits_val b)%Z.
Proof.
  unfold Num.digits_val at 1. rewrite digits_val_from_app.
  now rewrite digits_val_from_shift.
Qed.

Lemma signed_abs (m : Z) (k : nat) :
  (if (m <? 0)%Z then Num.neg (Num.Dec (Z.abs m) k) else Num.Dec (Z.abs m) k)
  = Num.Dec m k.
Proof.
  unfold Num.neg. cbn [Num.mant Num.scale].
  destruct (Z.ltb_spec m 0); f_equal; lia.
Qed.

(** A float prints as a text that [float] reads back as the same number, up
    to the digits that [f"{x:.2f}"] shows. *)
Lemma float_of_float_repr (x : Num.dec) :
  exists y, Num.float_of_string (strip (Num.float_repr x)) = Some y /\
            Num.fmt2 y = Num.fmt2 x.
Proof.
  unfold Num.float_repr.
  pose proof (fmt2_normalize (Num.mant x) (Num.scale x)) as Hn.
  destruct (Num.normalize (Num.mant x) (Num.scale x)) as [m k].
  cbn [fst snd] in Hn. replace (Num.Dec (Num.mant x) (Num.scale x)) with x in Hn
    by now destruct x.
  set (a := Z.abs m). set (p := (10 ^ Z.of_nat k)%Z).
  assert (0 < p)%Z as Hp by (apply Z.pow_pos_nonneg; lia).
  set (frac := if k =? 0 then "0"%string else Num.pad_left k (Num.digits (a mod p))).
  assert (Spec.all_chars is_digit frac = true) as Hfrac.
  { unfold frac, Num.pad_left. destruct (k =? 0); [reflexivity|].
    rewrite all_chars_app, zeros_digits, digits_all_digit. reflexivity. }
  set (body := (Num.digits (a / p) ++ String "." frac)%string).
  assert (Spec.all_chars Num.num_char body = true) as Hbody.
  { unfold body. rewrite all_chars_app. cbn [Spec.all_chars].
    rewrite !digits_num_char; [reflexivity|assumption|apply digits_all_digit]. }
  assert (Num.parse_unsigned body
          = Some (Num.Dec (Num.digits_val (Num.digits (a / p) ++ frac))
                          (String.length frac))) as Hparse.
  { apply parse_decimal_text; [apply digits_all_digit|apply digits_nonempty|assumption]. }
  assert (Num.float_of_string (strip ((if (m <? 0)%Z then "-" else "") ++ body))
          = Num.float_of_string ((if (m <? 0)%Z then "-" else "") ++ body)) as Hstrip.
  { rewrite strip_no_space; [reflexivity|].
    apply (all_chars_weaken Num.num_char); [apply num_char_no_space|].
    destruct (m <? 0)%Z; simpl; assumption. }
  change ((if (m <? 0)%Z then "-" else "") ++ Num.digits (a / p) ++ "." ++ frac)%string
    with ((if (m <? 0)%Z then "-" else "") ++ body)%string.
  rewrite Hstrip.
  rewrite (float_of_string_signed _ body _ Hbody
             ltac:(unfold body; pose proof (digits_head (a / p)) as Hh;
                   destruct (Num.digits (a / p)); [contradiction|exact Hh])
             Hparse).
  eexists. split; [reflexivity|].
  rewrite <- Hn. rewrite digits_val_app.
  assert (0 <= a)%Z as Ha by (unfold a; lia).
  rewrite digits_val_digits by (apply Z.div_pos; lia).
  unfold frac. destruct (Nat.eqb_spec k 0) as [->|Hk].
  - change p with 1%Z. rewrite Z.div_1_r.
    change (a * 10 ^ Z.of_nat (String.length "0") + Num.digits_val "0")%Z
      with (a * 10 ^ 1 + 0)%Z.
    replace (a * 10 ^ 1 + 0)%Z with (10 * a)%Z by lia.
    change (String.length "0") with 1.
    rewrite <- (fmt2_scale_up m 0). f_equal.
    unfold Num.neg, a. cbn [Num.mant Num.scale].
    destruct (Z.ltb_spec m 0); f_equal; lia.
  - pose proof (Z.mod_pos_bound a p Hp) as Hf.
    pose proof (digits_length_bound (a mod p) k Hf ltac:(lia)) as Hlen.
    unfold Num.pad_left. rewrite zeros_val, string_length_app, zeros_length.
    replace (k - String.length (Num.digits (a mod p))
             + String.length (Num.digits (a mod p))) with k by lia.
    rewrite digits_val_digits by lia. fold p.
    replace (a / p * p + a mod p)%Z with a
      by (pose proof (Z.div_mod a p ltac:(lia)); lia).
    unfold a. now rewrite signed_abs.
Qed.

Lemma render_value_number (c : cell) :
  (forall z, c = Int z -> render_value c = Num.fmt2 (Num.of_int z)) /\
  (forall x, c = Float x -> render_value c = Num.fmt2 x).
Proof.
  split.
  - intros z ->. unfold render_value. cbn [notna str_nan py_str].
    now rewrite float_of_int_repr.
  - intros x ->. unfold render_value. cbn [notna str_nan py_str].
    destruct (float_of_float_repr x) as (y & Hy & Hf). now rewrite Hy.
Qed.

(** ** extract_po_evaluation_table *)

Lemma eval_header_spec (r : row) :
  eval_header r = Spec.nonempty_trimmed (skipn 4 r).
Proof.
  unfold eval_header, Spec.nonempty_trimmed.
  induction (skipn 4 r) as [|c l IH]; [reflexivity|].
  simpl. destruct (notna c); simpl; [|assumption].
  destruct (String.eqb (strip (str_nan c)) ""); simpl; now rewrite IH.
Qed.

Lemma first_some_seq_first {B : Type} (f : nat -> option B) (a n i : nat) (y : B) :
  a <= i < a + n -> f i = Some y ->
  (forall j, a <= j < i -> f j = None) ->
  first_some f (seq a n) = Some y.
Proof.
  revert a; induction n as [|n IH]; intros a Hi Hy Hlo; [lia|].
  simpl. destruct (Nat.eq_dec a i) as [->|Hne].
  - now rewrite Hy.
  - rewrite (Hlo a) by lia. apply IH; [lia|assumption|].
    intros j Hj. apply Hlo. lia.
Qed.

Lemma first_some_seq_none {B : Type} (f : nat -> option B) (a n : nat) :
  (forall j, a <= j < a + n -> f j = None) ->
  first_some f (seq a n) = None.
Proof.
  revert a; induction n as [|n IH]; intros a H; [reflexivity|].
  simpl. rewrite (H a) by lia. apply IH. intros j Hj. apply H. lia.
Qed.

Lemma po_eval_at_unqualified (df : frame) (j : nat) :
  Spec.qualifies df j = false -> po_eval_at df j = None.
Proof.
  unfold Spec.qualifies, Spec.marker_row, po_eval_at, has_po_attainment_text.
  rewrite eval_header_spec.
  destruct (existsb _ (nth j df [])); [|reflexivity].
  destruct (j + 4 <? length df); [|reflexivity].
  destruct (Spec.nonempty_trimmed _); [reflexivity|discriminate].
Qed.

Lemma nonempty_trimmed_length (r : row) :
  length (Spec.nonempty_trimmed r) <= length r.
Proof.
  unfold Spec.nonempty_trimmed.
  etransitivity; [apply filter_length_le|].
  rewrite length_map. apply filter_length_le.
Qed.

Lemma po_eval_at_qualified (df : frame) (i : nat) :
  Spec.rect df -> Spec.qualifies df i = true ->
  po_eval_at df i
  = Some (Spec.nonempty_trimmed (skipn 4 (nth (i + 3) df [])),
          map render_value
              (firstn (length (Spec.nonempty_trimmed (skipn 4 (nth (i + 3) df []))))
                      (skipn 4 (nth (i + 4) df [])))).
Proof.
  intros [w Hw] Hq. rewrite Forall_forall in Hw.
  unfold Spec.qualifies, Spec.marker_row in Hq.
  apply andb_prop in Hq as [Hq Hne]. apply andb_prop in Hq as [Hm Hr].
  unfold po_eval_at, has_po_attainment_text. rewrite Hm, Hr.
  rewrite eval_header_spec.
  apply Nat.ltb_lt in Hr.
  set (header := Spec.nonempty_trimmed (skipn 4 (nth (i + 3) df []))) in *.
  assert (0 < length header) as Hh by (destruct header; [discriminate|simpl; lia]).
  pose proof (nonempty_trimmed_length (skipn 4 (nth (i + 3) df []))) as Hle.
  fold header in Hle. rewrite length_skipn in Hle.
  rewrite (Hw (nth (i + 3) df [])) in Hle by (apply nth_In; lia).
  assert (length (skipn 4 (nth (i + 4) df [])) = w - 4) as Hd.
  { rewrite length_skipn. f_equal. apply Hw, nth_In. lia. }
  rewrite length_map, length_firstn, Hd.
  destruct (Nat.ltb_spec 0 (length header)); [|lia].
  destruct (Nat.ltb_spec 0 (Nat.min (length header) (w - 4))); [reflexivity|lia].
Qed.

Lemma render_value_cases (c : cell) :
  (c = Absent -> render_value c = "-"%string) /\
  (forall z, c = Int z ->
             render_value c = Num.fmt2 (Num.of_int z) /\
             Spec.two_decimals (render_value c)) /\
  (forall x, c = Float x ->
             render_value c = Num.fmt2 x /\ Spec.two_decimals (render_value c)) /\
  (forall x, notna c = true ->
             Num.float_of_string (strip (str_nan c)) = Some x ->
             render_value c = Num.fmt2 x /\ Spec.two_decimals (render_value c)) /\
  (notna c = true -> Num.float_of_string (strip (str_nan c)) = None ->
   render_value c = strip (str_nan c)).
Proof.
  split; [now intros ->|].
  split; [|split; [|split]].
  - intros z Hc. rewrite (proj1 (render_value_number c) z Hc).
    split; [reflexivity|apply fmt2_two_decimals].
  - intros x Hc. rewrite (proj2 (render_value_number c) x Hc).
    split; [reflexivity|apply fmt2_two_decimals].
  - intros x Hn Hp. unfold render_value. rewrite Hn, Hp.
    split; [reflexivity|apply fmt2_two_decimals].
  - intros Hn Hp. unfold render_value. now rewrite Hn, Hp.
Qed.

(** C3, amended. Let [i] be the first row of the sheet "CO Attainment" that
    has a cell whose text contains "PO Attainment", with row [i + 4] within
    the sheet and with a non-empty trimmed cell in row [i + 3] from column 4
    on.  Then [extract_po_evaluation_table] returns the header made of the
    non-empty trimmed cells of row [i + 3] from column 4 on and the data made
    of the cells of row [i + 4] from column 4 on, as many as the header has: an
    absent cell gives "-", a number, or a text that parses as a number, gives
    that number with exactly 2 decimal places, any other cell its trimmed
    text.
    When no row is such a row the result is [None]. *)
Theorem c3_po_evaluation :
  forall (df : frame),
    Spec.rect df ->
    (forall i,
        Spec.qualifies df i = true ->
        (forall j, j < i -> Spec.qualifies df j = false) ->
        let header := Spec.nonempty_trimmed (skipn 4 (nth (i + 3) df [])) in
        let cells := firstn (length header) (skipn 4 (nth (i + 4) df [])) in
        extract_po_evaluation_table df = Some (header, map render_value cells) /\
        (forall c, In c cells ->
           (c = Absent -> render_value c = "-"%string) /\
           (forall z, c = Int z ->
                      render_value c = Num.fmt2 (Num.of_int z) /\
                      Spec.two_decimals (render_value c)) /\
           (forall x, c = Float x ->
                      render_value c = Num.fmt2 x /\
                      Spec.two_decimals (render_value c)) /\
           (forall x, notna c = true ->
                      Num.float_of_string (strip (str_nan c)) = Some x ->
                      render_value c = Num.fmt2 x /\
                      Spec.two_decimals (render_value c)) /\
           (notna c = true -> Num.float_of_string (strip (str_nan c)) = None ->
            render_value c = strip (str_nan c))))
    /\
    ((forall j, j < length df -> Spec.qualifies df j = false) ->
     extract_po_evaluation_table df = None).
Proof.
  intros df Hrect. split.
  - intros i Hq Hfirst header cells. split.
    + unfold extract_po_evaluation_table.
      apply (first_some_seq_first _ 0 (length df) i).
      * unfold Spec.qualifies in Hq.
        apply andb_prop in Hq as [Hq _]. apply andb_prop in Hq as [_ Hr].
        apply Nat.ltb_lt in Hr. lia.
      * now apply po_eval_at_qualified.
      * intros j Hj. apply po_eval_at_unqualified, Hfirst. lia.
    + intros c _. apply render_value_cases.
  - intros Hnone. unfold extract_po_evaluation_table.
    apply first_some_seq_none. intros j Hj. apply po_eval_at_unqualified, Hnone. lia.
Qed.

Lemma c3_po_evaluation_witness :
  extract_po_evaluation_table po_eval_sheet
  = Some (["PO1"; "PO2"]%string, ["75.00"; "80.00"]%string).
Proof.
  refine (proj1 (proj1 (c3_po_evaluation po_eval_sheet _) 10 eq_refl _)).
  - exists 6. repeat constructor.
  - intros j Hj. do 10 (destruct j as [|j]; [reflexivity|]). lia.
Defined.

(** C3 as stated fails: in [po_eval_blank_sheet] row 0 has the marker and row
    4 is within the sheet, the header of row 3 from column 4 on is empty, and
    the result is [None], not the pair of an empty header and empty data; in
    [po_eval_twice_sheet] rows 0 and 1 both have the marker with four rows
    below, and the result is read below row 0, not below row 1. *)
Lemma c3_counterexample :
  Spec.marker_row po_eval_blank_sheet 0 = true /\
  0 + 4 < length po_eval_blank_sheet /\
  Spec.nonempty_trimmed (skipn 4 (nth 3 po_eval_blank_sheet [])) = [] /\
  extract_po_evaluation_table po_eval_blank_sheet = None /\
  Spec.marker_row po_eval_twice_sheet 1 = true /\
  1 + 4 < length po_eval_twice_sheet /\
  Spec.nonempty_trimmed (skipn 4 (nth (1 + 3) po_eval_twice_sheet [])) = ["PO2"%string] /\
  extract_po_evaluation_table po_eval_twice_sheet
  = Some (["PO1"%string], ["PO2"%string]).
Proof. repeat split; vm_compute; repeat constructor. Qed.

(** ** Summary values *)

Lemma find_pointwise {A : Type} (p q : A -> bool) (l : list A) :
  (forall x, p x = q x) -> find p l = find q l.
Proof.
  intros H. induction l as [|x l IH]; [reflexivity|].
  simpl. now rewrite H, IH.
Qed.

Lemma find_skip {A : Type} (p : A -> bool) (l1 l2 : list A) :
  (forall x, In x l1 -> p x = false) -> find p (l1 ++ l2) = find p l2.
Proof.
  intros H. induction l1 as [|x l1 IH]; [reflexivity|].
  simpl. rewrite (H x) by now left. apply IH. intros y Hy. apply H. now right.
Qed.

Lemma find_split {A : Type} (p : A -> bool) (l : list A) (x : A) :
  find p l = Some x <->
  exists pre post, l = pre ++ x :: post /\ p x = true /\
                   forall y, In y pre -> p y = false.
Proof.
  split.
  - revert x; induction l as [|y l IH]; intros x H; [discriminate|].
    simpl in H. destruct (p y) eqn:Hy.
    + injection H as <-. exists [], l. repeat split; [assumption|intros z []].
    + destruct (IH x H) as (pre & post & -> & Hx & Hpre).
      exists (y :: pre), post. repeat split; [assumption|].
      intros z [<-|Hz]; [assumption|now apply Hpre].
  - intros (pre & post & -> & Hx & Hpre).
    rewrite find_skip by assumption. simpl. now rewrite Hx.
Qed.

Lemma find_none_iff {A : Type} (p : A -> bool) (l : list A) :
  find p l = None <-> forall x, In x l -> p x = false.
Proof.
  split.
  - intros H x Hx. now apply (find_none p l H).
  - intros H. rewrite <- (app_nil_r l). now rewrite find_skip.
Qed.

Lemma row_has_label_spec (label : string) (r : row) :
  row_has_label label r = Spec.has_label label r.
Proof. now destruct r. Qed.

Lemma find_last_number (r : row) (v : cell) :
  find is_number (rev r) = Some v <-> Spec.last_number r v.
Proof.
  unfold Spec.last_number. rewrite find_split. split.
  - intros (pre & post & Hr & Hv & Hpre).
    exists (rev post), (rev pre). repeat split; [|assumption|].
    + rewrite <- (rev_involutive r), Hr, rev_app_distr. simpl.
      now rewrite <- app_assoc.
    + intros c Hc. apply Hpre. now apply in_rev in Hc.
  - intros (a & b & -> & Hv & Hb).
    exists (rev b), (rev a). repeat split; [|assumption|].
    + rewrite rev_app_distr. simpl. now rewrite <- app_assoc.
    + intros c Hc. apply Hb. now apply in_rev.
Qed.

Lemma find_no_number (r : row) :
  find is_number (rev r) = None <-> Spec.no_number r.
Proof.
  unfold Spec.no_number. rewrite find_none_iff. split.
  - intros H c Hc. apply H. now apply in_rev in Hc.
  - intros H c Hc. apply H. now apply in_rev.
Qed.

Lemma attainment_scan_spec (label : string) (sheet : frame) :
  attainment_scan label sheet = Spec.labeled_value is_number label sheet.
Proof.
  unfold attainment_scan, Spec.labeled_value.
  now rewrite (find_pointwise _ _ sheet (row_has_label_spec label)).
Qed.

Lemma target_label_spec (r : row) :
  existsb (fun s => contains "number of students scoring >=" (lower s))
          (map (fun c => match c with
                         | Absent => ""%string
                         | _ => strip (str_none c)
                         end) r)
  = Spec.has_target_label r.
Proof.
  unfold Spec.has_target_label.
  induction r as [|c r IH]; [reflexivity|].
  cbn [map existsb]. rewrite IH. now destruct c.
Qed.

Lemma extract_target_value_unfold (r : row) (rest : frame) :
  extract_target_value (r :: rest)
  = if Spec.has_target_label r
    then match find is_number r with
         | Some (Int z) => Num.int_repr z
         | Some (Float x) => Num.fmt2 x
         | _ => extract_target_value rest
         end
    else extract_target_value rest.
Proof. cbn [extract_target_value]. now rewrite target_label_spec. Qed.

Lemma find_number_none (r : row) :
  existsb is_number r = false -> find is_number r = None.
Proof.
  intros H. apply find_none_iff. intros c Hc.
  destruct (is_number c) eqn:E; [|reflexivity].
  rewrite <- H. symmetry. apply existsb_exists. now exists c.
Qed.

Lemma extract_target_value_skip (pre rest : frame) :
  (forall r, In r pre -> Spec.has_target_label r && existsb is_number r = false) ->
  extract_target_value (pre ++ rest) = extract_target_value rest.
Proof.
  intros H. induction pre as [|r pre IH]; [reflexivity|].
  rewrite <- app_comm_cons, extract_target_value_unfold.
  rewrite IH by (intros r' Hr'; apply H; now right).
  pose proof (H r (or_introl eq_refl)) as Hr.
  destruct (Spec.has_target_label r); [|reflexivity].
  simpl in Hr. now rewrite (find_number_none r Hr).
Qed.

(** C7, amended. The attainment-level scans over "Attainment Level",
    "Target Level" and "Final attainment level" (and over any label) take the
    first row, top to bottom, with a cell whose text contains the label,
    case-sensitively, and return the last number of that row, the first in
    reverse order, a number being an [int] or a [float] and not a numeric
    text; the result is [None] when no row has the label or that row has no
    number.  The target-value scan differs: it takes the first row
    that has a cell whose trimmed text contains, in any letter case,
    "number of students scoring >=" and that holds a number, returns the text
    of the first number of that row in the order of the row, and returns "-"
    when there is no such row.  None of them raises. *)
Theorem c7_summary_values :
  forall (label : string) (sheet : frame),
    external_attainment sheet = Spec.labeled_value is_number "Attainment Level" sheet /\
    internal_attainment sheet = Spec.labeled_value is_number "Target Level" sheet /\
    exit_survey_attainment sheet = Spec.labeled_value is_number "Final attainment level" sheet /\
    attainment_scan label sheet = Spec.labeled_value is_number label sheet /\
    (forall v,
        attainment_scan label sheet = Some v <->
        exists r, Spec.first_row_with (Spec.has_label label) sheet r /\
                  Spec.last_number r v) /\
    (attainment_scan label sheet = None <->
       (forall r, In r sheet -> Spec.has_label label r = false) \/
       exists r, Spec.first_row_with (Spec.has_label label) sheet r /\
                 Spec.no_number r) /\
    (forall r v,
        Spec.first_row_with
          (fun r => Spec.has_target_label r && existsb is_number r) sheet r ->
        Spec.first_number r v ->
        extract_target_value sheet = Spec.target_text v) /\
    ((forall r, In r sheet ->
                Spec.has_target_label r && existsb is_number r = false) ->
     extract_target_value sheet = "-"%string).
Proof.
  intros label sheet.
  do 4 (split; [apply attainment_scan_spec|]).
  split; [|split; [|split]].
  - intros v. rewrite attainment_scan_spec. unfold Spec.labeled_value, Spec.first_row_with.
    split.
    + destruct (find (Spec.has_label label) sheet) as [r|] eqn:E; [|discriminate].
      intros Hv. exists r. split; [now apply find_split|now apply find_last_number].
    + intros (r & Hr & Hv). apply find_split in Hr. rewrite Hr.
      now apply find_last_number.
  - rewrite attainment_scan_spec. unfold Spec.labeled_value, Spec.first_row_with.
    split.
    + destruct (find (Spec.has_label label) sheet) as [r|] eqn:E.
      * intros Hn. right. exists r. split; [now apply find_split|now apply find_no_number].
      * intros _. left. now apply find_none_iff.
    + intros [Hnone|(r & Hr & Hn)].
      * apply find_none_iff in Hnone. now rewrite Hnone.
      * apply find_split in Hr. rewrite Hr. now apply find_no_number.
  - intros r v (pre & post & -> & Hr & Hpre) (a & b & -> & Hv & Ha).
    rewrite extract_target_value_skip by assumption.
    rewrite extract_target_value_unfold.
    apply andb_prop in Hr as [Hl _]. rewrite Hl.
    rewrite find_skip by assumption. simpl. rewrite Hv.
    destruct v; try discriminate; reflexivity.
  - intros Hnone. rewrite <- (app_nil_r sheet).
    now rewrite extract_target_value_skip.
Qed.

Lemma c7_summary_values_witness :
  extract_target_value target_sheet = "42"%string.
Proof.
  apply (proj1 (proj2 (proj2 (proj2 (proj2 (proj2 (proj2
           (c7_summary_values "" target_sheet)))))))
               [Text "Number of students scoring >= Target Value"; Int 42; Text "ignored"]
               (Int 42)).
  - exists [], []. repeat split. intros r' [].
  - exists [Text "Number of students scoring >= Target Value"], [Text "ignored"].
    repeat split. intros c [<-|[]]. reflexivity.
Defined.

(** C7 as stated fails for the target-value scan: it finds the label written
    with a capital, where a case-sensitive search for
    "number of students scoring >=" finds no row; it returns the first number
    of the row, not the last; and it goes on to a later labelled row when the
    first one has no number.  The attainment-level scans take a cell that is a
    number, not one that parses as a number: a numeric text is passed over. *)
Lemma c7_counterexample :
  extract_target_value target_sheet = "42"%string /\
  Spec.labeled_value Spec.parses "number of students scoring >=" target_sheet = None /\
  extract_target_value target_two_numbers_sheet = "1"%string /\
  Spec.labeled_value Spec.parses "number of students scoring >=" target_two_numbers_sheet
  = Some (Int 2) /\
  extract_target_value target_later_sheet = "5"%string /\
  Spec.labeled_value Spec.parses "number of students scoring >=" target_later_sheet = None /\
  external_attainment text_number_sheet = Some (Int 3) /\
  Spec.labeled_value Spec.parses "Attainment Level" text_number_sheet
  = Some (Text "2.5").
Proof. repeat split. Qed.

(** ** The scenarios of the specification, computed *)

Example scenario_table :
  extract_co_mapping scenario "CO Attainment" "PO"
  = Ok (Table "Mapping of CO with POs:" ["CO"; "PO1"; "PO2"]%string
          [ [Text "CO1"; Float (Num.Dec 333 2); Text "-"];
            [Text "CO2"; Text "-"; Float (Num.Dec 267 2)] ]).
Proof. reflexivity. Qed.

Example scenario_po_attainment :
  extract_po_attainment narrow_header_sheet
  = Ok (Some (PoTable "PO Attainment Table:"
                [Text "CO"; Text "PO1"; Text "PO2"; Text "PO3"]
                [ [Text "CO1"; Float (Num.Dec 250 2); Float (Num.Dec 200 2);
                   Float (Num.Dec 150 2)] ])).
Proof. reflexivity. Qed.

Example scenario_attainment_level :
  external_attainment attainment_sheet = Some (Float (Num.Dec 25 1)) /\
  internal_attainment attainment_sheet = None /\
  extract_target_value attainment_sheet = "-"%string.
Proof. repeat split. Qed.

(** * Further properties of the code *)

(** ** Dropping the empty columns *)

Lemma skipn_cons_nth {A : Type} (d : A) (j : nat) (l : list A) (x : A) (t : list A) :
  skipn j l = x :: t -> nth j l d = x /\ skipn (S j) l = t.
Proof.
  revert l; induction j as [|j IH]; intros [|y l] H; try discriminate.
  - now injection H as -> ->.
  - now apply IH.
Qed.

Lemma select_columns_notna (df : frame) (r0 : row) :
  In r0 df ->
  forall (j : nat) (r : row),
    skipn j r0 = r ->
    filter notna (select_columns (column_kept df) j r) = filter notna r.
Proof.
  intros Hin j r; revert j. induction r as [|c r IH]; intros j Hr; [reflexivity|].
  apply (skipn_cons_nth Absent) in Hr as [Hc Hr].
  simpl. destruct (notna c) eqn:Hn.
  - assert (column_kept df j = true) as ->.
    { apply existsb_exists. exists r0. split; [assumption|now rewrite Hc]. }
    simpl. rewrite Hn. f_equal. now apply IH.
  - destruct (column_kept df j); simpl; rewrite ?Hn; now apply IH.
Qed.

Lemma find_index_map_ext {A B : Type} (p : B -> bool) (q : A -> bool) (f : A -> B)
      (l : list A) :
  (forall x, In x l -> p (f x) = q x) ->
  find_index p (map f l) = find_index q l.
Proof.
  induction l as [|x l IH]; intros H; [reflexivity|].
  simpl. rewrite (H x) by now left. rewrite IH; [reflexivity|].
  intros y Hy. apply H. now right.
Qed.

(** X1. Dropping the all-empty columns changes nothing for a row test that
    looks only at the cells that are not absent: the header row and the stop
    row are found at the same index with or without [dropna]. *)
Theorem dropna_columns_keeps_row_tests :
  forall (df : frame) (prefix : string),
    (forall r, In r df ->
       filter notna (select_columns (column_kept df) 0 r) = filter notna r) /\
    find_index (is_co_header prefix) (dropna_columns df)
    = find_index (is_co_header prefix) df /\
    find_index is_co_pso_header (dropna_columns df)
    = find_index is_co_pso_header df /\
    find_index is_po_attainment_row (dropna_columns df)
    = find_index is_po_attainment_row df.
Proof.
  intros df prefix.
  assert (forall r, In r df ->
            filter notna (select_columns (column_kept df) 0 r) = filter notna r) as Hv.
  { intros r Hr. now apply (select_columns_notna df r Hr 0 r). }
  split; [exact Hv|].
  unfold dropna_columns.
  repeat split; apply find_index_map_ext; intros r Hr.
  - unfold is_co_header, vals. now rewrite Hv.
  - unfold is_co_pso_header, vals. now rewrite Hv.
  - unfold is_po_attainment_row. now rewrite Hv.
Qed.

Lemma select_columns_source (keep : nat -> bool) (j : nat) (r : row) (i : nat) :
  i < length (select_columns keep j r) ->
  exists k, k < length r /\ keep (j + k) = true /\
            forall r2 : row, length r2 = length r ->
                             nth i (select_columns keep j r2) Absent = nth k r2 Absent.
Proof.
  revert j i; induction r as [|c r IH]; intros j i Hi; [simpl in Hi; lia|].
  simpl in Hi. destruct (keep j) eqn:Hk.
  - destruct i as [|i].
    + exists 0. rewrite Nat.add_0_r. repeat split; [simpl; lia|assumption|].
      intros [|c2 r2] H2; [discriminate|]. simpl. now rewrite Hk.
    + simpl in Hi. destruct (IH (S j) i ltac:(lia)) as (k & Hlt & Hkeep & Hnth).
      exists (S k). repeat split; [simpl; lia| |].
      * now replace (j + S k) with (S j + k) by lia.
      * intros [|c2 r2] H2; [discriminate|]. simpl. rewrite Hk. simpl.
        apply Hnth. simpl in H2. lia.
  - destruct (IH (S j) i Hi) as (k & Hlt & Hkeep & Hnth).
    exists (S k). repeat split; [simpl; lia| |].
    + now replace (j + S k) with (S j + k) by lia.
    + intros [|c2 r2] H2; [discriminate|]. simpl. rewrite Hk.
      apply Hnth. simpl in H2. lia.
Qed.

Lemma select_columns_all (keep : nat -> bool) (j : nat) (r : row) :
  (forall i, i < length r -> keep (j + i) = true) ->
  select_columns keep j r = r.
Proof.
  revert j; induction r as [|c r IH]; intros j H; [reflexivity|].
  simpl. pose proof (H 0 ltac:(simpl; lia)) as H0. rewrite Nat.add_0_r in H0.
  rewrite H0. f_equal. apply IH. intros i Hi.
  replace (S j + i) with (j + S i) by lia. apply H. simpl. lia.
Qed.

(** X2. After [dropna(axis=1, how='all')] on a rectangular sheet every column
    that is left holds a value in some row, so that dropping again changes
    nothing. *)
Theorem dropna_columns_idempotent :
  forall (df : frame),
    Spec.rect df ->
    (forall r j, In r (dropna_columns df) -> j < length r ->
                 column_kept (dropna_columns df) j = true) /\
    dropna_columns (dropna_columns df) = dropna_columns df.
Proof.
  intros df [w Hw]. rewrite Forall_forall in Hw.
  assert (forall r j, In r (dropna_columns df) -> j < length r ->
                      column_kept (dropna_columns df) j = true) as Hkept.
  { intros r' j Hr' Hj. unfold dropna_columns in Hr'.
    apply in_map_iff in Hr' as (r & <- & Hr).
    destruct (select_columns_source _ 0 r j Hj) as (k & Hk & Hkeep & Hnth).
    simpl in Hkeep. unfold column_kept in Hkeep.
    apply existsb_exists in Hkeep as (r0 & Hr0 & Hn).
    apply existsb_exists. exists (select_columns (column_kept df) 0 r0). split.
    - unfold dropna_columns. now apply in_map.
    - rewrite Hnth; [assumption|]. now rewrite (Hw r0 Hr0), (Hw r Hr). }
  split; [exact Hkept|].
  transitivity (map (fun r : row => r) (dropna_columns df)); [|apply map_id].
  unfold dropna_columns at 1.
  apply map_ext_in. intros r Hr. apply select_columns_all.
  intros i Hi. simpl. now apply (Hkept r).
Qed.

Lemma dropna_columns_idempotent_witness :
  dropna_columns (dropna_columns po_eval_blank_sheet) = dropna_columns po_eval_blank_sheet.
Proof.
  apply (dropna_columns_idempotent po_eval_blank_sheet).
  exists 6. repeat constructor.
Defined.

(** ** The columns of a returned table *)

Lemma vals_length (r : row) : length (vals r) <= length r.
Proof. unfold vals. rewrite length_map. apply filter_length_le. Qed.

Lemma co_header_two_cells (prefix : string) (r : row) :
  is_co_header prefix r = true -> 2 <= length r.
Proof.
  intros H. pose proof (vals_length r) as Hl. unfold is_co_header in H.
  destruct (vals r) as [|v0 [|v1 l]]; try discriminate. simpl in Hl. lia.
Qed.

Lemma co_pso_header_two_cells (r : row) :
  is_co_pso_header r = true -> 2 <= length r.
Proof.
  intros H. pose proof (vals_length r) as Hl. unfold is_co_pso_header in H.
  destruct (vals r) as [|v0 [|v1 l]]; try discriminate. simpl in Hl. lia.
Qed.

Lemma upper_idempotent (s : string) : upper (upper s) = upper s.
Proof. now rewrite <- (upper_lower (upper s)), lower_upper, upper_lower. Qed.

(** The first label after normalization, when the header row has a value in
    its first column. *)
Lemma normalize_header_first (prefix : string) (c : cell) (r : row) :
  notna c = true -> is_co_header prefix (c :: r) = true ->
  upper (hd ""%string (normalize_header prefix (c :: r))) = "CO"%string.
Proof.
  intros Hc H. unfold is_co_header, vals in H. simpl in H. rewrite Hc in H.
  simpl in H. destruct (map _ (filter notna r)) as [|v1 l]; [discriminate|].
  apply andb_prop in H as [H _].
  unfold normalize_header. cbn [map].
  destruct (String.eqb_spec (upper (strip (str_nan c))) (prefix ++ "1")) as [E|E].
  - reflexivity.
  - simpl. rewrite orb_false_r in H. now apply String.eqb_eq in H.
Qed.

(** X3. A table returned by [extract_co_mapping] or [extract_co_pso_mapping]
    has at least two columns and pairwise distinct column labels; the first
    label of [extract_co_pso_mapping] is "Course Outcomes", and the first label
    of [extract_co_mapping] reads "CO" in upper case whenever the header row
    has a value in the first column that is left. *)
Theorem returned_table_columns :
  forall (df : frame) (sheet_name prefix : string) (t : table),
    (extract_co_mapping df sheet_name prefix = Ok t ->
       2 <= length (columns t) /\ NoDup (columns t) /\
       heading t = ("Mapping of CO with " ++ prefix ++ "s:")%string /\
       forall h, find_index (is_co_header prefix) (dropna_columns df) = Some h ->
                 notna (hd Absent (nth h (dropna_columns df) [])) = true ->
                 upper (hd ""%string (columns t)) = "CO"%string) /\
    (extract_co_pso_mapping df sheet_name = Ok t ->
       2 <= length (columns t) /\ NoDup (columns t) /\
       hd ""%string (columns t) = "Course Outcomes"%string).
Proof.
  intros df sheet_name prefix t. split; intros Hok.
  - apply extract_co_mapping_ok in Hok as (h & Hh & Hnd & ->). cbn [columns heading].
    pose proof (find_index_some _ ([] : row) _ _ Hh) as (_ & Hrow & _).
    repeat split; [|assumption|].
    + rewrite normalize_header_length. now apply (co_header_two_cells prefix).
    + intros h' Hh' Hc. rewrite Hh in Hh'. injection Hh' as <-.
      destruct (nth h (dropna_columns df) []) as [|c r]; [discriminate|].
      now apply normalize_header_first.
  - apply extract_co_pso_mapping_ok in Hok as (h & Hh & Hnd & ->). cbn [columns].
    pose proof (find_index_some _ ([] : row) _ _ Hh) as (_ & Hrow & _).
    pose proof (co_pso_header_two_cells _ Hrow) as Hlen.
    repeat split; [|assumption|].
    + now rewrite pso_header_length.
    + unfold pso_header. destruct (nth h (dropna_columns df) []); [simpl in Hlen; lia|reflexivity].
Qed.

Lemma returned_table_columns_witness :
  2 <= length ["CO"; "PO1"; "PO2"]%string /\ NoDup ["CO"; "PO1"; "PO2"]%string.
Proof.
  destruct (proj1 (returned_table_columns scenario "CO Attainment" "PO"
              (Table "Mapping of CO with POs:" ["CO"; "PO1"; "PO2"]%string
                 [ [Text "CO1"; Float (Num.Dec 333 2); Text "-"];
                   [Text "CO2"; Text "-"; Float (Num.Dec 267 2)] ])) eq_refl)
    as (H1 & H2 & _).
  split; assumption.
Defined.

(** ** Filling and rounding again *)

Lemma round2_idempotent (x : Num.dec) : Num.round2 (Num.round2 x) = Num.round2 x.
Proof.
  assert (forall h, Num.round2 (Num.Dec h 2) = Num.Dec h 2) as H.
  { intros h. unfold Num.round2. cbn. f_equal. lia. }
  assert (exists h, Num.round2 x = Num.Dec h 2) as [h ->]; [|apply H].
  unfold Num.round2. destruct (Num.scale x <=? 2); eexists; reflexivity.
Qed.

Lemma round_fill_idempotent (int64 : bool) (c : cell) :
  round_fill int64 (round_fill int64 c) = round_fill int64 c.
Proof.
  unfold round_fill at 2 3.
  destruct (to_numeric c) as [z|x|]; [destruct int64| |]; try reflexivity;
    unfold round_fill; cbn [to_numeric]; now rewrite round2_idempotent.
Qed.

(** A converted value is an integer when the cell held one and the column
    was a column of integers. *)
Lemma is_int_round_fill (int64 : bool) (c : cell) :
  is_int (to_numeric (round_fill int64 c)) = is_int (to_numeric c) && int64.
Proof.
  unfold round_fill.
  destruct (to_numeric c) as [z|x|]; [destruct int64| |]; reflexivity.
Qed.

Lemma forallb_pointwise {A : Type} (p q : A -> bool) (l : list A) :
  (forall x, p x = q x) -> forallb p l = forallb q l.
Proof.
  intros H. induction l as [|x l IH]; [reflexivity|]. simpl. now rewrite H, IH.
Qed.

Lemma forallb_of_map {A B : Type} (p : B -> bool) (f : A -> B) (l : list A) :
  forallb p (map f l) = forallb (fun x => p (f x)) l.
Proof. induction l as [|x l IH]; [reflexivity|]. simpl. now rewrite IH. Qed.

Lemma forallb_and_self {A : Type} (p : A -> bool) (l : list A) :
  forallb (fun x => p x && forallb p l) l = forallb p l.
Proof.
  destruct (forallb p l) eqn:E.
  - transitivity (forallb p l); [|exact E].
    apply forallb_pointwise. intros x. apply andb_true_r.
  - destruct l as [|x l]; [discriminate|]. simpl. now rewrite andb_false_r.
Qed.

(** Converting leaves the dtype of every column as it was. *)
Lemma is_int64_fill_round (j : nat) (data : frame) :
  1 <= j -> is_int64 (column j (fill_round data)) = is_int64 (column j data).
Proof.
  intros Hj. unfold is_int64 at 1. unfold column at 1, fill_round.
  rewrite map_map, forallb_of_map.
  set (b := is_int64 (column j data)).
  transitivity (forallb (fun r => is_int (to_numeric (nth j r Absent)) && b) data).
  - apply forallb_pointwise. intros r. unfold fill_round_row, mapi.
    destruct (Nat.lt_ge_cases j (length r)) as [Hlt|Hge].
    + rewrite (nth_mapi_from _ 0 j r Absent Absent Hlt). cbn [Nat.add].
      destruct j as [|j]; [lia|]. cbn [Nat.eqb].
      fold b. apply is_int_round_fill.
    + rewrite nth_mapi_from_beyond by assumption.
      now rewrite (nth_overflow r Absent Hge).
  - unfold b, is_int64, column. rewrite forallb_of_map.
    apply (forallb_and_self (fun r => is_int (to_numeric (nth j r Absent)))).
Qed.

Lemma fillna_idempotent (c : cell) : fillna (fillna c) = fillna c.
Proof. now destruct c. Qed.

Lemma fill_round_idempotent (data : frame) :
  fill_round (fill_round data) = fill_round data.
Proof.
  unfold fill_round at 1 3. unfold fill_round at 2. rewrite map_map.
  apply map_ext. intros r. unfold fill_round_row, mapi.
  rewrite mapi_from_mapi_from. apply mapi_from_ext. intros j c _.
  destruct j as [|j]; cbn [Nat.eqb].
  - apply fillna_idempotent.
  - rewrite is_int64_fill_round by lia. apply round_fill_idempotent.
Qed.

(** X4. The fill-and-round step of lines 68 to 72 has nothing left to do on a
    table that was returned: run on its rows with its column labels it
    succeeds and gives the same rows back. *)
Theorem fill_and_round_again :
  forall (df : frame) (sheet_name prefix : string) (t : table),
    extract_co_mapping df sheet_name prefix = Ok t \/
    extract_co_pso_mapping df sheet_name = Ok t ->
    round_numeric_columns (columns t) (tl (columns t)) (map (map fillna) (rows t))
    = Ok (rows t).
Proof.
  intros df sheet_name prefix t Hok.
  assert (exists header kept,
             NoDup header /\ columns t = header /\
             rows t = fill_round (map (firstn (length header)) kept))
    as (header & kept & Hnd & -> & ->).
  { destruct Hok as [Hok|Hok].
    - apply extract_co_mapping_ok in Hok as (h & _ & Hnd & ->).
      eexists _, _. now repeat split.
    - apply extract_co_pso_mapping_ok in Hok as (h & _ & Hnd & ->).
      eexists _, _. now repeat split. }
  rewrite round_filled; [|assumption|].
  - now rewrite fill_round_idempotent.
  - unfold fill_round. rewrite Forall_map.
    pose proof (firstn_bounded (length header) kept) as Hb.
    revert Hb. apply Forall_impl. intros r Hr. now rewrite fill_round_row_length.
Qed.

Lemma fill_and_round_again_witness :
  round_numeric_columns ["CO"; "PO1"; "PO2"]%string ["PO1"; "PO2"]%string
    [ [Text "CO1"; Float (Num.Dec 333 2); Text "-"];
      [Text "CO2"; Text "-"; Float (Num.Dec 267 2)] ]
  = Ok [ [Text "CO1"; Float (Num.Dec 333 2); Text "-"];
         [Text "CO2"; Text "-"; Float (Num.Dec 267 2)] ].
Proof.
  apply (fill_and_round_again scenario "CO Attainment" "PO"
           (Table "Mapping of CO with POs:" ["CO"; "PO1"; "PO2"]%string
              [ [Text "CO1"; Float (Num.Dec 333 2); Text "-"];
                [Text "CO2"; Text "-"; Float (Num.Dec 267 2)] ])).
  left. reflexivity.
Defined.

(** ** extract_po_attainment: its table and its only exception *)

(** X5. The table of [extract_po_attainment] has the heading
    "PO Attainment Table:" and exactly one row; no column label is absent;
    the row never has more values than there are column labels, and on a
    rectangular sheet it has as many, so that
    [pd.DataFrame([rounded_row], columns=header)] is well formed. *)
Theorem po_attainment_table_shape :
  forall (df : frame) (t : po_table),
    extract_po_attainment df = Ok (Some t) ->
    po_heading t = "PO Attainment Table:"%string /\
    Forall (fun c => notna c = true) (po_columns t) /\
    exists r, po_rows t = [r] /\
              length r <= length (po_columns t) /\
              (Spec.rect df -> length r = length (po_columns t)).
Proof.
  intros df t H. unfold extract_po_attainment in H.
  set (df' := dropna_columns df) in *.
  destruct (find_index is_po_attainment_row df') as [pa|]; [|discriminate].
  destruct (find_index is_po_header (skipn (pa + 1) df')) as [k|] eqn:Ek; [|discriminate].
  destruct (nth_error df' (pa + 1 + k + 1)) as [r|] eqn:Er; [|discriminate].
  injection H as <-. cbn [po_heading po_columns po_rows].
  split; [reflexivity|]. split.
  - apply Forall_forall. intros c Hc. now apply filter_In in Hc.
  - eexists. split; [reflexivity|]. split.
    + rewrite length_map. apply firstn_le_length.
    + intros Hrect. apply dropna_columns_rect in Hrect as [w Hw]. fold df' in Hw.
      rewrite Forall_forall in Hw.
      rewrite length_map, length_firstn, length_map.
      apply (find_index_some _ ([] : row)) in Ek as (Hk & _).
      rewrite length_skipn in Hk.
      pose proof (filter_length_le notna (nth (pa + 1 + k) df' [])) as Hle.
      rewrite (Hw (nth (pa + 1 + k) df' [])) in Hle by (apply nth_In; lia).
      rewrite (Hw r) by (now apply nth_error_In in Er). lia.
Qed.

Lemma po_attainment_table_shape_witness :
  exists r, [ [Text "CO1"; Float (Num.Dec 250 2); Float (Num.Dec 200 2);
               Float (Num.Dec 150 2)] ] = [r] /\ length r <= 4.
Proof.
  destruct (po_attainment_table_shape narrow_header_sheet
              (PoTable "PO Attainment Table:"
                 [Text "CO"; Text "PO1"; Text "PO2"; Text "PO3"]
                 [ [Text "CO1"; Float (Num.Dec 250 2); Float (Num.Dec 200 2);
                    Float (Num.Dec 150 2)] ]) eq_refl)
    as (_ & _ & r & Hr & Hlen & _).
  exists r. split; assumption.
Defined.

(** X6. [extract_po_attainment] raises in one case only: the marker row and,
    below it, the header row are found and the header row is the last row of
    the sheet; the exception is then [IndexError]. *)
Theorem po_attainment_raises_iff :
  forall (df : frame) (e : error),
    let df' := dropna_columns df in
    extract_po_attainment df = Raise e <->
    e = IndexError /\
    exists pa k,
      find_index is_po_attainment_row df' = Some pa /\
      find_index is_po_header (skipn (pa + 1) df') = Some k /\
      pa + 1 + k + 1 = length df'.
Proof.
  intros df e df'. unfold extract_po_attainment. fold df'. clearbody df'. split.
  - destruct (find_index is_po_attainment_row df') as [pa|]; [|discriminate].
    destruct (find_index is_po_header (skipn (pa + 1) df')) as [k|] eqn:Ek; [|discriminate].
    destruct (nth_error df' (pa + 1 + k + 1)) as [r|] eqn:Er; [discriminate|].
    intros [= <-]. split; [reflexivity|]. exists pa, k.
    split; [reflexivity|]. split; [exact Ek|].
    apply nth_error_None in Er.
    apply (find_index_some _ ([] : row)) in Ek as (Hk & _).
    rewrite length_skipn in Hk. lia.
  - intros (-> & pa & k & -> & -> & Hlast).
    assert (nth_error df' (pa + 1 + k + 1) = None) as ->; [|reflexivity].
    apply nth_error_None. lia.
Qed.

(** ** extract_po_evaluation_table: what it returns *)

Lemma first_some_some {A B : Type} (f : A -> option B) (l : list A) (y : B) :
  first_some f l = Some y -> exists x, In x l /\ f x = Some y.
Proof.
  induction l as [|x l IH]; [discriminate|].
  simpl. destruct (f x) as [y'|] eqn:E.
  - intros [= <-]. exists x. split; [now left|assumption].
  - intros H. destruct (IH H) as (x' & Hx' & Hf). exists x'. split; [now right|assumption].
Qed.

(** X7. [extract_po_evaluation_table] never returns an empty header or empty
    data: a result has at least one header text, none of them empty, and at
    least one and at most as many data texts as header texts. *)
Theorem po_evaluation_never_empty :
  forall (df : frame) (header data : list string),
    extract_po_evaluation_table df = Some (header, data) ->
    header <> [] /\ data <> [] /\ ~ In ""%string header /\
    length data <= length header.
Proof.
  intros df header data H. unfold extract_po_evaluation_table in H.
  apply first_some_some in H as (i & _ & H). unfold po_eval_at in H.
  destruct (has_po_attainment_text _); [|discriminate].
  destruct (i + 4 <? length df); [|discriminate].
  cbv zeta in H.
  set (hdr := eval_header (nth (i + 3) df [])) in *.
  set (dat := map render_value (firstn (length hdr) (skipn 4 (nth (i + 4) df [])))) in *.
  destruct ((0 <? length hdr) && (0 <? length dat)) eqn:G; [|discriminate].
  injection H as <- <-. apply andb_prop in G as [G1 G2].
  apply Nat.ltb_lt in G1, G2. repeat split.
  - intros E. rewrite E in G1. simpl in G1. lia.
  - intros E. rewrite E in G2. simpl in G2. lia.
  - unfold hdr. rewrite eval_header_spec. unfold Spec.nonempty_trimmed. intros Hin.
    apply filter_In in Hin as (_ & Hne). discriminate.
  - unfold dat. rewrite length_map. apply firstn_le_length.
Qed.

Lemma po_evaluation_never_empty_witness :
  ["PO1"; "PO2"]%string <> [] /\ ["75.00"; "80.00"]%string <> [].
Proof.
  destruct (po_evaluation_never_empty po_eval_sheet
              ["PO1"; "PO2"]%string ["75.00"; "80.00"]%string eq_refl)
    as (H1 & H2 & _).
  split; assumption.
Defined.

(** ** extract_pso_evaluation_table *)

Lemma first_some_none_iff {A B : Type} (f : A -> option B) (l : list A) :
  first_some f l = None <-> forall x, In x l -> f x = None.
Proof.
  induction l as [|x l IH]; simpl.
  - split; [intros _ y []|reflexivity].
  - destruct (f x) as [y|] eqn:E.
    + split; [discriminate|]. intros H. rewrite (H x) in E by now left. discriminate.
    + rewrite IH. split.
      * intros H y [<-|Hy]; [assumption|now apply H].
      * intros H y Hy. apply H. now right.
Qed.

Lemma skipn_nth_cons {A : Type} (d : A) (k : nat) (l : list A) :
  k < length l -> skipn k l = nth k l d :: skipn (S k) l.
Proof.
  revert l; induction k as [|k IH]; intros [|x l] H; simpl in H; try lia.
  - reflexivity.
  - apply IH. lia.
Qed.

Lemma pso_eval_at_some (df : frame) (i : nat) (header data : list string) :
  pso_eval_at df i = Some (header, data) ->
  exists k,
    i + 1 < length df /\
    k < length (nth i df []) /\
    strip (str_nan (nth k (nth i df []) Absent)) = "Course"%string /\
    (forall j, j < k -> strip (str_nan (nth j (nth i df []) Absent)) <> "Course"%string) /\
    header = map (fun c => strip (str_nan c)) (skipn k (nth i df [])) /\
    data = map render_value (firstn (length header) (skipn k (nth (i + 1) df []))).
Proof.
  unfold pso_eval_at. intros H.
  destruct (find_index _ _) as [k|] eqn:Ek; [|discriminate].
  destruct (Nat.ltb_spec (i + 1) (length df)) as [Hi|Hi]; [|discriminate].
  injection H as <- <-. exists k.
  apply (find_index_some _ ""%string) in Ek as (Hk & Hc & Hfirst).
  rewrite length_map in Hk.
  assert (forall j, j < length (nth i df []) ->
            nth j (map (fun c => strip (str_nan c)) (nth i df [])) ""%string
            = strip (str_nan (nth j (nth i df []) Absent))) as Hnth.
  { intros j Hj. rewrite (nth_indep _ ""%string (strip (str_nan Absent)))
      by now rewrite length_map.
    apply (map_nth (fun c => strip (str_nan c))). }
  split; [assumption|]. split; [assumption|]. split; [|split; [|split]].
  - rewrite <- Hnth by assumption. now apply String.eqb_eq.
  - intros j Hj E. rewrite <- Hnth in E by lia.
    specialize (Hfirst j Hj). rewrite E in Hfirst. discriminate.
  - now rewrite skipn_map.
  - now rewrite skipn_map.
Qed.

Lemma pso_evaluation_length (df : frame) (header data : list string) :
  extract_pso_evaluation_table df = Some (header, data) ->
  length data <= length header.
Proof.
  intros H. unfold extract_pso_evaluation_table in H.
  apply first_some_some in H as (i & _ & H).
  apply pso_eval_at_some in H as (k & _ & _ & _ & _ & _ & ->).
  rewrite length_map. apply firstn_le_length.
Qed.

(** X8. A result of [extract_pso_evaluation_table] is read at a row [i] that
    is not the last and at the first column [k] of that row whose trimmed
    text is "Course": the header is the row from column [k] on, beginning
    with "Course" and with "nan" for an absent cell; the data are the rendered
    cells of row [i + 1] from the same column [k] on, never more than the
    header has and, on a rectangular sheet, exactly as many: header and data
    stand column under column. *)
Theorem pso_evaluation_shape :
  forall (df : frame) (header data : list string),
    extract_pso_evaluation_table df = Some (header, data) ->
    exists i k,
      i + 1 < length df /\
      hd ""%string header = "Course"%string /\
      header = map (fun c => strip (str_nan c)) (skipn k (nth i df [])) /\
      length data <= length header /\
      (Spec.rect df ->
       data = map render_value (skipn k (nth (i + 1) df [])) /\
       length data = length header).
Proof.
  intros df header data H. unfold extract_pso_evaluation_table in H.
  apply first_some_some in H as (i & _ & H).
  apply pso_eval_at_some in H as (k & Hi & Hk & Hc & _ & Hh & Hd).
  exists i, k. split; [assumption|]. split; [|split; [assumption|split]].
  - rewrite Hh, (skipn_nth_cons Absent) by assumption. simpl. assumption.
  - rewrite Hd, length_map. apply firstn_le_length.
  - intros [w Hw]. rewrite Forall_forall in Hw.
    assert (length header = length (skipn k (nth (i + 1) df []))) as Hlen.
    { rewrite Hh, length_map, !length_skipn.
      rewrite (Hw (nth i df [])), (Hw (nth (i + 1) df [])); [reflexivity| |];
        apply nth_In; lia. }
    rewrite Hd, Hlen, firstn_all. split; [reflexivity|now rewrite length_map].
Qed.

Lemma pso_evaluation_shape_witness :
  exists i k, i + 1 < length pso_sheet /\
              ["Course"; "PSO1"; "PSO2"]%string
              = map (fun c => strip (str_nan c)) (skipn k (nth i pso_sheet [])).
Proof.
  destruct (pso_evaluation_shape pso_sheet ["Course"; "PSO1"; "PSO2"]%string
              ["course"; "1.00"; "2.00"]%string eq_refl)
    as (i & k & Hi & _ & Hh & _).
  exists i, k. split; assumption.
Defined.

(** X9. [extract_pso_evaluation_table] returns [None] exactly when no row
    other than the last has a cell whose trimmed text is "Course": the word in
    another letter case, or in the last row only, gives no table. *)
Theorem pso_evaluation_none_iff :
  forall (df : frame),
    extract_pso_evaluation_table df = None <->
    forall i c, i + 1 < length df -> In c (nth i df []) ->
                strip (str_nan c) <> "Course"%string.
Proof.
  intros df. unfold extract_pso_evaluation_table. rewrite first_some_none_iff. split.
  - intros H i c Hi Hc E.
    specialize (H i ltac:(apply in_seq; lia)). unfold pso_eval_at in H.
    destruct (find_index _ _) as [k|] eqn:Ek.
    + destruct (Nat.ltb_spec (i + 1) (length df)); [discriminate|lia].
    + apply find_index_none_iff with (x := strip (str_nan c)) in Ek.
      * rewrite E in Ek. discriminate.
      * apply in_map_iff. now exists c.
  - intros H i _. unfold pso_eval_at.
    destruct (find_index _ _) as [k|] eqn:Ek; [|reflexivity].
    destruct (Nat.ltb_spec (i + 1) (length df)) as [Hi|Hi]; [|reflexivity].
    exfalso.
    apply (find_index_some _ ""%string) in Ek as (Hk & Hc & _).
    apply String.eqb_eq in Hc.
    pose proof (nth_In _ ""%string Hk) as Hin. rewrite Hc in Hin.
    apply in_map_iff in Hin as (c & Ec & Hin). now apply (H i c).
Qed.

(** ** The tables of the report stay within their bounds *)

Lemma row_writes_bounds (r start : nat) (texts : list string) :
  Forall (fun w => fst (fst w) = r /\ start <= snd (fst w) < start + length texts)
         (row_writes r start texts).
Proof.
  revert start; induction texts as [|t texts IH]; intros start; constructor.
  - simpl. lia.
  - specialize (IH (S start)). revert IH. apply Forall_impl.
    intros w H. simpl. lia.
Qed.

Lemma row_writes_in (r start j : nat) (texts : list string) :
  j < length texts -> In (r, start + j, nth j texts ""%string) (row_writes r start texts).
Proof.
  revert start j; induction texts as [|t texts IH]; intros start j Hj; [simpl in Hj; lia|].
  destruct j as [|j]; simpl.
  - left. now rewrite Nat.add_0_r.
  - right. replace (start + S j) with (S start + j) by lia. apply IH. simpl in Hj. lia.
Qed.

(** X10. The table of the PSO evaluation is written within its bounds: when
    [extract_pso_evaluation_table] returns a result and the report adds the
    table of 2 rows and [len(header)] columns, every [table.cell(0, j)] and
    [table.cell(1, j)] it writes has [j] below the number of columns, the data
    never being longer than the header. *)
Theorem pso_eval_table_in_bounds :
  forall (df : frame) (t : doc_table),
    pso_eval_doc_table (extract_pso_evaluation_table df) = Some t ->
    in_bounds t /\ n_rows t = 2 /\ 0 < n_cols t.
Proof.
  intros df t H. unfold pso_eval_doc_table in H.
  destruct (extract_pso_evaluation_table df) as [[header data]|] eqn:E; [|discriminate].
  apply pso_evaluation_length in E as Hlen.
  destruct (Nat.ltb_spec 0 (length header)) as [Hh|Hh]; [|discriminate].
  destruct (0 <? length data); [|discriminate].
  injection H as <-. unfold in_bounds. cbn [n_rows n_cols cell_writes].
  repeat split; [|assumption].
  apply Forall_app. split.
  - pose proof (row_writes_bounds 0 0 header) as Hb. revert Hb.
    apply Forall_impl. intros w Hw. lia.
  - pose proof (row_writes_bounds 1 0 data) as Hb. revert Hb.
    apply Forall_impl. intros w Hw. lia.
Qed.

Lemma pso_eval_table_in_bounds_witness :
  in_bounds (DocTable 2 3 (row_writes 0 0 ["Course"; "PSO1"; "PSO2"]%string
                           ++ row_writes 1 0 ["course"; "1.00"; "2.00"]%string)).
Proof.
  apply (pso_eval_table_in_bounds pso_sheet). reflexivity.
Defined.

Lemma data_writes_bounds (n i0 : nat) (data : frame) :
  Forall (fun r => length r = n) data ->
  Forall (fun w => i0 + 2 <= fst (fst w) < i0 + 2 + length data /\ snd (fst w) < n)
         (data_writes i0 data).
Proof.
  revert i0; induction data as [|r data IH]; intros i0 Hn; [constructor|].
  apply Forall_cons_iff in Hn as [Hr Hn]. simpl. apply Forall_app. split.
  - pose proof (row_writes_bounds (i0 + 2) 0 (map str_nan r)) as Hb. revert Hb.
    apply Forall_impl. intros w Hw. rewrite length_map in Hw. lia.
  - specialize (IH (S i0) Hn). revert IH. apply Forall_impl. intros w Hw. lia.
Qed.

Lemma data_writes_in (i0 i j : nat) (data : frame) :
  i < length data -> j < length (nth i data []) ->
  In (i0 + i + 2, j, str_nan (nth j (nth i data []) Absent)) (data_writes i0 data).
Proof.
  revert i0 i; induction data as [|r data IH]; intros i0 i Hi Hj; [simpl in Hi; lia|].
  simpl. apply in_or_app. destruct i as [|i].
  - left. simpl in Hj. rewrite Nat.add_0_r.
    pose proof (row_writes_in (i0 + 2) 0 j (map str_nan r)) as H.
    rewrite length_map in H. specialize (H Hj). simpl in H.
    rewrite (nth_indep _ ""%string (str_nan Absent)) in H by now rewrite length_map.
    now rewrite map_nth in H.
  - right. replace (i0 + S i + 2) with (S i0 + i + 2) by lia.
    apply IH; [simpl in Hi; lia|assumption].
Qed.

Lemma co_mapping_rows_width (df : frame) (sheet_name prefix : string) (t : table) :
  Spec.rect df ->
  extract_co_mapping df sheet_name prefix = Ok t ->
  Forall (fun r => length r = length (columns t)) (rows t).
Proof.
  intros Hrect Hok.
  apply dropna_columns_rect in Hrect as [w Hw].
  apply extract_co_mapping_ok in Hok as (h & Hh & _ & ->). cbn [rows columns].
  apply (find_index_some _ ([] : row)) in Hh as (Hh & _).
  apply (table_invariant (dropna_columns df) w); [assumption| |].
  - rewrite normalize_header_length. rewrite Forall_forall in Hw. now apply Hw, nth_In.
  - intros r Hr. unfold kept_co_rows in Hr. apply filter_In in Hr as (Hr & _).
    now apply in_data_region in Hr.
Qed.

Lemma returned_table_columns_aux (df : frame) (sheet_name prefix : string) (t : table) :
  (extract_co_mapping df sheet_name prefix = Ok t -> 2 <= length (columns t)) /\
  (extract_co_pso_mapping df sheet_name = Ok t -> 2 <= length (columns t)).
Proof.
  split; intros Hok.
  - apply extract_co_mapping_ok in Hok as (h & Hh & _ & ->). cbn [columns].
    apply (find_index_some _ ([] : row)) in Hh as (_ & Hrow & _).
    rewrite normalize_header_length. now apply (co_header_two_cells prefix).
  - apply extract_co_pso_mapping_ok in Hok as (h & Hh & _ & ->). cbn [columns].
    apply (find_index_some _ ([] : row)) in Hh as (_ & Hrow & _).
    rewrite pso_header_length. now apply co_pso_header_two_cells.
Qed.

(** X11. The table of a mapping is written within its bounds and in full: for
    a table returned by [extract_co_mapping] on a rectangular sheet, every
    cell the report writes lies inside the [len(df) + 2] rows and
    [len(df.columns)] columns it asked for, each column label after the first
    is written in row 1 of its column, and the value of row [i] and column
    [j] is written as text to the cell [(i + 2, j)]. *)
Theorem mapping_table_in_bounds :
  forall (df : frame) (sheet_name prefix corner span : string) (t : table),
    Spec.rect df ->
    extract_co_mapping df sheet_name prefix = Ok t ->
    let doc := mapping_doc_table corner span t in
    in_bounds doc /\
    (forall j, 1 <= j < length (columns t) ->
               In (1, j, nth j (columns t) ""%string) (cell_writes doc)) /\
    (forall i j, i < length (rows t) -> j < length (columns t) ->
                 In (i + 2, j, str_nan (nth j (nth i (rows t) []) Absent))
                    (cell_writes doc)).
Proof.
  intros df sheet_name prefix corner span t Hrect Hok doc.
  pose proof (co_mapping_rows_width df sheet_name prefix t Hrect Hok) as Hwidth.
  pose proof (proj1 (returned_table_columns_aux df sheet_name prefix t) Hok) as Hcols.
  unfold doc, mapping_doc_table, in_bounds. cbn [n_rows n_cols cell_writes].
  split; [|split].
  - constructor; [simpl; lia|]. constructor; [simpl; lia|].
    apply Forall_app. split.
    + pose proof (row_writes_bounds 1 1 (tl (columns t))) as Hb. revert Hb.
      apply Forall_impl. intros w Hw.
      assert (length (tl (columns t)) = length (columns t) - 1) as E
        by (destruct (columns t); simpl; lia).
      lia.
    + pose proof (data_writes_bounds (length (columns t)) 0 (rows t) Hwidth) as Hb.
      revert Hb. apply Forall_impl. intros w Hw. lia.
  - intros j Hj. right. right. apply in_or_app. left.
    destruct (columns t) as [|c cols]; [simpl in Hj; lia|].
    destruct j as [|j]; [lia|]. simpl in Hj. cbn [tl nth].
    replace (S j) with (1 + j) at 1 by lia. apply row_writes_in. lia.
  - intros i j Hi Hj. right. right. apply in_or_app. right.
    apply (data_writes_in 0 i j); [assumption|].
    rewrite Forall_forall in Hwidth. rewrite (Hwidth (nth i (rows t) [])); [assumption|].
    now apply nth_In.
Qed.

Lemma mapping_table_in_bounds_witness :
  in_bounds (mapping_doc_table "COs" "Program outcomes"
               (Table "Mapping of CO with POs:" ["CO"; "PO1"; "PO2"]%string
                  [ [Text "CO1"; Float (Num.Dec 333 2); Text "-"];
                    [Text "CO2"; Text "-"; Float (Num.Dec 267 2)] ])).
Proof.
  apply (mapping_table_in_bounds scenario "CO Attainment" "PO").
  - exists 3. repeat constructor.
  - reflexivity.
Defined.

(** ** The score rows *)

Section ScoreRows.

Import Scores.

Lemma pad6_length {A : Type} (d : A) (l : list A) : length (pad6 d l) = 6.
Proof.
  unfold pad6. rewrite length_app, length_firstn, repeat_length. lia.
Qed.

Lemma pad6_forall {A : Type} (P : A -> Prop) (d : A) (l : list A) :
  P d -> Forall P l -> Forall P (pad6 d l).
Proof.
  intros Hd Hl. unfold pad6. apply Forall_app. split.
  - rewrite Forall_forall in *. intros x Hx. apply in_firstn_frame in Hx. now apply Hl.
  - apply Forall_forall. intros x Hx. now apply repeat_spec in Hx as ->.
Qed.

Lemma filter_is_number (r : row) : Forall (fun c => is_number c = true) (filter is_number r).
Proof. apply Forall_forall. intros c Hc. now apply filter_In in Hc. Qed.

Lemma internal_scan_numbers (sheet : frame) :
  Forall (fun c => is_number c = true) (internal_scan sheet).
Proof.
  induction sheet as [|r sheet IH]; [constructor|].
  simpl. destruct (has_text_label _ r); [|assumption].
  pose proof (filter_is_number r) as H.
  destruct (filter is_number r); assumption.
Qed.

(** X12. Each of the three score rows of the report has exactly six entries,
    whatever the sheet holds, so that the loops over [range(6)] never leave
    the list; the internal and the exit scores are numbers, none of them a
    text or an absent value, and the six external scores are all the same. *)
Theorem score_rows_have_six_entries :
  forall (sheet : frame),
    length (internal_scores sheet) = 6 /\
    length (exit_scores sheet) = 6 /\
    length (external_scores sheet) = 6 /\
    Forall (fun c => is_number c = true) (internal_scores sheet) /\
    Forall (fun c => is_number c = true) (exit_scores sheet) /\
    exists v, external_scores sheet = repeat v 6.
Proof.
  intros sheet. repeat split; try apply pad6_length.
  - apply pad6_forall; [reflexivity|apply internal_scan_numbers].
  - apply pad6_forall; [reflexivity|]. unfold exit_scan.
    destruct (find _ sheet); [apply filter_is_number|constructor].
  - unfold external_scores.
    assert (external_scan sheet = [] \/ exists v, external_scan sheet = repeat v 6)
      as [->|[v ->]]; [|now exists (Num.Dec 0 0)|now exists v].
    induction sheet as [|r sheet IH]; [now left|].
    simpl. destruct (has_text_label _ r); [|assumption].
    destruct (first_float _) as [raw|]; [right; now eexists|assumption].
Qed.

Lemma internal_scan_skip (pre rest : frame) :
  (forall r, In r pre ->
             has_text_label "CO Attainment" r && existsb is_number r = false) ->
  internal_scan (pre ++ rest) = internal_scan rest.
Proof.
  intros H. induction pre as [|r pre IH]; [reflexivity|].
  rewrite <- app_comm_cons. cbn [internal_scan].
  rewrite IH by (intros r' Hr'; apply H; now right).
  pose proof (H r (or_introl eq_refl)) as Hr.
  destruct (has_text_label _ r); [|reflexivity].
  simpl in Hr. apply find_number_none in Hr.
  destruct (filter is_number r) as [|c l] eqn:E; [reflexivity|].
  assert (In c (filter is_number r)) as Hc by (rewrite E; now left).
  apply filter_In in Hc as (Hc & Hn).
  apply find_none_iff with (x := c) in Hr; [congruence|assumption].
Qed.

(** X13. The internal scores are the numbers, in the order of the row and six
    at most, of the first row of the sheet that has "CO Attainment" in a text
    cell and holds a number; a labelled row without a number is passed over;
    missing scores, all six without such a row, are 1.0. *)
Theorem internal_scores_first_labelled_row :
  forall (sheet : frame),
    (forall pre r post,
        sheet = pre ++ r :: post ->
        has_text_label "CO Attainment" r = true ->
        existsb is_number r = true ->
        (forall r', In r' pre ->
                    has_text_label "CO Attainment" r' && existsb is_number r' = false) ->
        internal_scores sheet = pad6 (Float (Num.Dec 1 0)) (filter is_number r)) /\
    ((forall r, In r sheet ->
                has_text_label "CO Attainment" r && existsb is_number r = false) ->
     internal_scores sheet = repeat (Float (Num.Dec 1 0)) 6).
Proof.
  intros sheet. split.
  - intros pre r post -> Hl Hn Hpre. unfold internal_scores.
    rewrite internal_scan_skip by assumption. cbn [internal_scan]. rewrite Hl.
    destruct (filter is_number r) as [|c l] eqn:E; [|reflexivity].
    exfalso. apply existsb_exists in Hn as (c & Hc & Hn).
    assert (In c (filter is_number r)) as Hin by (apply filter_In; now split).
    now rewrite E in Hin.
  - intros H. unfold internal_scores.
    rewrite <- (app_nil_r sheet), internal_scan_skip by assumption. reflexivity.
Qed.

(** X14. The exit-survey scores are read in the first row that has
    "Attainment level in percentage" in the text of a cell, and only there:
    when that row holds no number all six scores are 0.0, whatever the rows
    below hold. *)
Theorem exit_scores_first_labelled_row :
  forall (sheet pre post : frame) (r : row),
    sheet = pre ++ r :: post ->
    row_has_label "Attainment level in percentage" r = true ->
    (forall r', In r' pre -> row_has_label "Attainment level in percentage" r' = false) ->
    exit_scores sheet = pad6 (Float (Num.Dec 0 0)) (filter is_number r) /\
    (existsb is_number r = false ->
     exit_scores sheet = repeat (Float (Num.Dec 0 0)) 6).
Proof.
  intros sheet pre post r -> Hl Hpre.
  assert (exit_scan (pre ++ r :: post) = filter is_number r) as Hscan.
  { unfold exit_scan. rewrite find_skip by assumption. simpl. now rewrite Hl. }
  unfold exit_scores. rewrite Hscan. split; [reflexivity|].
  intros Hn. apply find_number_none in Hn.
  destruct (filter is_number r) as [|c l] eqn:E; [reflexivity|].
  assert (In c (filter is_number r)) as Hc by (rewrite E; now left).
  apply filter_In in Hc as (Hc & Hnum).
  apply find_none_iff with (x := c) in Hn; [congruence|assumption].
Qed.



End ScoreRows.

Lemma internal_scores_first_labelled_row_witness :
  Scores.internal_scores internal_sheet
  = [Float (Num.Dec 8 1); Int 1; Float (Num.Dec 1 0); Float (Num.Dec 1 0);
     Float (Num.Dec 1 0); Float (Num.Dec 1 0)].
Proof.
  apply (proj1 (internal_scores_first_labelled_row internal_sheet)
               [[Text "CO Attainment"; Absent; Text "n/a"]]
               [Text "Average CO Attainment"; Float (Num.Dec 8 1); Int 1; Text "x"]
               [[Text "CO Attainment"; Int 7]]).
  - reflexivity.
  - reflexivity.
  - reflexivity.
  - intros r' [<-|[]]. reflexivity.
Defined.

Lemma exit_scores_first_labelled_row_witness :
  Scores.exit_scores exit_sheet = repeat (Float (Num.Dec 0 0)) 6.
Proof.
  apply (proj2 (exit_scores_first_labelled_row exit_sheet
                  [[Text "Question"; Int 5]]
                  [[Text "Attainment level in percentage"; Float (Num.Dec 80 0)]]
                  [Text "Attainment level in percentage"; Absent]
                  eq_refl eq_refl
                  ltac:(intros r' [<-|[]]; reflexivity))).
  reflexivity.
Defined.


(** ** The faculty table *)

Section FacultyInfo.

Import Faculty.

Lemma scan_cells_hits (texts : list string) (info : dict) :
  scan_cells texts info = apply_hits (row_hits texts) info.
Proof.
  revert info; induction texts as [|cell rest IH]; intros info; [reflexivity|].
  cbn [scan_cells row_hits]. rewrite IH.
  destruct rest as [|next rest']; [reflexivity|].
  destruct (existsb (String.eqb cell) keywords); reflexivity.
Qed.

Lemma scan_sheet_hits (sheet : frame) (info : dict) :
  scan_sheet sheet info
  = apply_hits (flat_map (fun r => row_hits (row_texts r)) sheet) info.
Proof.
  unfold scan_sheet.
  revert info; induction sheet as [|r sheet IH]; intros info; [reflexivity|].
  cbn [fold_left flat_map]. rewrite IH, scan_cells_hits.
  unfold apply_hits. now rewrite fold_left_app.
Qed.

Lemma scan_workbook_hits (wb : workbook) (info : dict) :
  fold_left (fun d sh => scan_sheet (snd sh) d) wb info
  = apply_hits (all_hits wb) info.
Proof.
  unfold all_hits.
  revert info; induction wb as [|sh wb IH]; intros info; [reflexivity|].
  cbn [fold_left flat_map]. rewrite IH, scan_sheet_hits.
  unfold apply_hits. now rewrite fold_left_app.
Qed.

Lemma find_app_first {A : Type} (p : A -> bool) (l1 l2 : list A) :
  find p (l1 ++ l2) = match find p l1 with
                      | Some x => Some x
                      | None => find p l2
                      end.
Proof.
  induction l1 as [|x l1 IH]; [reflexivity|].
  simpl. now destruct (p x).
Qed.

Lemma apply_hits_lookup (hits : list (string * string)) (d : dict) (key : string) :
  apply_hits hits d key
  = match find (fun h => String.eqb (fst h) key) (rev hits) with
    | Some h => Some (snd h)
    | None => d key
    end.
Proof.
  revert d; induction hits as [|h hits IH]; intros d; [reflexivity|].
  unfold apply_hits in *. cbn [fold_left rev]. rewrite IH, find_app_first.
  destruct (find _ (rev hits)); [reflexivity|].
  simpl. unfold dict_set. rewrite (String.eqb_sym key (fst h)).
  now destruct (String.eqb (fst h) key).
Qed.

Lemma row_hits_keys (texts : list string) (h : string * string) :
  In h (row_hits texts) -> In (fst h) keywords.
Proof.
  induction texts as [|cell rest IH]; [intros []|].
  cbn [row_hits]. destruct rest as [|next rest']; [intros []|].
  destruct (existsb (String.eqb cell) keywords) eqn:E; [|exact IH].
  intros [<-|H]; [|now apply IH].
  apply existsb_exists in E as (k & Hk & E). apply String.eqb_eq in E. now subst.
Qed.

Lemma all_hits_keys (wb : workbook) (h : string * string) :
  In h (all_hits wb) -> In (fst h) keywords.
Proof.
  unfold all_hits. intros H.
  apply in_flat_map in H as (sh & _ & H).
  apply in_flat_map in H as (r & _ & H).
  now apply row_hits_keys in H.
Qed.

Lemma setdefault_other (k v key : string) (d : dict) :
  key <> k -> setdefault k v d key = d key.
Proof.
  intros H. unfold setdefault. destruct (d k); [reflexivity|].
  unfold dict_set. destruct (String.eqb_spec key k); [contradiction|reflexivity].
Qed.

Lemma setdefault_same (k v : string) (d : dict) :
  setdefault k v d k = match d k with
                       | Some x => Some x
                       | None => Some v
                       end.
Proof.
  unfold setdefault. destruct (d k) eqn:E; [assumption|].
  unfold dict_set. now rewrite String.eqb_refl.
Qed.

Lemma defaults_lookup (keys : list string) (d : dict) (key : string) :
  fold_left (fun d k => setdefault k ""%string d) keys d key
  = match d key with
    | Some x => Some x
    | None => if in_dec string_dec key keys then Some ""%string else None
    end.
Proof.
  revert d; induction keys as [|k keys IH]; intros d.
  - simpl. now destruct (d key).
  - cbn [fold_left]. rewrite IH.
    destruct (string_dec k key) as [->|Hne].
    + rewrite setdefault_same.
      destruct (d key); [reflexivity|].
      destruct (in_dec string_dec key (key :: keys)) as [|Hn]; [reflexivity|].
      exfalso. apply Hn. now left.
    + rewrite setdefault_other by congruence.
      destruct (d key); [reflexivity|].
      destruct (in_dec string_dec key keys) as [Hi|Hi];
        destruct (in_dec string_dec key (k :: keys)) as [Hj|Hj]; try reflexivity.
      * exfalso. apply Hj. now right.
      * exfalso. destruct Hj as [Hj|Hj]; [congruence|contradiction].
Qed.

(** X16. After lines 241 to 255 the dictionary [faculty_info] has an entry
    for each of the six keywords and for nothing else: a keyword reads the
    trimmed text of the cell to the right of its last occurrence, in the order
    of the sheets, rows and cells, that has a cell to its right, and the empty
    text when there is none, so that no [faculty_info[key]] of the report
    raises [KeyError]. *)
Theorem faculty_info_entries :
  forall (wb : workbook) (key : string),
    (In key keywords ->
     faculty_info wb key = Some (last_hit key (all_hits wb))) /\
    (~ In key keywords -> faculty_info wb key = None).
Proof.
  intros wb key. unfold faculty_info.
  rewrite defaults_lookup, scan_workbook_hits, apply_hits_lookup.
  unfold last_hit, empty. split; intros Hk.
  - destruct (find _ (rev (all_hits wb))); [reflexivity|].
    destruct (in_dec string_dec key keywords); [reflexivity|contradiction].
  - destruct (find _ (rev (all_hits wb))) as [h|] eqn:E.
    + exfalso. apply find_some in E as (Hin & Heq).
      apply in_rev, all_hits_keys in Hin.
      apply String.eqb_eq in Heq. now subst.
    + destruct (in_dec string_dec key keywords); [contradiction|reflexivity].
Qed.

Lemma faculty_info_entries_witness :
  faculty_info faculty_workbook "Sem" = Some "VI"%string /\
  faculty_info faculty_workbook "Class" = Some ""%string /\
  faculty_info faculty_workbook "Faculty name" = None.
Proof.
  split; [|split].
  - apply (proj1 (faculty_info_entries faculty_workbook "Sem")). vm_compute. tauto.
  - apply (proj1 (faculty_info_entries faculty_workbook "Class")). vm_compute. tauto.
  - apply (proj2 (faculty_info_entries faculty_workbook "Faculty name")).
    vm_compute. intuition discriminate.
Defined.

End FacultyInfo.

(** ** The target value *)

Lemma extract_target_value_text (sheet : frame) :
  extract_target_value sheet = "-"%string \/
  (exists z, extract_target_value sheet = Num.int_repr z) \/
  (exists x, extract_target_value sheet = Num.fmt2 x).
Proof.
  induction sheet as [|r sheet IH]; [now left|].
  rewrite extract_target_value_unfold.
  destruct (Spec.has_target_label r); [|assumption].
  destruct (find is_number r) as [[|z|x|s]|]; try assumption.
  - right. left. now exists z.
  - right. right. now exists x.
Qed.

(** X17. The target value written to the report is never an empty text and
    never the text of a text cell: it is "-", the digits of an integer, or a
    number with exactly 2 decimal places; a workbook without the sheet
    "University TH Marks" gives "-" and nothing is raised. *)
Theorem target_value_text :
  forall (wb : workbook),
    (target_value wb = "-"%string \/
     (exists z, target_value wb = Num.int_repr z) \/
     Spec.two_decimals (target_value wb)) /\
    target_value wb <> ""%string /\
    ((forall sh, In sh wb -> fst sh <> "University TH Marks"%string) ->
     target_value wb = "-"%string).
Proof.
  intros wb.
  assert (target_value wb = "-"%string \/
          (exists z, target_value wb = Num.int_repr z) \/
          (exists x, target_value wb = Num.fmt2 x)) as H.
  { unfold target_value. destruct (find _ wb) as [p|]; [|now left].
    apply extract_target_value_text. }
  split; [|split].
  - destruct H as [H|[H|[x H]]]; [now left|right; now left|].
    right. right. rewrite H. apply fmt2_two_decimals.
  - destruct H as [H|[[z H]|[x H]]]; rewrite H.
    + discriminate.
    + unfold Num.int_repr. pose proof (digits_nonempty (Z.abs z)) as Hd.
      destruct (z <? 0)%Z; [discriminate|exact Hd].
    + destruct (fmt2_two_decimals x) as (a & d1 & d2 & E & Ha & _).
      rewrite E. destruct a; [contradiction|discriminate].
  - intros Hnone. unfold target_value.
    destruct (find _ wb) as [p|] eqn:E; [|reflexivity].
    apply find_some in E as (Hin & Heq). apply String.eqb_eq in Heq.
    now apply Hnone in Hin.
Qed.

Lemma target_value_text_witness :
  target_value faculty_workbook = "-"%string.
Proof.
  apply (proj2 (proj2 (target_value_text faculty_workbook))).
  intros sh [<-|[<-|[]]]; discriminate.
Defined.

(** ** The remark *)


(** ** Two more scenarios, computed *)

Example remark_of_survey_sheet :
  Remarks.remark_of_sheet survey_sheet = "Target is Achieved."%string /\
  Remarks.remark_of_sheet attainment_sheet = "Target is not Achieved."%string.
Proof. split; reflexivity. Qed.

Example read_excel_report_workbook :
  exists co_po co_pso,
    fst (read_excel report_workbook) = Ok (co_po, None, co_pso) /\
    length (rows co_po) = 2 /\
    columns co_pso = ["CO"; "PSO1"; "PSO2"]%string.
Proof. do 2 eexists. repeat split. Qed.
